(** * LinguaFlow: the live-translation hook and its visualizer

    A shallow embedding of [src/hooks/useLiveTranslator.ts], [src/types.ts]
    and [src/components/Visualizer.tsx].

    Conventions of the embedding.
    - A JavaScript [number] that holds seconds of an audio clock is a
      finite double, kept as the rational it is ([Q]); the sums the hook
      makes of such numbers are rounded as IEEE 754 does ([binary64],
      [plus64]).  A sample or a canvas coordinate is a rational; the
      coordinates the visualizer computes on its 300 by 60 canvas are
      dyadic and exact.  [Date.now()] yields an integer ([Z]).
    - A JavaScript string is its list of UTF-16 code units.
    - Platform and vendor objects (audio contexts and nodes, media streams,
      promises) are handles; every call made on them is recorded, in
      order, as an [Effect].
    - An [async] function is cut at each [await]: the part before it runs
      in the step that calls the function and leaves a [Task]; the part
      after it runs in the step in which the environment settles that
      task.  A callback registered with [.then] is a task as well. *)

From Stdlib Require Import List Bool ZArith NArith QArith Qround Qpower.
From Stdlib Require Ascii String DecimalPos DecimalZ.
From Stdlib Require Import DecimalString Lia Lqa Sorting.Sorted.
Import ListNotations.
Import String.StringSyntax.

Set Implicit Arguments.

(* ------------------------------------------------------------------ *)
(** ** JavaScript values used by the hook *)

(** A string, as its UTF-16 code units. *)
Definition JsString := list N.

(** A string literal of the source (ASCII only). *)
Definition lit (s : String.string) : JsString :=
  map Ascii.N_of_ascii (String.list_ascii_of_string s).

Arguments lit s%_string_scope.

Definition JsString_eq_dec : forall a b : JsString, {a = b} + {a <> b} :=
  list_eq_dec N.eq_dec.

(** [a === b] on strings. *)
Definition strictEq (a b : JsString) : bool :=
  if JsString_eq_dec a b then true else false.

(** Truthiness of a string: every string but the empty one. *)
Definition truthy (s : JsString) : bool :=
  match s with [] => false | _ :: _ => true end.

(** Truthiness of an optional string ([undefined] is falsy). *)
Definition truthyOpt (s : option JsString) : bool :=
  match s with Some t => truthy t | None => false end.

(** ECMAScript WhiteSpace and LineTerminator code points (all of them in
    the basic plane), the characters [String.prototype.trim] strips. *)
Definition isWhiteSpace (c : N) : bool :=
  ((c =? 9) || (c =? 10) || (c =? 11) || (c =? 12) || (c =? 13)
   || (c =? 32) || (c =? 160) || (c =? 5760)
   || ((8192 <=? c) && (c <=? 8202))
   || (c =? 8232) || (c =? 8233) || (c =? 8239) || (c =? 8287)
   || (c =? 12288) || (c =? 65279))%N.

Fixpoint trimStart (s : JsString) : JsString :=
  match s with
  | c :: s' => if isWhiteSpace c then trimStart s' else s
  | [] => []
  end.

Definition trimEnd (s : JsString) : JsString := rev (trimStart (rev s)).

(** [s.trim()]. *)
Definition trim (s : JsString) : JsString := trimEnd (trimStart s).

(** [n.toString()] for an integer [n]. *)
Definition toString (n : Z) : JsString :=
  lit (NilZero.string_of_int (Z.to_int n)).

(** [a < b] on numbers. *)
Definition ltb (a b : Q) : bool := negb (Qle_bool b a).

(** [a || b] on numbers: [a] unless it is zero. *)
Definition orElse (a b : Q) : Q := if Qeq_bool a 0 then b else a.

(** *** Double precision

    A number that holds a time is a finite double, that is a rational
    [m * 2^e] with [|m| < 2^53] and [-1074 <= e]; comparing two of them
    is comparing the rationals.  The sum of two doubles is the double
    nearest to their exact sum, the one with the even mantissa when two
    are as near (IEEE 754, round to nearest, ties to even).  The times
    here are seconds on an audio clock: they stay far below [2^1024],
    where a sum would overflow. *)

(** The integer nearest to [q], the even one when two are as near. *)
Definition roundHalfEven (q : Q) : Z :=
  let f := Qfloor q in
  match Qcompare (q - inject_Z f) (1 # 2) with
  | Lt => f
  | Gt => (f + 1)%Z
  | Eq => if Z.even f then f else (f + 1)%Z
  end.

(** For [0 < q], the [k] with [2^k <= q < 2^(k+1)]. *)
Definition floorLog2 (q : Q) : Z :=
  let k := (Z.log2 (Qnum q) - Z.log2 (Zpos (Qden q)))%Z in
  if Qle_bool (2 ^ k) q then k else (k - 1)%Z.

(** For [0 < q]: a mantissa of 53 bits, or of fewer bits at the least
    exponent, [-1074], where the doubles are subnormal. *)
Definition roundPositive (q : Q) : Q :=
  let e := Z.max (floorLog2 q - 52) (-1074) in
  inject_Z (roundHalfEven (q / 2 ^ e)) * 2 ^ e.

(** The double nearest to [q]; it is also what a decimal literal that
    reads [q] denotes. *)
Definition binary64 (q : Q) : Q :=
  Qred match Qnum q with
       | Z0 => 0
       | Zpos _ => roundPositive q
       | Zneg _ => - roundPositive (- q)
       end.

(** [a + b] on numbers. *)
Definition plus64 (a b : Q) : Q := binary64 (a + b).

(** What a clock shows: a double that is not negative. *)
Definition isClockValue (q : Q) : bool :=
  Qle_bool 0 q && Qeq_bool (binary64 q) q.

Definition Float32Array := list Q.
Definition Uint8Array := list N.

(** An object of the platform or of the vendor SDK. *)
Definition Handle := nat.
Bind Scope nat_scope with Handle.

(* ------------------------------------------------------------------ *)
(** ** [src/types.ts] *)

Inductive Sender := user | model.

Record ChatMessage := {
  id : JsString;
  text : JsString;
  sender : Sender;
  timestamp : Z;
  language : option JsString;
  isTranslating : option bool
}.

Inductive ConnectionState := DISCONNECTED | CONNECTING | CONNECTED | ERROR.

(** The string each member of the enum stands for. *)
Definition ConnectionState_value (c : ConnectionState) : JsString :=
  match c with
  | DISCONNECTED => lit "disconnected"
  | CONNECTING => lit "connecting"
  | CONNECTED => lit "connected"
  | ERROR => lit "error"
  end.

Definition ConnectionState_eq_dec :
  forall a b : ConnectionState, {a = b} + {a <> b}.
Proof. decide equality. Defined.

(* ------------------------------------------------------------------ *)
(** ** The vendor SDK's message, as far as the hook reads it

    A field the handler reaches through [?.] is optional.  A field it
    dereferences directly ([message.toolCall.functionCalls],
    [fc.args.language]) is taken to be present, as the code assumes. *)

Record FunctionCall := {
  fc_id : option JsString;
  fc_name : option JsString;
  fc_args_language : JsString
}.

Record ToolCall := { functionCalls : list FunctionCall }.

Record Transcription := { transcription_text : option JsString }.

Record Blob := { data : option JsString; mimeType : option JsString }.

Record Part := { inlineData : option Blob }.

Record Content := { parts : option (list Part) }.

Record LiveServerContent := {
  inputTranscription : option Transcription;
  outputTranscription : option Transcription;
  turnComplete : option bool;
  modelTurn : option Content
}.

Record LiveServerMessage := {
  toolCall : option ToolCall;
  serverContent : option LiveServerContent
}.

(** A decoded buffer; the hook reads its [duration] only. *)
Record AudioBuffer := { duration : Q }.

(** The hook's props. *)
Record UseLiveTranslatorProps := {
  apiKey : JsString;
  targetLanguage : JsString
}.

(** [src/constants] and [src/utils/audio] are not part of the sources at
    hand: the constants and helpers the hook imports from them are
    parameters.  A helper that can throw (or whose promise can reject)
    returns [None] when it does. *)
Class AudioUtils := {
  AUDIO_INPUT_SAMPLE_RATE : Q;
  AUDIO_OUTPUT_SAMPLE_RATE : Q;
  GEMINI_MODEL : JsString;
  createPcmBlob : Float32Array -> Q -> Blob;
  base64ToUint8Array : JsString -> option Uint8Array;
  decodeAudioData : Uint8Array -> Handle -> Q -> option AudioBuffer
}.

(* ------------------------------------------------------------------ *)
(** ** Effects: the calls the hook makes, in order *)

(** Where an audio node is connected to. *)
Inductive Target := Node (n : Handle) | Destination (ctx : Handle).

Inductive Effect :=
(* React state setters *)
| SetConnectionState (v : ConnectionState)
| SetDetectedLanguage (v : JsString)
| SetMessages (appended : list ChatMessage)
(* window and console *)
| Alert (message : JsString)
| ConsoleError (label : JsString)
(* vendor SDK *)
| NewGoogleGenAI (key : JsString)
| LiveConnect (promise : Handle) (modelName target : JsString)
| SessionClose (promise : Handle)
| SendRealtimeInput (promise : Handle) (media : Blob)
| SendToolResponse (promise : Handle) (fid fname : option JsString)
(* Web Audio and media capture *)
| NewAudioContext (ctx : Handle) (sampleRate : Q)
| CreateAnalyser (ctx node : Handle)
| SetFftSize (node : Handle) (size : Z)
| GetUserMedia
| CreateMediaStreamSource (ctx stream node : Handle)
| CreateScriptProcessor (ctx node : Handle) (bufferSize nIn nOut : Z)
| Connect (node : Handle) (to : Target)
| SetOnAudioProcess (node : Handle)
| TracksStop (stream : Handle)
| Disconnect (node : Handle)
| ContextClose (ctx : Handle)
| CreateBufferSource (ctx node : Handle)
| SetBuffer (node : Handle) (buffer : AudioBuffer)
| SourceStart (node : Handle) (when : Q)
| SourceStop (node : Handle)
| SetOnEnded (node : Handle).

(** Suspended code: what runs once the awaited promise settles. *)
Inductive Task :=
| ConnectAwaitUserMedia (props : UseLiveTranslatorProps)
| DisconnectAwaitSession (promise : Handle)
| ThenSendRealtimeInput (promise : Handle) (media : Blob)
| ThenSendToolResponse (promise : Handle) (fid fname : option JsString)
| MessageAwaitDecode (ctx : Handle) (decoded : option AudioBuffer).

(* ------------------------------------------------------------------ *)
(** ** The state of one mounted hook

    The three [useState] cells and the twelve [useRef] cells of
    [useLiveTranslator], and what the JavaScript runtime holds for it. *)

Record State := {
  (* React state *)
  connectionState : ConnectionState;
  detectedLanguage : JsString;
  messages : list ChatMessage;
  (* audio refs *)
  inputContextRef : option Handle;
  outputContextRef : option Handle;
  inputAnalyserRef : option Handle;
  outputAnalyserRef : option Handle;
  processorRef : option Handle;
  sourceRef : option Handle;
  streamRef : option Handle;
  (* session and playback *)
  sessionPromiseRef : option Handle;
  nextStartTimeRef : Q;
  scheduledSourcesRef : list Handle;
  (* transcription buffers *)
  currentInputTransRef : JsString;
  currentOutputTransRef : JsString;
  (* the runtime: suspended code, the next fresh handle, the calls made *)
  pending : list Task;
  nextHandle : Handle;
  log : list Effect
}.

(** Field updates. *)
Definition set_connectionState (v : ConnectionState) (st : State) : State :=
  {| connectionState := v; detectedLanguage := detectedLanguage st; messages
     := messages st; inputContextRef := inputContextRef st; outputContextRef
     := outputContextRef st; inputAnalyserRef := inputAnalyserRef st;
     outputAnalyserRef := outputAnalyserRef st; processorRef := processorRef
     st; sourceRef := sourceRef st; streamRef := streamRef st;
     sessionPromiseRef := sessionPromiseRef st; nextStartTimeRef :=
     nextStartTimeRef st; scheduledSourcesRef := scheduledSourcesRef st;
     currentInputTransRef := currentInputTransRef st; currentOutputTransRef
     := currentOutputTransRef st; pending := pending st; nextHandle :=
     nextHandle st; log := log st |}.

Definition set_detectedLanguage (v : JsString) (st : State) : State :=
  {| connectionState := connectionState st; detectedLanguage := v; messages
     := messages st; inputContextRef := inputContextRef st; outputContextRef
     := outputContextRef st; inputAnalyserRef := inputAnalyserRef st;
     outputAnalyserRef := outputAnalyserRef st; processorRef := processorRef
     st; sourceRef := sourceRef st; streamRef := streamRef st;
     sessionPromiseRef := sessionPromiseRef st; nextStartTimeRef :=
     nextStartTimeRef st; scheduledSourcesRef := scheduledSourcesRef st;
     currentInputTransRef := currentInputTransRef st; currentOutputTransRef
     := currentOutputTransRef st; pending := pending st; nextHandle :=
     nextHandle st; log := log st |}.

Definition set_messages (v : list ChatMessage) (st : State) : State :=
  {| connectionState := connectionState st; detectedLanguage :=
     detectedLanguage st; messages := v; inputContextRef := inputContextRef
     st; outputContextRef := outputContextRef st; inputAnalyserRef :=
     inputAnalyserRef st; outputAnalyserRef := outputAnalyserRef st;
     processorRef := processorRef st; sourceRef := sourceRef st; streamRef
     := streamRef st; sessionPromiseRef := sessionPromiseRef st;
     nextStartTimeRef := nextStartTimeRef st; scheduledSourcesRef :=
     scheduledSourcesRef st; currentInputTransRef := currentInputTransRef
     st; currentOutputTransRef := currentOutputTransRef st; pending :=
     pending st; nextHandle := nextHandle st; log := log st |}.

Definition set_inputContextRef (v : option Handle) (st : State) : State :=
  {| connectionState := connectionState st; detectedLanguage :=
     detectedLanguage st; messages := messages st; inputContextRef := v;
     outputContextRef := outputContextRef st; inputAnalyserRef :=
     inputAnalyserRef st; outputAnalyserRef := outputAnalyserRef st;
     processorRef := processorRef st; sourceRef := sourceRef st; streamRef
     := streamRef st; sessionPromiseRef := sessionPromiseRef st;
     nextStartTimeRef := nextStartTimeRef st; scheduledSourcesRef :=
     scheduledSourcesRef st; currentInputTransRef := currentInputTransRef
     st; currentOutputTransRef := currentOutputTransRef st; pending :=
     pending st; nextHandle := nextHandle st; log := log st |}.

Definition set_outputContextRef (v : option Handle) (st : State) : State :=
  {| connectionState := connectionState st; detectedLanguage :=
     detectedLanguage st; messages := messages st; inputContextRef :=
     inputContextRef st; outputContextRef := v; inputAnalyserRef :=
     inputAnalyserRef st; outputAnalyserRef := outputAnalyserRef st;
     processorRef := processorRef st; sourceRef := sourceRef st; streamRef
     := streamRef st; sessionPromiseRef := sessionPromiseRef st;
     nextStartTimeRef := nextStartTimeRef st; scheduledSourcesRef :=
     scheduledSourcesRef st; currentInputTransRef := currentInputTransRef
     st; currentOutputTransRef := currentOutputTransRef st; pending :=
     pending st; nextHandle := nextHandle st; log := log st |}.

Definition set_inputAnalyserRef (v : option Handle) (st : State) : State :=
  {| connectionState := connectionState st; detectedLanguage :=
     detectedLanguage st; messages := messages st; inputContextRef :=
     inputContextRef st; outputContextRef := outputContextRef st;
     inputAnalyserRef := v; outputAnalyserRef := outputAnalyserRef st;
     processorRef := processorRef st; sourceRef := sourceRef st; streamRef
     := streamRef st; sessionPromiseRef := sessionPromiseRef st;
     nextStartTimeRef := nextStartTimeRef st; scheduledSourcesRef :=
     scheduledSourcesRef st; currentInputTransRef := currentInputTransRef
     st; currentOutputTransRef := currentOutputTransRef st; pending :=
     pending st; nextHandle := nextHandle st; log := log st |}.

Definition set_outputAnalyserRef (v : option Handle) (st : State) : State :=
  {| connectionState := connectionState st; detectedLanguage :=
     detectedLanguage st; messages := messages st; inputContextRef :=
     inputContextRef st; outputContextRef := outputContextRef st;
     inputAnalyserRef := inputAnalyserRef st; outputAnalyserRef := v;
     processorRef := processorRef st; sourceRef := sourceRef st; streamRef
     := streamRef st; sessionPromiseRef := sessionPromiseRef st;
     nextStartTimeRef := nextStartTimeRef st; scheduledSourcesRef :=
     scheduledSourcesRef st; currentInputTransRef := currentInputTransRef
     st; currentOutputTransRef := currentOutputTransRef st; pending :=
     pending st; nextHandle := nextHandle st; log := log st |}.

Definition set_processorRef (v : option Handle) (st : State) : State :=
  {| connectionState := connectionState st; detectedLanguage :=
     detectedLanguage st; messages := messages st; inputContextRef :=
     inputContextRef st; outputContextRef := outputContextRef st;
     inputAnalyserRef := inputAnalyserRef st; outputAnalyserRef :=
     outputAnalyserRef st; processorRef := v; sourceRef := sourceRef st;
     streamRef := streamRef st; sessionPromiseRef := sessionPromiseRef st;
     nextStartTimeRef := nextStartTimeRef st; scheduledSourcesRef :=
     scheduledSourcesRef st; currentInputTransRef := currentInputTransRef
     st; currentOutputTransRef := currentOutputTransRef st; pending :=
     pending st; nextHandle := nextHandle st; log := log st |}.

Definition set_sourceRef (v : option Handle) (st : State) : State :=
  {| connectionState := connectionState st; detectedLanguage :=
     detectedLanguage st; messages := messages st; inputContextRef :=
     inputContextRef st; outputContextRef := outputContextRef st;
     inputAnalyserRef := inputAnalyserRef st; outputAnalyserRef :=
     outputAnalyserRef st; processorRef := processorRef st; sourceRef := v;
     streamRef := streamRef st; sessionPromiseRef := sessionPromiseRef st;
     nextStartTimeRef := nextStartTimeRef st; scheduledSourcesRef :=
     scheduledSourcesRef st; currentInputTransRef := currentInputTransRef
     st; currentOutputTransRef := currentOutputTransRef st; pending :=
     pending st; nextHandle := nextHandle st; log := log st |}.

Definition set_streamRef (v : option Handle) (st : State) : State :=
  {| connectionState := connectionState st; detectedLanguage :=
     detectedLanguage st; messages := messages st; inputContextRef :=
     inputContextRef st; outputContextRef := outputContextRef st;
     inputAnalyserRef := inputAnalyserRef st; outputAnalyserRef :=
     outputAnalyserRef st; processorRef := processorRef st; sourceRef :=
     sourceRef st; streamRef := v; sessionPromiseRef := sessionPromiseRef
     st; nextStartTimeRef := nextStartTimeRef st; scheduledSourcesRef :=
     scheduledSourcesRef st; currentInputTransRef := currentInputTransRef
     st; currentOutputTransRef := currentOutputTransRef st; pending :=
     pending st; nextHandle := nextHandle st; log := log st |}.

Definition set_sessionPromiseRef (v : option Handle) (st : State) : State :=
  {| connectionState := connectionState st; detectedLanguage :=
     detectedLanguage st; messages := messages st; inputContextRef :=
     inputContextRef st; outputContextRef := outputContextRef st;
     inputAnalyserRef := inputAnalyserRef st; outputAnalyserRef :=
     outputAnalyserRef st; processorRef := processorRef st; sourceRef :=
     sourceRef st; streamRef := streamRef st; sessionPromiseRef := v;
     nextStartTimeRef := nextStartTimeRef st; scheduledSourcesRef :=
     scheduledSourcesRef st; currentInputTransRef := currentInputTransRef
     st; currentOutputTransRef := currentOutputTransRef st; pending :=
     pending st; nextHandle := nextHandle st; log := log st |}.

Definition set_nextStartTimeRef (v : Q) (st : State) : State :=
  {| connectionState := connectionState st; detectedLanguage :=
     detectedLanguage st; messages := messages st; inputContextRef :=
     inputContextRef st; outputContextRef := outputContextRef st;
     inputAnalyserRef := inputAnalyserRef st; outputAnalyserRef :=
     outputAnalyserRef st; processorRef := processorRef st; sourceRef :=
     sourceRef st; streamRef := streamRef st; sessionPromiseRef :=
     sessionPromiseRef st; nextStartTimeRef := v; scheduledSourcesRef :=
     scheduledSourcesRef st; currentInputTransRef := currentInputTransRef
     st; currentOutputTransRef := currentOutputTransRef st; pending :=
     pending st; nextHandle := nextHandle st; log := log st |}.

Definition set_scheduledSourcesRef (v : list Handle) (st : State) : State :=
  {| connectionState := connectionState st; detectedLanguage :=
     detectedLanguage st; messages := messages st; inputContextRef :=
     inputContextRef st; outputContextRef := outputContextRef st;
     inputAnalyserRef := inputAnalyserRef st; outputAnalyserRef :=
     outputAnalyserRef st; processorRef := processorRef st; sourceRef :=
     sourceRef st; streamRef := streamRef st; sessionPromiseRef :=
     sessionPromiseRef st; nextStartTimeRef := nextStartTimeRef st;
     scheduledSourcesRef := v; currentInputTransRef := currentInputTransRef
     st; currentOutputTransRef := currentOutputTransRef st; pending :=
     pending st; nextHandle := nextHandle st; log := log st |}.

Definition set_currentInputTransRef (v : JsString) (st : State) : State :=
  {| connectionState := connectionState st; detectedLanguage :=
     detectedLanguage st; messages := messages st; inputContextRef :=
     inputContextRef st; outputContextRef := outputContextRef st;
     inputAnalyserRef := inputAnalyserRef st; outputAnalyserRef :=
     outputAnalyserRef st; processorRef := processorRef st; sourceRef :=
     sourceRef st; streamRef := streamRef st; sessionPromiseRef :=
     sessionPromiseRef st; nextStartTimeRef := nextStartTimeRef st;
     scheduledSourcesRef := scheduledSourcesRef st; currentInputTransRef :=
     v; currentOutputTransRef := currentOutputTransRef st; pending :=
     pending st; nextHandle := nextHandle st; log := log st |}.

Definition set_currentOutputTransRef (v : JsString) (st : State) : State :=
  {| connectionState := connectionState st; detectedLanguage :=
     detectedLanguage st; messages := messages st; inputContextRef :=
     inputContextRef st; outputContextRef := outputContextRef st;
     inputAnalyserRef := inputAnalyserRef st; outputAnalyserRef :=
     outputAnalyserRef st; processorRef := processorRef st; sourceRef :=
     sourceRef st; streamRef := streamRef st; sessionPromiseRef :=
     sessionPromiseRef st; nextStartTimeRef := nextStartTimeRef st;
     scheduledSourcesRef := scheduledSourcesRef st; currentInputTransRef :=
     currentInputTransRef st; currentOutputTransRef := v; pending := pending
     st; nextHandle := nextHandle st; log := log st |}.

Definition set_pending (v : list Task) (st : State) : State :=
  {| connectionState := connectionState st; detectedLanguage :=
     detectedLanguage st; messages := messages st; inputContextRef :=
     inputContextRef st; outputContextRef := outputContextRef st;
     inputAnalyserRef := inputAnalyserRef st; outputAnalyserRef :=
     outputAnalyserRef st; processorRef := processorRef st; sourceRef :=
     sourceRef st; streamRef := streamRef st; sessionPromiseRef :=
     sessionPromiseRef st; nextStartTimeRef := nextStartTimeRef st;
     scheduledSourcesRef := scheduledSourcesRef st; currentInputTransRef :=
     currentInputTransRef st; currentOutputTransRef := currentOutputTransRef
     st; pending := v; nextHandle := nextHandle st; log := log st |}.

Definition set_nextHandle (v : Handle) (st : State) : State :=
  {| connectionState := connectionState st; detectedLanguage :=
     detectedLanguage st; messages := messages st; inputContextRef :=
     inputContextRef st; outputContextRef := outputContextRef st;
     inputAnalyserRef := inputAnalyserRef st; outputAnalyserRef :=
     outputAnalyserRef st; processorRef := processorRef st; sourceRef :=
     sourceRef st; streamRef := streamRef st; sessionPromiseRef :=
     sessionPromiseRef st; nextStartTimeRef := nextStartTimeRef st;
     scheduledSourcesRef := scheduledSourcesRef st; currentInputTransRef :=
     currentInputTransRef st; currentOutputTransRef := currentOutputTransRef
     st; pending := pending st; nextHandle := v; log := log st |}.

Definition set_log (v : list Effect) (st : State) : State :=
  {| connectionState := connectionState st; detectedLanguage :=
     detectedLanguage st; messages := messages st; inputContextRef :=
     inputContextRef st; outputContextRef := outputContextRef st;
     inputAnalyserRef := inputAnalyserRef st; outputAnalyserRef :=
     outputAnalyserRef st; processorRef := processorRef st; sourceRef :=
     sourceRef st; streamRef := streamRef st; sessionPromiseRef :=
     sessionPromiseRef st; nextStartTimeRef := nextStartTimeRef st;
     scheduledSourcesRef := scheduledSourcesRef st; currentInputTransRef :=
     currentInputTransRef st; currentOutputTransRef := currentOutputTransRef
     st; pending := pending st; nextHandle := nextHandle st; log := v |}.
(** The state of a hook that has just been mounted. *)
Definition initialState : State :=
  {| connectionState := DISCONNECTED;
     detectedLanguage := lit "Waiting for speech...";
     messages := [];
     inputContextRef := None; outputContextRef := None;
     inputAnalyserRef := None; outputAnalyserRef := None;
     processorRef := None; sourceRef := None; streamRef := None;
     sessionPromiseRef := None;
     nextStartTimeRef := 0;
     scheduledSourcesRef := [];
     currentInputTransRef := []; currentOutputTransRef := [];
     pending := []; nextHandle := O; log := [] |}.

(* ------------------------------------------------------------------ *)
(** ** Code of the hook as a computation

    A computation reads and updates the state, makes calls (its effects,
    in order) and either returns or throws.  What it did before it threw
    stays done. *)

Inductive Result (A : Type) := Ok (a : A) | Thrown.
Arguments Thrown {A}.

Definition M (A : Type) := State -> Result A * State * list Effect.

Definition ret {A} (a : A) : M A := fun st => (Ok a, st, []).

Definition bind {A B} (m : M A) (f : A -> M B) : M B :=
  fun st =>
    match m st with
    | (Ok a, st1, out1) =>
        match f a st1 with (r, st2, out2) => (r, st2, out1 ++ out2) end
    | (Thrown, st1, out1) => (Thrown, st1, out1)
    end.

Declare Scope hook_scope.
Delimit Scope hook_scope with hook.
Notation "x <- c1 ;; c2" := (bind c1 (fun x => c2))
  (at level 61, c1 at next level, right associativity) : hook_scope.
Notation "c1 ;; c2" := (bind c1 (fun _ => c2))
  (at level 61, right associativity) : hook_scope.
Local Open Scope hook_scope.

Definition throw {A} : M A := fun st => (Thrown, st, []).

(** [try { body } catch { handler }]. *)
Definition tryCatch (body handler : M unit) : M unit :=
  fun st =>
    match body st with
    | (Ok a, st1, out1) => (Ok a, st1, out1)
    | (Thrown, st1, out1) =>
        match handler st1 with (r, st2, out2) => (r, st2, out1 ++ out2) end
    end.

Definition read {A} (f : State -> A) : M A := fun st => (Ok (f st), st, []).
Definition update (g : State -> State) : M unit := fun st => (Ok tt, g st, []).
Definition emit (e : Effect) : M unit := fun st => (Ok tt, st, [e]).

(** A new object of the platform. *)
Definition fresh : M Handle :=
  fun st => (Ok (nextHandle st), set_nextHandle (S (nextHandle st)) st, []).

(** [o.member] on a reference that may be [null]: a TypeError if it is. *)
Definition deref {A} (o : option A) : M A :=
  match o with Some a => ret a | None => throw end.

(** [if (o) { f(o) }]. *)
Definition whenSome {A} (o : option A) (f : A -> M unit) : M unit :=
  match o with Some a => f a | None => ret tt end.

Fixpoint forEach {A} (l : list A) (f : A -> M unit) : M unit :=
  match l with
  | [] => ret tt
  | a :: l' => f a ;; forEach l' f
  end.

(** Code that waits: [await] of a promise, or a callback given to [.then]. *)
Definition suspend (t : Task) : M unit :=
  update (fun st => set_pending (pending st ++ [t]) st).

Definition setConnectionState (v : ConnectionState) : M unit :=
  update (set_connectionState v) ;; emit (SetConnectionState v).

Definition setDetectedLanguage (v : JsString) : M unit :=
  update (set_detectedLanguage v) ;; emit (SetDetectedLanguage v).

(** [setMessages(prev => [...prev, ...appended])]. *)
Definition setMessages (appended : list ChatMessage) : M unit :=
  update (fun st => set_messages (messages st ++ appended) st) ;;
  emit (SetMessages appended).

(** [Set.prototype.add] and [Set.prototype.delete] on a set kept in
    insertion order. *)
Definition setAdd (x : Handle) (s : list Handle) : list Handle :=
  if in_dec Nat.eq_dec x s then s else s ++ [x].

Definition setDelete (x : Handle) (s : list Handle) : list Handle :=
  remove Nat.eq_dec x s.

(** Runs a computation as one step: the state it leaves, its calls
    appended to the log. *)
Definition exec (m : M unit) (st : State) : State :=
  match m st with (_, st', out) => set_log (log st' ++ out) st' end.

(** The calls a computation makes from a state. *)
Definition effectsOf (m : M unit) (st : State) : list Effect := snd (m st).

(* ------------------------------------------------------------------ *)
(** ** [useLiveTranslator] *)

(** Where the synchronous part of [connect] can be made to throw by the
    platform. *)
Inductive ThrowPoint :=
| AtNewGoogleGenAI | AtNewInputContext | AtNewOutputContext | AtGetUserMedia.

Definition ThrowPoint_eq_dec : forall a b : ThrowPoint, {a = b} + {a <> b}.
Proof. decide equality. Defined.

Definition mayThrow (throwAt : option ThrowPoint) (here : ThrowPoint) : M unit :=
  match throwAt with
  | Some p => if ThrowPoint_eq_dec p here then throw else ret tt
  | None => ret tt
  end.

(** The four readings of [Date.now()] taken when a turn is appended. *)
Record DateReadings := { userId : Z; userStamp : Z; modelId : Z; modelStamp : Z }.

(** [o?.f]. *)
Definition chain {A B} (o : option A) (f : A -> option B) : option B :=
  match o with Some a => f a | None => None end.

Section Hook.

Context {utils : AudioUtils}.

(** *** [disconnect], lines 35-77 *)

(** Lines 48-76: the release of the capture and playback resources. *)
Definition disconnect_release : M unit :=
  stream <- read streamRef ;;
  whenSome stream (fun s =>
    emit (TracksStop s) ;; update (set_streamRef None)) ;;
  processor <- read processorRef ;;
  whenSome processor (fun p =>
    emit (Disconnect p) ;; update (set_processorRef None)) ;;
  source <- read sourceRef ;;
  whenSome source (fun s =>
    emit (Disconnect s) ;; update (set_sourceRef None)) ;;
  inputContext <- read inputContextRef ;;
  whenSome inputContext (fun c =>
    emit (ContextClose c) ;; update (set_inputContextRef None)) ;;
  scheduled <- read scheduledSourcesRef ;;
  forEach scheduled (fun s => emit (SourceStop s)) ;;
  update (set_scheduledSourcesRef []) ;;
  outputContext <- read outputContextRef ;;
  whenSome outputContext (fun c =>
    emit (ContextClose c) ;; update (set_outputContextRef None)) ;;
  setDetectedLanguage (lit "Waiting for speech...").

(** Lines 36-40: up to [await sessionPromiseRef.current]; with no session
    promise nothing is awaited and the release follows at once. *)
Definition disconnect : M unit :=
  setConnectionState DISCONNECTED ;;
  promise <- read sessionPromiseRef ;;
  match promise with
  | Some p => suspend (DisconnectAwaitSession p)
  | None => disconnect_release
  end.

(** Lines 40-76, once the awaited promise has settled: [session.close()]
    if it was fulfilled, the [catch] branch if it was rejected. *)
Definition disconnect_resume (p : Handle) (fulfilled : bool) : M unit :=
  (if fulfilled then emit (SessionClose p)
   else emit (ConsoleError (lit "Error closing session"))) ;;
  update (set_sessionPromiseRef None) ;;
  disconnect_release.

(** *** [connect], lines 79-283 *)

(** Lines 279-282. *)
Definition connect_catch : M unit :=
  emit (ConsoleError (lit "Connection failed:")) ;;
  setConnectionState ERROR.

(** Lines 80-106: up to [await getUserMedia]. *)
Definition connect (props : UseLiveTranslatorProps)
    (throwAt : option ThrowPoint) : M unit :=
  if negb (truthy (apiKey props)) then
    emit (Alert (lit "Please provide a valid API Key."))
  else
    setConnectionState CONNECTING ;;
    tryCatch
      (mayThrow throwAt AtNewGoogleGenAI ;;
       emit (NewGoogleGenAI (apiKey props)) ;;
       mayThrow throwAt AtNewInputContext ;;
       ictx <- fresh ;;
       emit (NewAudioContext ictx AUDIO_INPUT_SAMPLE_RATE) ;;
       update (set_inputContextRef (Some ictx)) ;;
       mayThrow throwAt AtNewOutputContext ;;
       octx <- fresh ;;
       emit (NewAudioContext octx AUDIO_OUTPUT_SAMPLE_RATE) ;;
       update (set_outputContextRef (Some octx)) ;;
       c <- read inputContextRef ;; c <- deref c ;;
       ia <- fresh ;;
       emit (CreateAnalyser c ia) ;;
       update (set_inputAnalyserRef (Some ia)) ;;
       c <- read outputContextRef ;; c <- deref c ;;
       oa <- fresh ;;
       emit (CreateAnalyser c oa) ;;
       update (set_outputAnalyserRef (Some oa)) ;;
       a <- read inputAnalyserRef ;; a <- deref a ;;
       emit (SetFftSize a 256) ;;
       a <- read outputAnalyserRef ;; a <- deref a ;;
       emit (SetFftSize a 256) ;;
       mayThrow throwAt AtGetUserMedia ;;
       emit GetUserMedia ;;
       suspend (ConnectAwaitUserMedia props))
      connect_catch.

(** Lines 106-148, once [getUserMedia] has settled; a rejection is thrown
    at the [await], inside the [try]. *)
Definition connect_resume (props : UseLiveTranslatorProps)
    (fulfilled : bool) : M unit :=
  tryCatch
    ((if fulfilled then ret tt else throw) ;;
     stream <- fresh ;;
     update (set_streamRef (Some stream)) ;;
     c <- read inputContextRef ;; c <- deref c ;;
     s <- read streamRef ;; s <- deref s ;;
     source <- fresh ;;
     emit (CreateMediaStreamSource c s source) ;;
     update (set_sourceRef (Some source)) ;;
     c <- read inputContextRef ;; c <- deref c ;;
     processor <- fresh ;;
     emit (CreateScriptProcessor c processor 4096 1 1) ;;
     update (set_processorRef (Some processor)) ;;
     s <- read sourceRef ;; s <- deref s ;;
     a <- read inputAnalyserRef ;; a <- deref a ;;
     emit (Connect s (Node a)) ;;
     a <- read inputAnalyserRef ;; a <- deref a ;;
     p <- read processorRef ;; p <- deref p ;;
     emit (Connect a (Node p)) ;;
     p <- read processorRef ;; p <- deref p ;;
     c <- read inputContextRef ;; c <- deref c ;;
     emit (Connect p (Destination c)) ;;
     promise <- fresh ;;
     emit (LiveConnect promise GEMINI_MODEL (targetLanguage props)) ;;
     update (set_sessionPromiseRef (Some promise)))
    connect_catch.

(** *** The session callbacks, lines 157-276 *)

(** Lines 158-175.  [currentTime] is what the output context's clock
    shows, if there is an output context. *)
Definition onopen (currentTime : Q) : M unit :=
  setConnectionState CONNECTED ;;
  outputContext <- read outputContextRef ;;
  update (set_nextStartTimeRef
            (match outputContext with
             | Some _ => orElse currentTime 0
             | None => 0
             end)) ;;
  processor <- read processorRef ;;
  whenSome processor (fun p => emit (SetOnAudioProcess p)).

(** Lines 164-173: the [onaudioprocess] handler installed by [onopen]. *)
Definition onaudioprocess (inputBuffer : list Float32Array) : M unit :=
  inputData <- deref (nth_error inputBuffer 0) ;;
  let pcmBlob := createPcmBlob inputData AUDIO_INPUT_SAMPLE_RATE in
  promise <- read sessionPromiseRef ;;
  whenSome promise (fun p => suspend (ThenSendRealtimeInput p pcmBlob)).

(** Lines 178-195. *)
Definition handleToolCalls (message : LiveServerMessage) : M unit :=
  whenSome (toolCall message) (fun tc =>
    forEach (functionCalls tc) (fun fc =>
      match fc_name fc with
      | Some name =>
          if strictEq name (lit "report_language") then
            setDetectedLanguage (fc_args_language fc) ;;
            promise <- read sessionPromiseRef ;;
            whenSome promise (fun p =>
              suspend (ThenSendToolResponse p (fc_id fc) (fc_name fc)))
          else ret tt
      | None => ret tt
      end)).

(** [message.serverContent?.inputTranscription?.text] and its twin. *)
Definition inputTxt (message : LiveServerMessage) : option JsString :=
  chain (chain (serverContent message) inputTranscription) transcription_text.

Definition outputTxt (message : LiveServerMessage) : option JsString :=
  chain (chain (serverContent message) outputTranscription) transcription_text.

(** [message.serverContent?.turnComplete], as a condition. *)
Definition isTurnComplete (message : LiveServerMessage) : bool :=
  match chain (serverContent message) turnComplete with
  | Some b => b
  | None => false
  end.

(** [message.serverContent?.modelTurn?.parts?.[0]?.inlineData?.data]. *)
Definition base64Audio (message : LiveServerMessage) : option JsString :=
  chain (chain (chain (chain (chain (serverContent message) modelTurn) parts)
                  (fun ps => nth_error ps 0)) inlineData) data.

(** Lines 197-231. *)
Definition handleTranscriptions (message : LiveServerMessage)
    (dates : DateReadings) : M unit :=
  (match inputTxt message with
   | Some t =>
       if truthy t then
         update (fun st =>
           set_currentInputTransRef (currentInputTransRef st ++ t) st)
       else ret tt
   | None => ret tt
   end) ;;
  (match outputTxt message with
   | Some t =>
       if truthy t then
         update (fun st =>
           set_currentOutputTransRef (currentOutputTransRef st ++ t) st)
       else ret tt
   | None => ret tt
   end) ;;
  if isTurnComplete message then
    currentInput <- read currentInputTransRef ;;
    currentOutput <- read currentOutputTransRef ;;
    let userText := trim currentInput in
    let modelText := trim currentOutput in
    (if truthy userText || truthy modelText then
       setMessages
         [ {| id := toString (userId dates); text := userText;
              sender := user; timestamp := userStamp dates;
              language := None; isTranslating := None |};
           {| id := toString (modelId dates + 1); text := modelText;
              sender := model; timestamp := modelStamp dates;
              language := None; isTranslating := None |} ]
     else ret tt) ;;
    update (set_currentInputTransRef []) ;;
    update (set_currentOutputTransRef [])
  else ret tt.

(** Lines 233-238: up to [await decodeAudioData]. *)
Definition handleAudioOutput (message : LiveServerMessage) : M unit :=
  outputContext <- read outputContextRef ;;
  match base64Audio message, outputContext with
  | Some b64, Some ctx =>
      if truthy b64 then
        audioData <- deref (base64ToUint8Array b64) ;;
        suspend (MessageAwaitDecode ctx
                   (decodeAudioData audioData ctx AUDIO_OUTPUT_SAMPLE_RATE))
      else ret tt
  | _, _ => ret tt
  end.

(** Lines 176-238: the handler, up to its [await]. *)
Definition onmessage (message : LiveServerMessage)
    (dates : DateReadings) : M unit :=
  handleToolCalls message ;;
  handleTranscriptions message dates ;;
  handleAudioOutput message.

(** Lines 238-265, once the decoding promise has settled; [currentTime] is
    [ctx.currentTime] as read at line 253.  The literal [0.05] is the
    double nearest to 1/20, and both sums are sums of doubles. *)
Definition onmessage_resume (ctx : Handle) (decoded : option AudioBuffer)
    (currentTime : Q) : M unit :=
  audioBuffer <- deref decoded ;;
  source <- fresh ;;
  emit (CreateBufferSource ctx source) ;;
  emit (SetBuffer source audioBuffer) ;;
  analyser <- read outputAnalyserRef ;;
  (match analyser with
   | Some a =>
       emit (Connect source (Node a)) ;; emit (Connect a (Destination ctx))
   | None => emit (Connect source (Destination ctx))
   end) ;;
  let now := currentTime in
  nextStartTime <- read nextStartTimeRef ;;
  (if ltb nextStartTime now then
     update (set_nextStartTimeRef (plus64 now (binary64 (1 # 20))))
   else ret tt) ;;
  nextStartTime <- read nextStartTimeRef ;;
  emit (SourceStart source nextStartTime) ;;
  update (fun st =>
    set_nextStartTimeRef
      (plus64 (nextStartTimeRef st) (duration audioBuffer)) st) ;;
  update (fun st =>
    set_scheduledSourcesRef (setAdd source (scheduledSourcesRef st)) st) ;;
  emit (SetOnEnded source).

(** Lines 263-265: the [onended] handler of a scheduled source. *)
Definition onended (source : Handle) : M unit :=
  update (fun st =>
    set_scheduledSourcesRef (setDelete source (scheduledSourcesRef st)) st).

(** Lines 268-270. *)
Definition onclose : M unit := setConnectionState DISCONNECTED.

(** Lines 271-275. *)
Definition onerror : M unit :=
  emit (ConsoleError (lit "Session error:")) ;;
  setConnectionState ERROR ;;
  disconnect.

(** *** The hook under its environment *)

(** What happens to a mounted hook: the user interface calls [connect]
    or [disconnect] (the unmount cleanup calls [disconnect] as well); a
    promise some code waits for settles; the session calls one of the
    callbacks; a script processor delivers a block; a source ends.

    The environment is not constrained: events come in any order, a
    session callback may come when no session is open, and tasks that
    wait for the same promise are settled one by one.  Every run the
    platform can produce is a run of the model. *)
Inductive Event :=
| CallConnect (props : UseLiveTranslatorProps) (throwAt : option ThrowPoint)
| CallDisconnect
| Settle (i : nat) (fulfilled : bool) (currentTime : Q)
| OnOpen (currentTime : Q)
| OnMessage (message : LiveServerMessage) (dates : DateReadings)
| OnClose
| OnError
| OnAudioProcess (node : Handle) (inputBuffer : list Float32Array)
| OnEnded (node : Handle).

(** The code a settled promise lets run.  The outcome of a decoding is
    the helper's, whatever the event says. *)
Definition resume (t : Task) (fulfilled : bool) (currentTime : Q) : M unit :=
  match t with
  | ConnectAwaitUserMedia props => connect_resume props fulfilled
  | DisconnectAwaitSession p => disconnect_resume p fulfilled
  | ThenSendRealtimeInput p media =>
      if fulfilled then emit (SendRealtimeInput p media) else ret tt
  | ThenSendToolResponse p fid fname =>
      if fulfilled then emit (SendToolResponse p fid fname) else ret tt
  | MessageAwaitDecode ctx decoded => onmessage_resume ctx decoded currentTime
  end.

(** The list without its [i]-th element. *)
Definition removeNth {A} (i : nat) (l : list A) : list A :=
  firstn i l ++ skipn (S i) l.

(** Whether the assignment [e] of an event handler to a node has been
    made. *)
Definition hasHandler (e : Effect) (l : list Effect) : bool :=
  existsb (fun x =>
    match e, x with
    | SetOnAudioProcess a, SetOnAudioProcess b => Nat.eqb a b
    | SetOnEnded a, SetOnEnded b => Nat.eqb a b
    | _, _ => false
    end) l.

(** The code an event runs.  An event handler runs only on a node it was
    installed on; a settlement runs the [i]-th suspended task, if any. *)
Definition handle (e : Event) : M unit :=
  match e with
  | CallConnect props throwAt => connect props throwAt
  | CallDisconnect => disconnect
  | Settle i fulfilled currentTime =>
      tasks <- read pending ;;
      whenSome (nth_error tasks i) (fun t =>
        update (set_pending (removeNth i tasks)) ;;
        resume t fulfilled currentTime)
  | OnOpen currentTime => onopen currentTime
  | OnMessage message dates => onmessage message dates
  | OnClose => onclose
  | OnError => onerror
  | OnAudioProcess node inputBuffer =>
      installed <- read (fun st => hasHandler (SetOnAudioProcess node) (log st)) ;;
      if installed then onaudioprocess inputBuffer else ret tt
  | OnEnded node =>
      installed <- read (fun st => hasHandler (SetOnEnded node) (log st)) ;;
      if installed then onended node else ret tt
  end.

Definition step (e : Event) (st : State) : State := exec (handle e) st.

(** The calls made in a step. *)
Definition emitted (e : Event) (st : State) : list Effect :=
  effectsOf (handle e) st.

Definition run (es : list Event) (st : State) : State :=
  fold_left (fun s e => step e s) es st.

Inductive reachable : State -> Prop :=
| reachable_initial : reachable initialState
| reachable_step e st : reachable st -> reachable (step e st).

End Hook.

(* ------------------------------------------------------------------ *)
(** ** [Visualizer] and the two instances [App] mounts *)

(** Calls on the 2D context of a canvas. *)
Inductive CanvasCall :=
| ClearRect (x y w h : Q)
| SetLineWidth (w : Q)
| SetStrokeStyle (color : JsString)
| BeginPath
| MoveTo (x y : Q)
| LineTo (x y : Q)
| Stroke.

(** [analyser.getByteTimeDomainData(dataArray)] on a zeroed array of
    [bufferLength] bytes, when the analyser holds [reading]. *)
Definition getByteTimeDomainData (bufferLength : nat) (reading : list N)
    : list N :=
  firstn bufferLength (reading ++ repeat 0%N bufferLength).

(** Lines 35-46 of [Visualizer.tsx]: the loop over the samples, from
    index [i] and abscissa [x] on. *)
Fixpoint drawLoop (dataArray : list N) (i : nat) (x sliceWidth height : Q)
    : list CanvasCall :=
  match dataArray with
  | [] => []
  | d :: rest =>
      let v := inject_Z (Z.of_N d) / 128 in
      let y := v * height / 2 in
      (if Nat.eqb i 0 then MoveTo x y else LineTo x y)
        :: drawLoop rest (S i) (x + sliceWidth) sliceWidth height
  end.

(** Lines 23-50: one animation frame. *)
Definition draw (bufferLength : nat) (reading : list N) (color : JsString)
    (width height : Q) : list CanvasCall :=
  let dataArray := getByteTimeDomainData bufferLength reading in
  [ClearRect 0 0 width height; SetLineWidth 2; SetStrokeStyle color; BeginPath]
  ++ drawLoop dataArray 0 0 (width * 1 / inject_Z (Z.of_nat bufferLength)) height
  ++ [LineTo width (height / 2); Stroke].

(** [fftSize] of an analyser: the last value assigned, 2048 by default. *)
Definition fftSizeOf (a : Handle) (l : list Effect) : Z :=
  fold_left (fun acc e =>
    match e with
    | SetFftSize b n => if Nat.eqb a b then n else acc
    | _ => acc
    end) l 2048%Z.

Definition frequencyBinCount (a : Handle) (l : list Effect) : nat :=
  Z.to_nat (fftSizeOf a l / 2).

Inductive Side := InputSide | OutputSide.

Definition Side_eq_dec : forall a b : Side, {a = b} + {a <> b}.
Proof. decide equality. Defined.

(** The application: the hook and the canvases of its two visualizers. *)
Record App := {
  hook : State;
  inputCanvas : list CanvasCall;
  outputCanvas : list CanvasCall
}.

Definition canvasOf (side : Side) (app : App) : list CanvasCall :=
  match side with
  | InputSide => inputCanvas app
  | OutputSide => outputCanvas app
  end.

Definition withCanvas (side : Side) (l : list CanvasCall) (app : App) : App :=
  match side with
  | InputSide =>
      {| hook := hook app; inputCanvas := l; outputCanvas := outputCanvas app |}
  | OutputSide =>
      {| hook := hook app; inputCanvas := inputCanvas app; outputCanvas := l |}
  end.

(** The code of a visualizer runs in the application the hook runs in:
    it is a computation on the whole of it. *)
Definition Render (A : Type) : Type := App -> A * App.

Definition rret {A} (a : A) : Render A := fun app => (a, app).

Definition rbind {A B} (m : Render A) (k : A -> Render B) : Render B :=
  fun app => let (a, app') := m app in k a app'.

Definition getApp : Render App := fun app => (app, app).

Definition putApp (app : App) : Render unit := fun _ => (tt, app).

Declare Scope render_scope.
Delimit Scope render_scope with render.
Notation "x <- c1 ;; c2" := (rbind c1 (fun x => c2))
  (at level 61, c1 at next level, right associativity) : render_scope.
Notation "c1 ;; c2" := (rbind c1 (fun _ => c2))
  (at level 61, right associativity) : render_scope.

Section AppModel.

Context {utils : AudioUtils}.

Local Open Scope render_scope.

(** What happens to the application: an event of the hook, or an
    animation frame of a visualizer, at which its analyser holds
    [reading]. *)
Inductive AppEvent :=
| HookEvent (e : Event)
| AnimationFrame (side : Side) (reading : list N).

(** The [analyser] and [color] props [App] gives to a visualizer. *)
Definition analyserProp (side : Side) (st : State) : option Handle :=
  match side with
  | InputSide => inputAnalyserRef st
  | OutputSide => outputAnalyserRef st
  end.

Definition colorProp (side : Side) : JsString :=
  match side with
  | InputSide => lit "#818cf8"
  | OutputSide => lit "#34d399"
  end.

(** [isActive={connectionState === ConnectionState.CONNECTED}]. *)
Definition isActive (st : State) : bool :=
  if ConnectionState_eq_dec (connectionState st) CONNECTED then true else false.

(** A frame draws when the visualizer has an analyser and is active
    (line 13); the canvas is 300 by 60. *)
Definition frame (side : Side) (reading : list N) (st : State)
    : list CanvasCall :=
  match analyserProp side st with
  | Some a =>
      if isActive st then
        draw (frequencyBinCount a (log st)) reading (colorProp side) 300 60
      else []
  | None => []
  end.

(** What [App] hands down from the hook. *)
Definition fromHook {A} (f : State -> A) : Render A :=
  app <- getApp ;; rret (f (hook app)).

(** A call on the 2D context of the canvas of a visualizer. *)
Definition onCanvas (side : Side) (c : CanvasCall) : Render unit :=
  app <- getApp ;; putApp (withCanvas side (canvasOf side app ++ [c]) app).

(** Lines 35-46 run in the application: the loop of [drawLoop], each of
    its calls made on the canvas. *)
Fixpoint drawLoopOn (side : Side) (dataArray : list N) (i : nat)
    (x sliceWidth height : Q) : Render unit :=
  match dataArray with
  | [] => rret tt
  | d :: rest =>
      let v := inject_Z (Z.of_N d) / 128 in
      let y := v * height / 2 in
      onCanvas side (if Nat.eqb i 0 then MoveTo x y else LineTo x y) ;;
      drawLoopOn side rest (S i) (x + sliceWidth) sliceWidth height
  end.

(** Lines 19-50 run in the application, for the visualizer of [side]
    with analyser [analyser] holding [reading]: the samples are read
    into [dataArray], an array of the visualizer's own, and drawn. *)
Definition drawOn (side : Side) (analyser : Handle) (reading : list N)
    : Render unit :=
  bufferLength <- fromHook (fun st => frequencyBinCount analyser (log st)) ;;
  let dataArray := getByteTimeDomainData bufferLength reading in
  let width : Q := 300 in
  let height : Q := 60 in
  onCanvas side (ClearRect 0 0 width height) ;;
  onCanvas side (SetLineWidth 2) ;;
  onCanvas side (SetStrokeStyle (colorProp side)) ;;
  onCanvas side BeginPath ;;
  let sliceWidth := width * 1 / inject_Z (Z.of_nat bufferLength) in
  drawLoopOn side dataArray 0 0 sliceWidth height ;;
  onCanvas side (LineTo width (height / 2)) ;;
  onCanvas side Stroke.

(** An animation frame of the visualizer of [side]: line 13, then
    [draw]. *)
Definition animationFrame (side : Side) (reading : list N) : Render unit :=
  analyser <- fromHook (analyserProp side) ;;
  active <- fromHook isActive ;;
  match analyser with
  | Some a => if active then drawOn side a reading else rret tt
  | None => rret tt
  end.

Definition appStep (e : AppEvent) (app : App) : App :=
  match e with
  | HookEvent e =>
      {| hook := step e (hook app);
         inputCanvas := inputCanvas app;
         outputCanvas := outputCanvas app |}
  | AnimationFrame side reading => snd (animationFrame side reading app)
  end.

Definition appRun (es : list AppEvent) (app : App) : App :=
  fold_left (fun a e => appStep e a) es app.

Definition initialApp : App :=
  {| hook := initialState; inputCanvas := []; outputCanvas := [] |}.

(** Two events that are the same but for what the analyser holds. *)
Inductive sameButReading : AppEvent -> AppEvent -> Prop :=
| same_hook e : sameButReading (HookEvent e) (HookEvent e)
| same_frame side r1 r2 :
    sameButReading (AnimationFrame side r1) (AnimationFrame side r2).

(** A canvas call without its ordinate. *)
Definition withoutOrdinate (c : CanvasCall) : CanvasCall :=
  match c with
  | MoveTo x _ => MoveTo x 0
  | LineTo x _ => LineTo x 0
  | _ => c
  end.

(** The ordinate [draw] gives to a sample on a canvas of height
    [height]. *)
Definition ordinateOf (height : Q) (d : N) : Q :=
  inject_Z (Z.of_N d) / 128 * height / 2.

End AppModel.

(* ------------------------------------------------------------------ *)
(** ** What an observer of the hook sees *)

(** The chunks handed to the session. *)
Definition sentChunks (l : list Effect) : list (Handle * Blob) :=
  flat_map (fun e =>
    match e with SendRealtimeInput p b => [(p, b)] | _ => [] end) l.

(** The start times given to [source.start]. *)
Definition startTimes (l : list Effect) : list Q :=
  flat_map (fun e =>
    match e with SourceStart _ t => [t] | _ => [] end) l.

(** The sources started, each with its start time. *)
Definition playbackSchedule (l : list Effect) : list (Handle * Q) :=
  flat_map (fun e =>
    match e with SourceStart s t => [(s, t)] | _ => [] end) l.

(** The durations of the buffers given to sources. *)
Definition bufferDurations (l : list Effect) : list Q :=
  flat_map (fun e =>
    match e with SetBuffer _ b => [duration b] | _ => [] end) l.

(** The values given to [setConnectionState]. *)
Definition connectionWrites (l : list Effect) : list ConnectionState :=
  flat_map (fun e =>
    match e with SetConnectionState v => [v] | _ => [] end) l.

(** The script processors created, with their configuration. *)
Definition processorsCreated (l : list Effect) : list (Handle * (Z * Z * Z)) :=
  flat_map (fun e =>
    match e with
    | CreateScriptProcessor _ p size nIn nOut => [(p, (size, nIn, nOut))]
    | _ => []
    end) l.

(* ------------------------------------------------------------------ *)
(** ** An instance of the parameters, to run the model on inputs *)

Definition sampleUtils : AudioUtils :=
  {| AUDIO_INPUT_SAMPLE_RATE := 16000;
     AUDIO_OUTPUT_SAMPLE_RATE := 24000;
     GEMINI_MODEL := lit "live-model";
     createPcmBlob := fun samples _ =>
       {| data := Some (map (fun q => Z.to_N (Qfloor (q * 32767) mod 65536)) samples);
          mimeType := Some (lit "audio/pcm;rate=16000") |};
     base64ToUint8Array := fun s => Some s;
     decodeAudioData := fun bytes _ rate =>
       Some {| duration :=
                 binary64 (inject_Z (Z.of_nat (length bytes)) / (2 * rate)) |} |}.

Definition sampleProps : UseLiveTranslatorProps :=
  {| apiKey := lit "key"; targetLanguage := lit "Spanish" |}.

(** A server message carrying only the given fields. *)
Definition textMessage (input output : option JsString) (complete : bool)
    : LiveServerMessage :=
  {| toolCall := None;
     serverContent := Some
       {| inputTranscription := Some {| transcription_text := input |};
          outputTranscription := Some {| transcription_text := output |};
          turnComplete := Some complete;
          modelTurn := None |} |}.

Definition audioMessage (b64 : JsString) : LiveServerMessage :=
  {| toolCall := None;
     serverContent := Some
       {| inputTranscription := None;
          outputTranscription := None;
          turnComplete := None;
          modelTurn := Some
            {| parts := Some
                 [ {| inlineData := Some
                        {| data := Some b64;
                           mimeType := Some (lit "audio/pcm") |} |} ] |} |} |}.

Definition sampleDates : DateReadings :=
  {| userId := 1700000000000; userStamp := 1700000000000;
     modelId := 1700000000000; modelStamp := 1700000000001 |}.


(* ------------------------------------------------------------------ *)
(** ** Notions used to state the properties *)

(** The state a computation leaves. *)
Definition stateAfter {A} (m : M A) (st : State) : State := snd (fst (m st)).

(** [m] leaves the observation [f] of the state as it was. *)
Definition preserves {X A} (f : State -> X) (m : M A) : Prop :=
  forall st, f (stateAfter m st) = f st.

(** [g] does not change the observation [f]. *)
Definition untouchedBy {X} (f : State -> X) (g : State -> State) : Prop :=
  forall st, f (g st) = f st.

(** [m] makes only calls that satisfy [P]. *)
Definition emitsOnly {A} (P : Effect -> bool) (m : M A) : Prop :=
  forall st, forallb P (snd (m st)) = true.

(** The tasks a step leaves suspended, beyond those there were. *)
Definition registered {utils : AudioUtils} (e : Event) (st : State)
    : list Task :=
  skipn (length (pending st)) (pending (step e st)).

Definition optEffect {A} (o : option A) (f : A -> Effect) : list Effect :=
  match o with Some a => [f a] | None => [] end.

(** The calls by which [disconnect] releases what the state holds. *)
Definition releaseEffects (st : State) : list Effect :=
  optEffect (streamRef st) TracksStop
  ++ optEffect (processorRef st) Disconnect
  ++ optEffect (sourceRef st) Disconnect
  ++ optEffect (inputContextRef st) ContextClose
  ++ map SourceStop (scheduledSourcesRef st)
  ++ optEffect (outputContextRef st) ContextClose
  ++ [SetDetectedLanguage (lit "Waiting for speech...")].

(** The state once they are released. *)
Definition releasedState (st : State) : State :=
  set_detectedLanguage (lit "Waiting for speech...")
    (set_outputContextRef None (set_scheduledSourcesRef []
      (set_inputContextRef None (set_sourceRef None
        (set_processorRef None (set_streamRef None st)))))).

(** The capture and playback resources: the media stream, the processor
    and source nodes, both audio contexts, the scheduled sources. *)
Definition resources (st : State)
    : option Handle * option Handle * option Handle
      * option Handle * option Handle * list Handle :=
  (streamRef st, processorRef st, sourceRef st,
   inputContextRef st, outputContextRef st, scheduledSourcesRef st).

Definition noResources
    : option Handle * option Handle * option Handle
      * option Handle * option Handle * list Handle :=
  (None, None, None, None, None, []).

(** A transcription fragment, empty when the message has none. *)
Definition fragment (o : option JsString) : JsString :=
  match o with Some t => t | None => [] end.

(** The two chat messages of a turn. *)
Definition turnMessages (userText modelText : JsString) (dates : DateReadings)
    : list ChatMessage :=
  [ {| id := toString (userId dates); text := userText; sender := user;
       timestamp := userStamp dates; language := None; isTranslating := None |};
    {| id := toString (modelId dates + 1); text := modelText; sender := model;
       timestamp := modelStamp dates; language := None; isTranslating := None |} ].

Definition inputFragments (ms : list (LiveServerMessage * DateReadings))
    : JsString :=
  concat (map (fun md => fragment (inputTxt (fst md))) ms).

Definition outputFragments (ms : list (LiveServerMessage * DateReadings))
    : JsString :=
  concat (map (fun md => fragment (outputTxt (fst md))) ms).

Definition messageEvents (ms : list (LiveServerMessage * DateReadings)) : list Event :=
  map (fun md => OnMessage (fst md) (snd md)) ms.

(** A chat list made of user/model pairs. *)
Fixpoint userModelPairs (l : list ChatMessage) : bool :=
  match l with
  | [] => true
  | a :: b :: l' =>
      match sender a, sender b with
      | user, model => userModelPairs l'
      | _, _ => false
      end
  | _ => false
  end.

(** A start given to a source: what the clock showed, the start time, how
    long the buffer lasts. *)
Record Scheduled := { clock : Q; startTime : Q; lasting : Q }.




(** [lo] bounds the first start from below, every start is no earlier
    than what the clock showed, and each start is no earlier than the
    start before it plus the duration of the buffer started before it,
    as numbers are added. *)
Fixpoint chained (lo : Q) (l : list Scheduled) : Prop :=
  match l with
  | [] => True
  | s :: l' =>
      lo <= startTime s /\ clock s <= startTime s
      /\ chained (plus64 (startTime s) (lasting s)) l'
  end.


(** The continuation of [connect] throws: [getUserMedia] was rejected, or
    a reference it dereferences is [null]. *)
Definition connectResumeThrows (fulfilled : bool) (st : State) : bool :=
  negb fulfilled
  || match inputContextRef st with Some _ => false | None => true end
  || match inputAnalyserRef st with Some _ => false | None => true end.

(** The step is a [connect] that throws, in its first part or in its
    continuation. *)
Definition connectThrows (e : Event) (st : State) : bool :=
  match e with
  | CallConnect props (Some _) => truthy (apiKey props)
  | Settle i fulfilled _ =>
      match nth_error (pending st) i with
      | Some (ConnectAwaitUserMedia _) => connectResumeThrows fulfilled st
      | _ => false
      end
  | _ => false
  end.

Definition isLiveConnect (e : Effect) : bool :=
  match e with LiveConnect _ _ _ => true | _ => false end.

Definition isConnectionWrite (e : Effect) : bool :=
  match e with SetConnectionState _ => true | _ => false end.

Definition notWrite (e : Effect) : bool := negb (isConnectionWrite e).

Definition isPlayback (e : Effect) : bool :=
  match e with SourceStart _ _ | SetBuffer _ _ => true | _ => false end.

Definition isSetMessages (e : Effect) : bool :=
  match e with SetMessages _ => true | _ => false end.

(** A script processor, if created, is created for blocks of 4096 frames
    with one input and one output channel. *)
Definition processorAsConfigured (e : Effect) : bool :=
  match e with
  | CreateScriptProcessor _ _ size nIn nOut =>
      ((size =? 4096) && (nIn =? 1) && (nOut =? 1))%Z
  | _ => true
  end.

(** A buffer delivered to the handler of [node] as the platform delivers
    it: as many channels as the processor was created with inputs, each
    of as many frames as its buffer size. *)
Definition deliveredAsConfigured (l : list Effect) (node : Handle)
    (inputBuffer : list Float32Array) : Prop :=
  exists size nIn nOut,
    In (node, (size, nIn, nOut)) (processorsCreated l)
    /\ Z.of_nat (length inputBuffer) = nIn
    /\ Forall (fun channel => Z.of_nat (length channel) = size) inputBuffer.

(** Two applications with the same hook whose canvases are the same but
    for the ordinates. *)
Definition sameButOrdinates (app1 app2 : App) : Prop :=
  hook app1 = hook app2
  /\ forall side,
       map withoutOrdinate (canvasOf side app1)
       = map withoutOrdinate (canvasOf side app2).

(** *** Sample runs *)

(** A session is set up and opened. *)
Definition sampleOpening : list Event :=
  [CallConnect sampleProps None; Settle 0 true 0; OnOpen 0].

(** Two buffers are received, and each is scheduled when the clock of the
    output context shows half a second. *)
Definition sampleAudio : list Event :=
  [OnMessage (audioMessage (lit "abcd")) sampleDates; Settle 0 true (1 # 2);
   OnMessage (audioMessage (lit "abcdef")) sampleDates; Settle 0 true (1 # 2)].

Definition samplePlayback : list Event := sampleOpening ++ sampleAudio.

(** The session is opened and then closed by the user. *)
Definition sampleClosing : list Event :=
  sampleOpening ++ [CallDisconnect; Settle 0 true 0].

(** After that the user connects again, and [getUserMedia] is awaited. *)
Definition sampleReconnecting : list Event :=
  sampleClosing ++ [CallConnect sampleProps None].

(** The user stops while the microphone is asked for and connects again;
    both requests are then granted, so that two sessions are asked for,
    and the user closes the one the hook holds. *)
Definition sampleLeaked : list Event :=
  [CallConnect sampleProps None; CallDisconnect;
   CallConnect sampleProps None; Settle 0 true 0; Settle 0 true 0;
   OnOpen 0; CallDisconnect; Settle 0 true 0].

Definition isSessionClose (e : Effect) : bool :=
  match e with SessionClose _ => true | _ => false end.

(** A block of 4096 silent samples. *)
Definition silence : Float32Array := repeat 0 4096.

(** What [sampleUtils] decodes four bytes to. *)
Definition sampleBuffer : AudioBuffer :=
  {| duration := binary64 (4 # 48000) |}.

(** A turn in two messages, the second completing it. *)
Definition sampleTurn : list (LiveServerMessage * DateReadings) :=
  [(textMessage (Some (lit " hola ")) (Some (lit "hello")) false, sampleDates)].

Definition sampleTurnEnd : LiveServerMessage :=
  textMessage (Some (lit "que tal")) None true.

(** Two runs of the application that differ in what the analysers hold. *)
Definition sampleFrames (readingIn readingOut : list N)
    : list (@AppEvent) :=
  map HookEvent sampleOpening
  ++ [AnimationFrame InputSide readingIn;
      HookEvent (OnAudioProcess 6 [silence]);
      HookEvent (Settle 0 true 0);
      AnimationFrame OutputSide readingOut;
      HookEvent (OnMessage (audioMessage (lit "abcd")) sampleDates);
      HookEvent (Settle 0 true (1 # 2));
      HookEvent (OnMessage sampleTurnEnd sampleDates)].

(* ------------------------------------------------------------------ *)
(** ** [App]: what it computes around the hook *)

(** [LanguageOption] of [src/types.ts]. *)
Record LanguageOption := {
  code : JsString;
  name : JsString;
  flag : JsString
}.

(** [process.env.API_KEY || '']. *)
Definition apiKeyOf (env : option JsString) : JsString :=
  match env with
  | Some k => if truthy k then k else []
  | None => []
  end.

(** [SUPPORTED_LANGUAGES.find(l => l.code === targetLangCode)?.name
    || 'Spanish'].  The table is a constant of [src/constants], which is
    not at hand: it is a parameter. *)
Definition targetLanguageOf (SUPPORTED_LANGUAGES : list LanguageOption)
    (targetLangCode : JsString) : JsString :=
  match chain (find (fun l => strictEq (code l) targetLangCode)
                 SUPPORTED_LANGUAGES)
          (fun l => Some (name l)) with
  | Some n => if truthy n then n else lit "Spanish"
  | None => lit "Spanish"
  end.

(** The props [App] gives to the hook. *)
Definition appProps (SUPPORTED_LANGUAGES : list LanguageOption)
    (env : option JsString) (targetLangCode : JsString)
    : UseLiveTranslatorProps :=
  {| apiKey := apiKeyOf env;
     targetLanguage := targetLanguageOf SUPPORTED_LANGUAGES targetLangCode |}.

(** [toggleConnection]: the call the button makes, as an event of the
    hook; [throwAt] is where the platform makes [connect] throw, if it
    does. *)
Definition toggleConnection (props : UseLiveTranslatorProps)
    (throwAt : option ThrowPoint) (st : State) : Event :=
  match connectionState st with
  | CONNECTED | CONNECTING => CallDisconnect
  | _ => CallConnect props throwAt
  end.

Definition getStatusColor (c : ConnectionState) : JsString :=
  match c with
  | CONNECTED => lit "bg-green-500"
  | CONNECTING => lit "bg-yellow-500"
  | ERROR => lit "bg-red-500"
  | _ => lit "bg-slate-600"
  end.

Definition getStatusText (c : ConnectionState) : JsString :=
  match c with
  | CONNECTED => lit "Live"
  | CONNECTING => lit "Connecting..."
  | ERROR => lit "Error"
  | _ => lit "Ready"
  end.

(* ------------------------------------------------------------------ *)
(** ** Further notions *)

(** A call that stops, disconnects or closes something. *)
Definition isTeardown (e : Effect) : bool :=
  match e with
  | TracksStop _ | Disconnect _ | ContextClose _ | SourceStop _
  | SessionClose _ => true
  | _ => false
  end.

(** The sources given to [stop]. *)
Definition sourcesStopped (l : list Effect) : list Handle :=
  flat_map (fun e => match e with SourceStop s => [s] | _ => [] end) l.

(** The source [s] has been started. *)
Definition started (s : Handle) (l : list Effect) : bool :=
  existsb (fun e =>
    match e with SourceStart s' _ => Nat.eqb s s' | _ => false end) l.

(** An analyser, if given an FFT size, is given 256. *)
Definition fftSizeAsSet (e : Effect) : bool :=
  match e with SetFftSize _ n => (n =? 256)%Z | _ => true end.

(** The analyser [a] has been given an FFT size. *)
Definition fftSizeAssigned (a : Handle) (l : list Effect) : bool :=
  existsb (fun e =>
    match e with SetFftSize b _ => Nat.eqb a b | _ => false end) l.

(** The [report_language] calls among the tool calls of a message, in
    order. *)
Definition reportedCalls (message : LiveServerMessage) : list FunctionCall :=
  match toolCall message with
  | Some tc =>
      filter (fun fc =>
        match fc_name fc with
        | Some n => strictEq n (lit "report_language")
        | None => false
        end) (functionCalls tc)
  | None => []
  end.

(** The responses they leave waiting on the session promise [promise]. *)
Definition toolResponses (promise : option Handle)
    (message : LiveServerMessage) : list Task :=
  match promise with
  | Some p =>
      map (fun fc => ThenSendToolResponse p (fc_id fc) (fc_name fc))
        (reportedCalls message)
  | None => []
  end.

Definition isDecodeTask (t : Task) : bool :=
  match t with MessageAwaitDecode _ _ => true | _ => false end.

Definition isToolResponseTask (t : Task) : bool :=
  match t with ThenSendToolResponse _ _ _ => true | _ => false end.

Definition isOnMessage (e : Event) : bool :=
  match e with OnMessage _ _ => true | _ => false end.

(** The ordinates and the abscissas of the points of a path. *)
Definition ordinates (l : list CanvasCall) : list Q :=
  flat_map (fun c =>
    match c with MoveTo _ y | LineTo _ y => [y] | _ => [] end) l.

Definition abscissas (l : list CanvasCall) : list Q :=
  flat_map (fun c =>
    match c with MoveTo x _ | LineTo x _ => [x] | _ => [] end) l.

(** A disconnection and reconnection in the middle of a turn. *)
Definition sampleInterrupted : list Event :=
  sampleOpening
  ++ [OnMessage (textMessage (Some (lit "buenos ")) None false) sampleDates;
      CallDisconnect; Settle 0 true 0;
      CallConnect sampleProps None; Settle 0 true 0; OnOpen 0].

(** The user stops while the microphone is being asked for. *)
Definition sampleHasty : State :=
  step (utils := sampleUtils) (CallConnect sampleProps None) initialState.

Definition sampleLanguages : list LanguageOption :=
  [ {| code := lit "es"; name := lit "Spanish"; flag := lit "ES" |};
    {| code := lit "fr"; name := lit "French"; flag := lit "FR" |} ].

(** A message that carries audio and fragments of both transcriptions. *)
Definition sampleSpoken : LiveServerMessage :=
  {| toolCall := None;
     serverContent := Some
       {| inputTranscription := Some {| transcription_text := Some (lit "hola") |};
          outputTranscription :=
            Some {| transcription_text := Some (lit "hello") |};
          turnComplete := None;
          modelTurn := Some
            {| parts := Some
                 [ {| inlineData := Some
                        {| data := Some (lit "abcd");
                           mimeType := Some (lit "audio/pcm") |} |} ] |} |} |}.

(* ------------------------------------------------------------------ *)
(** ** Reasoning about computations *)

#[local] Arguments lit : simpl never.
#[local] Arguments Qplus : simpl never.
#[local] Arguments binary64 : simpl never.
#[local] Arguments plus64 : simpl never.
#[local] Arguments trim : simpl never.
#[local] Arguments toString : simpl never.
#[local] Arguments setAdd : simpl never.
#[local] Arguments disconnect_release : simpl never.
#[local] Arguments disconnect : simpl never.

Section Frames.

Context {X : Type} (f : State -> X).

Lemma preserves_ret A (a : A) : preserves f (ret a).
Proof. intro st. reflexivity. Qed.

Lemma preserves_throw A : preserves f (@throw A).
Proof. intro st. reflexivity. Qed.

Lemma preserves_emit e : preserves f (emit e).
Proof. intro st. reflexivity. Qed.

Lemma preserves_read A (g : State -> A) : preserves f (read g).
Proof. intro st. reflexivity. Qed.

Lemma preserves_update g : untouchedBy f g -> preserves f (update g).
Proof. intros H st. apply H. Qed.

Lemma preserves_bind A B (m : M A) (k : A -> M B) :
  preserves f m -> (forall a, preserves f (k a)) -> preserves f (bind m k).
Proof.
  intros Hm Hk st. unfold stateAfter, bind.
  specialize (Hm st). unfold stateAfter in Hm.
  destruct (m st) as [[[a|] st1] out1]; cbn in *; [|exact Hm].
  specialize (Hk a st1). unfold stateAfter in Hk.
  destruct (k a st1) as [[r st2] out2]; cbn in *. congruence.
Qed.

Lemma preserves_tryCatch (body handler : M unit) :
  preserves f body -> preserves f handler -> preserves f (tryCatch body handler).
Proof.
  intros Hb Hh st. unfold stateAfter, tryCatch.
  specialize (Hb st). unfold stateAfter in Hb.
  destruct (body st) as [[[a|] st1] out1]; cbn in *; [exact Hb|].
  specialize (Hh st1). unfold stateAfter in Hh.
  destruct (handler st1) as [[r st2] out2]; cbn in *. congruence.
Qed.

Lemma preserves_deref A (o : option A) : preserves f (deref o).
Proof. destruct o; intro st; reflexivity. Qed.

Lemma preserves_whenSome A (o : option A) (k : A -> M unit) :
  (forall a, preserves f (k a)) -> preserves f (whenSome o k).
Proof. intros H. destruct o; [apply H | apply preserves_ret]. Qed.

Lemma preserves_forEach A (l : list A) (k : A -> M unit) :
  (forall a, preserves f (k a)) -> preserves f (forEach l k).
Proof.
  intros H. induction l as [|a l IH]; cbn.
  - apply preserves_ret.
  - apply preserves_bind; [apply H | intros _; exact IH].
Qed.

Lemma preserves_mayThrow t p : preserves f (mayThrow t p).
Proof.
  unfold mayThrow. destruct t as [q|]; [destruct (ThrowPoint_eq_dec q p)|];
    intro st; reflexivity.
Qed.

Lemma preserves_fresh :
  (forall v, untouchedBy f (set_nextHandle v)) -> preserves f fresh.
Proof. intros H st. apply H. Qed.

Lemma preserves_suspend t :
  (forall v, untouchedBy f (set_pending v)) -> preserves f (suspend t).
Proof. intros H st. apply H. Qed.

Lemma preserves_setConnectionState v :
  untouchedBy f (set_connectionState v) -> preserves f (setConnectionState v).
Proof. intros H st. apply H. Qed.

Lemma preserves_setDetectedLanguage v :
  untouchedBy f (set_detectedLanguage v) -> preserves f (setDetectedLanguage v).
Proof. intros H st. apply H. Qed.

Lemma preserves_setMessages v :
  (forall w, untouchedBy f (set_messages w)) -> preserves f (setMessages v).
Proof. intros H st. apply H. Qed.

End Frames.

(** Proves [preserves f m] by following the code of [m]; what is left are
    the updates of [f] itself. *)
Ltac frame_step :=
  match goal with
  | |- preserves _ (bind _ _) => apply preserves_bind; [|intro]
  | |- preserves _ (tryCatch _ _) => apply preserves_tryCatch
  | |- preserves _ (ret _) => apply preserves_ret
  | |- preserves _ throw => apply preserves_throw
  | |- preserves _ (emit _) => apply preserves_emit
  | |- preserves _ (read _) => apply preserves_read
  | |- preserves _ (deref _) => apply preserves_deref
  | |- preserves _ (mayThrow _ _) => apply preserves_mayThrow
  | |- preserves _ (whenSome _ _) => apply preserves_whenSome; intro
  | |- preserves _ (forEach _ _) => apply preserves_forEach; intro
  | |- preserves _ fresh =>
      apply preserves_fresh; intros ? ?; reflexivity
  | |- preserves _ (suspend _) =>
      apply preserves_suspend; intros ? ?; reflexivity
  | |- preserves _ (setConnectionState _) =>
      apply preserves_setConnectionState; intros ?; reflexivity
  | |- preserves _ (setDetectedLanguage _) =>
      apply preserves_setDetectedLanguage; intros ?; reflexivity
  | |- preserves _ (setMessages _) =>
      apply preserves_setMessages; intros ? ?; reflexivity
  | |- preserves _ (update _) => apply preserves_update; intros ?; reflexivity
  | |- preserves _ (if ?b then _ else _) => destruct b
  | |- preserves _ (match ?o with _ => _ end) => destruct o
  end.

Ltac frame := repeat frame_step.

Section Calls.

Variable P : Effect -> bool.

Lemma emitsOnly_ret A (a : A) : emitsOnly P (ret a).
Proof. intro st. reflexivity. Qed.

Lemma emitsOnly_throw A : emitsOnly P (@throw A).
Proof. intro st. reflexivity. Qed.

Lemma emitsOnly_emit e : P e = true -> emitsOnly P (emit e).
Proof. intros H st. cbn. rewrite H. reflexivity. Qed.

Lemma emitsOnly_read A (g : State -> A) : emitsOnly P (read g).
Proof. intro st. reflexivity. Qed.

Lemma emitsOnly_update g : emitsOnly P (update g).
Proof. intro st. reflexivity. Qed.

Lemma emitsOnly_fresh : emitsOnly P fresh.
Proof. intro st. reflexivity. Qed.

Lemma emitsOnly_suspend t : emitsOnly P (suspend t).
Proof. intro st. reflexivity. Qed.

Lemma emitsOnly_bind A B (m : M A) (k : A -> M B) :
  emitsOnly P m -> (forall a, emitsOnly P (k a)) -> emitsOnly P (bind m k).
Proof.
  intros Hm Hk st. unfold bind. specialize (Hm st).
  destruct (m st) as [[[a|] st1] out1]; cbn in *; [|exact Hm].
  specialize (Hk a st1).
  destruct (k a st1) as [[r st2] out2]; cbn in *.
  rewrite forallb_app, Hm, Hk. reflexivity.
Qed.

Lemma emitsOnly_tryCatch (body handler : M unit) :
  emitsOnly P body -> emitsOnly P handler -> emitsOnly P (tryCatch body handler).
Proof.
  intros Hb Hh st. unfold tryCatch. specialize (Hb st).
  destruct (body st) as [[[a|] st1] out1]; cbn in *; [exact Hb|].
  specialize (Hh st1).
  destruct (handler st1) as [[r st2] out2]; cbn in *.
  rewrite forallb_app, Hb, Hh. reflexivity.
Qed.

Lemma emitsOnly_deref A (o : option A) : emitsOnly P (deref o).
Proof. destruct o; intro st; reflexivity. Qed.

Lemma emitsOnly_whenSome A (o : option A) (k : A -> M unit) :
  (forall a, emitsOnly P (k a)) -> emitsOnly P (whenSome o k).
Proof. intros H. destruct o; [apply H | apply emitsOnly_ret]. Qed.

Lemma emitsOnly_forEach A (l : list A) (k : A -> M unit) :
  (forall a, emitsOnly P (k a)) -> emitsOnly P (forEach l k).
Proof.
  intros H. induction l as [|a l IH]; cbn.
  - apply emitsOnly_ret.
  - apply emitsOnly_bind; [apply H | intros _; exact IH].
Qed.

Lemma emitsOnly_mayThrow t p : emitsOnly P (mayThrow t p).
Proof.
  unfold mayThrow. destruct t as [q|]; [destruct (ThrowPoint_eq_dec q p)|];
    intro st; reflexivity.
Qed.

Lemma emitsOnly_setConnectionState v :
  P (SetConnectionState v) = true -> emitsOnly P (setConnectionState v).
Proof. intros H st. cbn. rewrite H. reflexivity. Qed.

Lemma emitsOnly_setDetectedLanguage v :
  P (SetDetectedLanguage v) = true -> emitsOnly P (setDetectedLanguage v).
Proof. intros H st. cbn. rewrite H. reflexivity. Qed.

Lemma emitsOnly_setMessages v :
  P (SetMessages v) = true -> emitsOnly P (setMessages v).
Proof. intros H st. cbn. rewrite H. reflexivity. Qed.

End Calls.

(** Proves [emitsOnly P m] by following the code of [m]. *)
Ltac quiet_step :=
  match goal with
  | |- emitsOnly _ (bind _ _) => apply emitsOnly_bind; [|intro]
  | |- emitsOnly _ (tryCatch _ _) => apply emitsOnly_tryCatch
  | |- emitsOnly _ (ret _) => apply emitsOnly_ret
  | |- emitsOnly _ throw => apply emitsOnly_throw
  | |- emitsOnly _ (emit _) => apply emitsOnly_emit; reflexivity
  | |- emitsOnly _ (read _) => apply emitsOnly_read
  | |- emitsOnly _ (update _) => apply emitsOnly_update
  | |- emitsOnly _ fresh => apply emitsOnly_fresh
  | |- emitsOnly _ (suspend _) => apply emitsOnly_suspend
  | |- emitsOnly _ (deref _) => apply emitsOnly_deref
  | |- emitsOnly _ (mayThrow _ _) => apply emitsOnly_mayThrow
  | |- emitsOnly _ (whenSome _ _) => apply emitsOnly_whenSome; intro
  | |- emitsOnly _ (forEach _ _) => apply emitsOnly_forEach; intro
  | |- emitsOnly _ (setConnectionState _) =>
      apply emitsOnly_setConnectionState; reflexivity
  | |- emitsOnly _ (setDetectedLanguage _) =>
      apply emitsOnly_setDetectedLanguage; reflexivity
  | |- emitsOnly _ (setMessages _) => apply emitsOnly_setMessages; reflexivity
  | |- emitsOnly _ (if ?b then _ else _) => destruct b
  | |- emitsOnly _ (match ?o with _ => _ end) => destruct o
  end.

Ltac quiet := repeat quiet_step.

(** The code of the hook, unfolded down to the primitives. *)
Ltac open_hook :=
  unfold handle, resume, connect, connect_resume, connect_catch,
    disconnect, disconnect_resume, disconnect_release,
    onopen, onaudioprocess, onmessage, onmessage_resume,
    handleToolCalls, handleTranscriptions, handleAudioOutput, onended,
    onclose, onerror,
    disconnect, disconnect_release.

Section HookFacts.

Context {utils : AudioUtils}.

(** *** The log and the calls of a step *)

Lemma handle_preserves_log e : preserves log (handle e).
Proof. destruct e; open_hook; frame. Qed.

Lemma log_step e st : log (step e st) = log st ++ emitted e st.
Proof.
  unfold step, exec, emitted, effectsOf.
  pose proof (handle_preserves_log e st) as H. unfold stateAfter in H.
  destruct (handle e st) as [[r st'] out]; cbn in *.
  destruct st'; cbn in *. rewrite H. reflexivity.
Qed.

Lemma step_field {X} (f : State -> X) e st :
  untouchedBy f (set_log (log (stateAfter (handle e) st) ++ emitted e st)) ->
  f (step e st) = f (stateAfter (handle e) st).
Proof.
  intros H. unfold step, exec, stateAfter, emitted, effectsOf in *.
  destruct (handle e st) as [[r st'] out]; cbn in *. apply H.
Qed.

Arguments step_field {X} f e st _.

(** *** [disconnect] and [onerror], computed *)


Lemma forEach_emit A (g : A -> Effect) l st :
  forEach l (fun a => emit (g a)) st = (Ok tt, st, map g l).
Proof.
  revert st. induction l as [|a l IH]; intro st; cbn; [reflexivity|].
  unfold bind. cbn. rewrite IH. reflexivity.
Qed.

Lemma disconnect_release_run st :
  disconnect_release st = (Ok tt, releasedState st, releaseEffects st).
Proof.
  destruct st as [cs dl ms ic oc ia oa pr sr str sp nst sch ci co pe nh lg].
  unfold disconnect_release, releasedState, releaseEffects.
  destruct str, pr, sr, ic, oc; unfold bind; cbn; rewrite forEach_emit; cbn; reflexivity.
Qed.

Lemma no_release_writes st : connectionWrites (releaseEffects st) = [].
Proof.
  unfold releaseEffects, connectionWrites. rewrite !flat_map_app.
  destruct (streamRef st), (processorRef st), (sourceRef st),
    (inputContextRef st), (outputContextRef st); cbn;
    induction (scheduledSourcesRef st); cbn; auto.
Qed.

Lemma disconnect_run st :
  disconnect st =
  match sessionPromiseRef st with
  | Some p =>
      (Ok tt,
       set_pending (pending st ++ [DisconnectAwaitSession p])
         (set_connectionState DISCONNECTED st),
       [SetConnectionState DISCONNECTED])
  | None =>
      (Ok tt, releasedState (set_connectionState DISCONNECTED st),
       SetConnectionState DISCONNECTED
         :: releaseEffects st)
  end.
Proof.
  unfold disconnect, bind. cbn.
  destruct (sessionPromiseRef st) eqn:E; cbn.
  - reflexivity.
  - rewrite disconnect_release_run. destruct st; cbn in *. reflexivity.
Qed.

Lemma disconnect_resume_run p ok st :
  disconnect_resume p ok st =
  (Ok tt, releasedState (set_sessionPromiseRef None st),
   (if ok then SessionClose p else ConsoleError (lit "Error closing session"))
     :: releaseEffects st).
Proof.
  unfold disconnect_resume. unfold bind. destruct ok; cbn;
  rewrite disconnect_release_run; destruct st; reflexivity.
Qed.

Lemma onerror_run st :
  onerror st =
  match sessionPromiseRef st with
  | Some p =>
      (Ok tt,
       set_pending (pending st ++ [DisconnectAwaitSession p])
         (set_connectionState DISCONNECTED st),
       [ConsoleError (lit "Session error:"); SetConnectionState ERROR;
        SetConnectionState DISCONNECTED])
  | None =>
      (Ok tt, releasedState (set_connectionState DISCONNECTED st),
       [ConsoleError (lit "Session error:"); SetConnectionState ERROR;
        SetConnectionState DISCONNECTED] ++ releaseEffects st)
  end.
Proof.
  unfold onerror, bind. cbn. rewrite disconnect_run. cbn.
  destruct (sessionPromiseRef st); destruct st; reflexivity.
Qed.

Lemma handle_settle i ok t st task :
  nth_error (pending st) i = Some task ->
  handle (Settle i ok t) st
  = resume task ok t (set_pending (removeNth i (pending st)) st).
Proof.
  intros H. unfold handle, bind. cbn. rewrite H. cbn. unfold bind. cbn.
  destruct (resume task ok t _) as [[r s] o]. reflexivity.
Qed.

Lemma handle_settle_none i ok t st :
  nth_error (pending st) i = None ->
  handle (Settle i ok t) st = (Ok tt, st, []).
Proof.
  intros H. unfold handle, bind. cbn. rewrite H. reflexivity.
Qed.

Lemma connect_writes props t st :
  connectionWrites (effectsOf (connect props t) st)
  = (if truthy (apiKey props) then
       match t with Some _ => [CONNECTING; ERROR] | None => [CONNECTING] end
     else [])
  /\ connectionState (stateAfter (connect props t) st)
  = (if truthy (apiKey props) then
       match t with Some _ => ERROR | None => CONNECTING end
     else connectionState st).
Proof.
  unfold connect, effectsOf, stateAfter.
  destruct (truthy (apiKey props)); cbn; [|split; reflexivity].
  destruct t as [[]|]; split; reflexivity.
Qed.

Lemma connect_resume_writes props ok st :
  connectionWrites (effectsOf (connect_resume props ok) st)
  = (if connectResumeThrows ok st then [ERROR] else [])
  /\ connectionState (stateAfter (connect_resume props ok) st)
  = (if connectResumeThrows ok st then ERROR else connectionState st).
Proof.
  unfold connect_resume, effectsOf, stateAfter, connectResumeThrows.
  destruct st as [cs dl ms ic oc ia oa pr sr str sp nst sch ci co pe nh lg].
  destruct ok, ic, ia; split; reflexivity.
Qed.


Lemma no_writes l : forallb notWrite l = true -> connectionWrites l = [].
Proof.
  induction l as [|a l IH]; cbn; [reflexivity|].
  intros H. apply andb_true_iff in H. destruct H as [Ha Hl].
  specialize (IH Hl). unfold connectionWrites in *.
  destruct a; cbn in *; try exact IH; discriminate.
Qed.

Lemma step_connectionState e st :
  connectionState (step e st) = connectionState (stateAfter (handle e) st).
Proof. apply step_field. intros ?. reflexivity. Qed.

Lemma resume_other_writes task ok t :
  (forall props, task <> ConnectAwaitUserMedia props) ->
  preserves connectionState (resume task ok t)
  /\ emitsOnly notWrite (resume task ok t).
Proof.
  intros H. destruct task; try (exfalso; eapply H; reflexivity);
    split; open_hook; try solve [frame]; quiet.
Qed.

Lemma callbacks_no_writes e :
  match e with
  | OnMessage _ _ | OnAudioProcess _ _ | OnEnded _ => True
  | _ => False
  end ->
  preserves connectionState (handle e) /\ emitsOnly notWrite (handle e).
Proof.
  destruct e; intros H; try contradiction; split; open_hook;
    try solve [frame]; quiet.
Qed.

Lemma settle_writes i ok t st :
  connectionWrites (emitted (Settle i ok t) st)
  = (if connectThrows (Settle i ok t) st then [ERROR] else [])
  /\ connectionState (step (Settle i ok t) st)
  = (if connectThrows (Settle i ok t) st then ERROR else connectionState st).
Proof.
  rewrite step_connectionState. unfold emitted, effectsOf, stateAfter, connectThrows.
  destruct (nth_error (pending st) i) as [task|] eqn:E.
  2:{ rewrite (@handle_settle_none i ok t st E). split; reflexivity. }
  rewrite (@handle_settle i ok t st task E).
  destruct task as [props|p|p m|p a b|c d].
  1:{ pose proof (connect_resume_writes props ok
        (set_pending (removeNth i (pending st)) st)) as [H1 H2].
      unfold effectsOf, stateAfter in *. cbn [resume].
      rewrite H1, H2. destruct st; cbn. split; reflexivity. }
  all: match goal with |- context [resume ?task _ _ _] =>
         destruct (@resume_other_writes task ok t) as [Hp Hq];
           [intros props; discriminate|] end;
       specialize (Hp (set_pending (removeNth i (pending st)) st));
       specialize (Hq (set_pending (removeNth i (pending st)) st));
       unfold stateAfter in Hp; rewrite (@no_writes _ Hq), Hp;
       destruct st; split; reflexivity.
Qed.

Lemma last_nonempty_default A (y : A) l d d' :
  last (y :: l) d = last (y :: l) d'.
Proof.
  revert y. induction l as [|z l IH]; intro y; [reflexivity|].
  change (last (z :: l) d = last (z :: l) d'). apply IH.
Qed.

Lemma last_app_default A (a b : list A) d : last (a ++ b) d = last b (last a d).
Proof.
  revert d. induction a as [|x a IH]; intro d; [reflexivity|].
  destruct a as [|y a].
  - destruct b as [|z b]; [reflexivity|].
    change (last (z :: b) d = last (z :: b) x). apply last_nonempty_default.
  - exact (IH d).
Qed.

Lemma connectionWrites_app a b :
  connectionWrites (a ++ b) = connectionWrites a ++ connectionWrites b.
Proof. apply flat_map_app. Qed.

(** Each event writes the connection state as its code says. *)
Lemma event_writes e st :
  connectionState (step e st)
    = last (connectionWrites (emitted e st)) (connectionState st)
  /\ connectionWrites (emitted e st)
     = match e with
       | CallConnect props throwAt =>
           if truthy (apiKey props) then
             match throwAt with
             | Some _ => [CONNECTING; ERROR]
             | None => [CONNECTING]
             end
           else []
       | CallDisconnect => [DISCONNECTED]
       | Settle _ _ _ => if connectThrows e st then [ERROR] else []
       | OnOpen _ => [CONNECTED]
       | OnClose => [DISCONNECTED]
       | OnError => ERROR :: connectionWrites (emitted CallDisconnect st)
       | OnMessage _ _ | OnAudioProcess _ _ | OnEnded _ => []
       end.
Proof.
  destruct e as [props throwAt| |i ok t|t|m d| | |n b|n].
  - rewrite step_connectionState.
    destruct (connect_writes props throwAt st) as [H1 H2].
    unfold emitted, handle. rewrite H1, H2.
    destruct (truthy (apiKey props)); [destruct throwAt|]; split; reflexivity.
  - rewrite step_connectionState. unfold emitted, effectsOf, stateAfter, handle.
    rewrite disconnect_run.
    destruct (sessionPromiseRef st); destruct st; cbn;
      rewrite ?no_release_writes; split; reflexivity.
  - destruct (settle_writes i ok t st) as [H1 H2]. rewrite H1, H2.
    destruct (connectThrows _ _); split; reflexivity.
  - rewrite step_connectionState. unfold emitted, effectsOf, stateAfter, handle, onopen.
    destruct st as [cs dl ms ic oc ia oa pr sr str sp nst sch ci co pe nh lg].
    destruct oc, pr; split; reflexivity.
  - destruct (@callbacks_no_writes (OnMessage m d) I) as [Hp Hq].
    rewrite step_connectionState, Hp. unfold emitted, effectsOf.
    rewrite (@no_writes _ (Hq st)). split; reflexivity.
  - rewrite step_connectionState. split; reflexivity.
  - rewrite step_connectionState. unfold emitted, effectsOf, stateAfter, handle.
    rewrite onerror_run, disconnect_run.
    destruct (sessionPromiseRef st); destruct st; cbn;
      rewrite ?no_release_writes; split; reflexivity.
  - destruct (@callbacks_no_writes (OnAudioProcess n b) I) as [Hp Hq].
    rewrite step_connectionState, Hp. unfold emitted, effectsOf.
    rewrite (@no_writes _ (Hq st)). split; reflexivity.
  - destruct (@callbacks_no_writes (OnEnded n) I) as [Hp Hq].
    rewrite step_connectionState, Hp. unfold emitted, effectsOf.
    rewrite (@no_writes _ (Hq st)). split; reflexivity.
Qed.



(** *** The connection status *)

Lemma reachable_last_write st :
  reachable st ->
  connectionState st = last (connectionWrites (log st)) DISCONNECTED.
Proof.
  induction 1 as [|e st Hr IH]; [reflexivity|].
  rewrite log_step, connectionWrites_app, last_app_default, <- IH.
  apply event_writes.
Qed.

(** C5.  The connection status is one of the four members of
    [ConnectionState], and in every reachable state it is the last value
    given to [setConnectionState] (DISCONNECTED before any).  The values
    written in a step are those of the operation the step runs:
    [connect] writes CONNECTING, and then ERROR if it throws, in its
    first part or after [getUserMedia] has settled; [disconnect] writes
    DISCONNECTED; [onopen] writes CONNECTED; [onclose] writes
    DISCONNECTED; [onerror] writes ERROR, after which the [disconnect] it
    calls writes as [disconnect] does; nothing else writes. *)
Theorem connection_status_state_machine :
  (forall st, reachable st ->
     In (connectionState st) [DISCONNECTED; CONNECTING; CONNECTED; ERROR]
     /\ connectionState st = last (connectionWrites (log st)) DISCONNECTED)
  /\ forall e st,
       connectionState (step e st)
         = last (connectionWrites (emitted e st)) (connectionState st)
       /\ connectionWrites (emitted e st)
          = match e with
            | CallConnect props throwAt =>
                if truthy (apiKey props) then
                  match throwAt with
                  | Some _ => [CONNECTING; ERROR]
                  | None => [CONNECTING]
                  end
                else []
            | Settle _ _ _ => if connectThrows e st then [ERROR] else []
            | CallDisconnect => [DISCONNECTED]
            | OnOpen _ => [CONNECTED]
            | OnClose => [DISCONNECTED]
            | OnError => ERROR :: connectionWrites (emitted CallDisconnect st)
            | OnMessage _ _ | OnAudioProcess _ _ | OnEnded _ => []
            end.
Proof.
  split.
  - intros st Hr. split; [|apply reachable_last_write; exact Hr].
    destruct (connectionState st); cbn; auto.
  - apply event_writes.
Qed.

(** *** Errors *)

Lemma onerror_step st :
  connectionState (step OnError st) = DISCONNECTED
  /\ connectionWrites (emitted OnError st) = [ERROR; DISCONNECTED].
Proof.
  destruct (event_writes OnError st) as [H1 H2].
  destruct (event_writes CallDisconnect st) as [_ H3].
  rewrite H1, H2, H3. split; reflexivity.
Qed.

Lemma connect_throws_no_session e st :
  connectThrows e st = true ->
  forallb (fun x => negb (isLiveConnect x)) (emitted e st) = true
  /\ sessionPromiseRef (step e st) = sessionPromiseRef st.
Proof.
  intros H. rewrite (step_field sessionPromiseRef) by (intros ?; reflexivity).
  unfold emitted, effectsOf, stateAfter.
  destruct e as [props throwAt| |i ok t|t|m d| | |n b|n]; try discriminate.
  - cbn in H. destruct throwAt as [pt|]; [|discriminate].
    unfold handle, connect. rewrite H.
    destruct st; destruct pt; split; reflexivity.
  - cbn in H. destruct (nth_error (pending st) i) as [task|] eqn:E;
      [|discriminate].
    destruct task as [props| | | |]; try discriminate.
    rewrite (@handle_settle i ok t st _ E). cbn [resume].
    unfold connectResumeThrows in H. unfold connect_resume.
    destruct st as [cs dl ms ic oc ia oa pr sr str sp nst sch ci co pe nh lg].
    cbn in H. destruct ok, ic, ia; try discriminate; split; reflexivity.
Qed.

(** C8.  When [onerror] has run, the connection status is DISCONNECTED:
    ERROR was written and then, by the [disconnect] it calls,
    DISCONNECTED; the continuation of that [disconnect] writes nothing
    more.  A step ends in ERROR only if the status was ERROR already or
    the step is a [connect] that throws, and such a step does end in
    ERROR, without having asked for a session. *)
Theorem session_error_ends_disconnected :
  (forall st,
     connectionState (step OnError st) = DISCONNECTED
     /\ connectionWrites (emitted OnError st) = [ERROR; DISCONNECTED])
  /\ (forall st i p fulfilled t,
        nth_error (pending st) i = Some (DisconnectAwaitSession p) ->
        connectionState (step (Settle i fulfilled t) st) = connectionState st)
  /\ (forall e st,
        connectThrows e st = true ->
        connectionState (step e st) = ERROR
        /\ forallb (fun x => negb (isLiveConnect x)) (emitted e st) = true
        /\ sessionPromiseRef (step e st) = sessionPromiseRef st)
  /\ (forall e st,
        connectionState (step e st) = ERROR ->
        connectionState st = ERROR \/ connectThrows e st = true).
Proof.
  split; [exact onerror_step|]. split; [|split].
  - intros st i p ok t E.
    destruct (settle_writes i ok t st) as [_ H]. rewrite H.
    unfold connectThrows. rewrite E. reflexivity.
  - intros e st H. split; [|apply connect_throws_no_session; exact H].
    destruct (event_writes e st) as [H1 H2]. rewrite H1, H2.
    destruct e as [props throwAt| |i ok t|t|m d| | |n b|n]; try discriminate.
    + cbn in H. destruct throwAt; [|discriminate]. rewrite H. reflexivity.
    + rewrite H. reflexivity.
  - intros e st H.
    destruct (event_writes e st) as [H1 H2]. rewrite H1, H2 in H.
    destruct (event_writes CallDisconnect st) as [_ H3].
    destruct e as [props throwAt| |i ok t|t|m d| | |n b|n];
      try rewrite H3 in H; try discriminate; try (left; exact H).
    + cbn. destruct (truthy (apiKey props)); [|left; exact H].
      destruct throwAt; [right; reflexivity|discriminate].
    + destruct (connectThrows (Settle i ok t) st); [right; reflexivity|left; exact H].
Qed.

(** *** Release of the resources *)

Lemma released_resources st : resources (releasedState st) = noResources.
Proof. reflexivity. Qed.

Lemma settle_disconnect i p ok t st :
  nth_error (pending st) i = Some (DisconnectAwaitSession p) ->
  emitted (Settle i ok t) st
    = (if ok then SessionClose p else ConsoleError (lit "Error closing session"))
        :: releaseEffects st
  /\ resources (step (Settle i ok t) st) = noResources
  /\ sessionPromiseRef (step (Settle i ok t) st) = None
  /\ detectedLanguage (step (Settle i ok t) st) = lit "Waiting for speech..."
  /\ messages (step (Settle i ok t) st) = messages st.
Proof.
  intros E.
  rewrite (step_field resources), (step_field sessionPromiseRef),
    (step_field detectedLanguage), (step_field messages)
    by (intros ?; reflexivity).
  unfold emitted, effectsOf, stateAfter.
  rewrite (@handle_settle i ok t st _ E). cbn [resume].
  rewrite disconnect_resume_run. destruct st; cbn. repeat split; reflexivity.
Qed.

(** C7, as the code has it.  On a session error the hook logs the error,
    writes ERROR and runs its own [disconnect]: DISCONNECTED is written
    at once; with no session promise held the media stream, the
    processor, the source, both audio contexts and every scheduled source
    are released in the same step; otherwise the resources are left as
    they are until the awaited session promise settles, and are released
    then.  No session is asked for again. *)
Theorem session_error_runs_cleanup :
  forall st,
    emitted OnError st
      = [ConsoleError (lit "Session error:"); SetConnectionState ERROR;
         SetConnectionState DISCONNECTED]
        ++ match sessionPromiseRef st with
           | Some _ => []
           | None => releaseEffects st
           end
    /\ match sessionPromiseRef st with
       | Some p =>
           resources (step OnError st) = resources st
           /\ pending (step OnError st)
              = pending st ++ [DisconnectAwaitSession p]
       | None =>
           resources (step OnError st) = noResources
           /\ pending (step OnError st) = pending st
       end
    /\ forallb (fun x => negb (isLiveConnect x)) (emitted OnError st) = true
    /\ forall i p fulfilled t,
         nth_error (pending st) i = Some (DisconnectAwaitSession p) ->
         emitted (Settle i fulfilled t) st
           = (if fulfilled then SessionClose p
              else ConsoleError (lit "Error closing session"))
               :: releaseEffects st
         /\ resources (step (Settle i fulfilled t) st) = noResources.
Proof.
  intros st.
  assert (Hrel : forallb (fun x => negb (isLiveConnect x)) (releaseEffects st) = true).
  { unfold releaseEffects. rewrite !forallb_app.
    destruct (streamRef st), (processorRef st), (sourceRef st),
      (inputContextRef st), (outputContextRef st); cbn;
      rewrite ?andb_true_r; induction (scheduledSourcesRef st); cbn; auto. }
  rewrite (step_field resources), (step_field pending) by (intros ?; reflexivity).
  unfold emitted at 1 2, effectsOf, stateAfter. unfold handle.
  rewrite onerror_run.
  destruct (sessionPromiseRef st) as [p|] eqn:E.
  - split; [reflexivity|]. split; [destruct st; split; reflexivity|].
    split; [reflexivity|].
    intros i q ok t H. destruct (@settle_disconnect i q ok t st H) as (H1 & H2 & _).
    split; assumption.
  - split; [reflexivity|]. split; [destruct st; split; reflexivity|].
    split; [cbn; exact Hrel|].
    intros i q ok t H. destruct (@settle_disconnect i q ok t st H) as (H1 & H2 & _).
    split; assumption.
Qed.

(** C10.  [disconnect] leaves the chat messages as they are, in its first
    part and in its continuation.  It writes DISCONNECTED at once; the
    session promise, the media stream, the processor, the source, both
    audio contexts and the scheduled sources are cleared, and the
    detected language reset, in the same step when no session promise is
    held and otherwise when the awaited promise has settled. *)
Theorem disconnect_preserves_messages :
  forall st,
    messages (step CallDisconnect st) = messages st
    /\ connectionState (step CallDisconnect st) = DISCONNECTED
    /\ match sessionPromiseRef st with
       | Some p =>
           pending (step CallDisconnect st)
           = pending st ++ [DisconnectAwaitSession p]
       | None =>
           resources (step CallDisconnect st) = noResources
           /\ detectedLanguage (step CallDisconnect st)
              = lit "Waiting for speech..."
       end
    /\ forall i p fulfilled t,
         nth_error (pending st) i = Some (DisconnectAwaitSession p) ->
         let st' := step (Settle i fulfilled t) st in
         messages st' = messages st
         /\ resources st' = noResources
         /\ sessionPromiseRef st' = None
         /\ detectedLanguage st' = lit "Waiting for speech...".
Proof.
  intros st.
  rewrite (step_field messages), (step_field connectionState),
    (step_field pending), (step_field resources), (step_field detectedLanguage)
    by (intros ?; reflexivity).
  unfold stateAfter, handle. rewrite disconnect_run.
  split; [destruct (sessionPromiseRef st); destruct st; reflexivity|].
  split; [destruct (sessionPromiseRef st); destruct st; reflexivity|].
  split; [destruct (sessionPromiseRef st); destruct st; cbn; auto|].
  intros i p ok t H. cbv zeta.
  destruct (@settle_disconnect i p ok t st H) as (_ & H2 & H3 & H4 & H5).
  repeat split; assumption.
Qed.

(** *** The message handler *)

Lemma bind_run A B (m : M A) (k : A -> M B) st a st1 out1 :
  m st = (Ok a, st1, out1) ->
  bind m k st
  = match k a st1 with (r, st2, out2) => (r, st2, out1 ++ out2) end.
Proof. intros H. unfold bind. rewrite H. reflexivity. Qed.

Arguments bind_run {A B} m k {st a st1 out1} _.

(** The tool calls of a message change the detected language and leave
    responses waiting, and nothing else. *)
Lemma handleToolCalls_run message st :
  exists dl tasks out,
    handleToolCalls message st
    = (Ok tt, set_pending (pending st ++ tasks) (set_detectedLanguage dl st), out)
    /\ forallb (fun e => negb (isPlayback e) && notWrite e
                         && negb (isSetMessages e)) out = true.
Proof.
  unfold handleToolCalls, whenSome.
  destruct (toolCall message) as [tc|].
  2:{ exists (detectedLanguage st), [], []. rewrite app_nil_r.
      destruct st; split; reflexivity. }
  generalize (functionCalls tc) as fcs. intros fcs. revert st.
  induction fcs as [|fc fcs IH]; intro st.
  - exists (detectedLanguage st), [], []. rewrite app_nil_r.
    destruct st; split; reflexivity.
  - cbn [forEach].
    assert (Hhead : exists dl tasks out,
      (match fc_name fc with
       | Some name =>
           if strictEq name (lit "report_language") then
             setDetectedLanguage (fc_args_language fc) ;;
             promise <- read sessionPromiseRef ;;
             whenSome promise (fun p =>
               suspend (ThenSendToolResponse p (fc_id fc) (fc_name fc)))
           else ret tt
       | None => ret tt
       end) st
      = (Ok tt, set_pending (pending st ++ tasks) (set_detectedLanguage dl st), out)
      /\ forallb (fun e => negb (isPlayback e) && notWrite e
                           && negb (isSetMessages e)) out = true).
    { destruct (fc_name fc) as [name|].
      2:{ exists (detectedLanguage st), [], []. rewrite app_nil_r.
          destruct st; split; reflexivity. }
      destruct (strictEq name (lit "report_language")).
      2:{ exists (detectedLanguage st), [], []. rewrite app_nil_r.
          destruct st; split; reflexivity. }
      destruct (sessionPromiseRef st) as [p|] eqn:E.
      - exists (fc_args_language fc),
          [ThenSendToolResponse p (fc_id fc) (Some name)],
          [SetDetectedLanguage (fc_args_language fc)].
        destruct st; cbn in *; subst; unfold bind; cbn; rewrite ?app_nil_r;
          split; reflexivity.
      - exists (fc_args_language fc), [],
          [SetDetectedLanguage (fc_args_language fc)].
        destruct st; cbn in *; subst; unfold bind; cbn; rewrite ?app_nil_r;
          split; reflexivity. }
    destruct Hhead as (dl1 & t1 & o1 & H1 & P1).
    rewrite (bind_run _ _ H1).
    destruct (IH (set_pending (pending st ++ t1) (set_detectedLanguage dl1 st)))
      as (dl2 & t2 & o2 & H2 & P2).
    rewrite H2. exists dl2, (t1 ++ t2), (o1 ++ o2).
    rewrite forallb_app, P1, P2. destruct st; cbn. rewrite app_assoc.
    split; reflexivity.
Qed.

(** The transcription part of the handler, on the three cells it works
    on; it leaves the references and the suspended tasks alone. *)
Lemma handleTranscriptions_run message dates st :
  exists st' out,
    handleTranscriptions message dates st = (Ok tt, st', out)
    /\ (let accIn := currentInputTransRef st ++ fragment (inputTxt message) in
        let accOut := currentOutputTransRef st ++ fragment (outputTxt message) in
        if isTurnComplete message then
          messages st'
          = messages st
            ++ (if truthy (trim accIn) || truthy (trim accOut)
                then turnMessages (trim accIn) (trim accOut) dates else [])
          /\ currentInputTransRef st' = [] /\ currentOutputTransRef st' = []
        else
          messages st' = messages st
          /\ currentInputTransRef st' = accIn
          /\ currentOutputTransRef st' = accOut)
    /\ pending st' = pending st
    /\ outputContextRef st' = outputContextRef st
    /\ nextStartTimeRef st' = nextStartTimeRef st
    /\ connectionState st' = connectionState st
    /\ forallb (fun e => negb (isPlayback e) && notWrite e) out = true.
Proof.
  unfold handleTranscriptions, turnMessages.
  destruct st as [cs dl ms ic oc ia oa pr sr str sp nst sch ci co pe nh lg].
  destruct (inputTxt message) as [[|c1 t1]|];
    destruct (outputTxt message) as [[|c2 t2]|];
    destruct (isTurnComplete message);
    unfold bind; cbn; rewrite ?app_nil_r;
    try (match goal with
         | |- context [truthy ?a || truthy ?b] =>
             destruct (truthy a || truthy b)
         end);
    cbn; rewrite ?app_nil_r; eexists; eexists;
    (split; [reflexivity|]); cbn; rewrite ?app_nil_r; repeat split; reflexivity.
Qed.

Lemma handleAudioOutput_run message st :
  exists r tasks,
    handleAudioOutput message st
    = (r, set_pending (pending st ++ tasks) st, [])
    /\ forall b64 ctx bytes,
         base64Audio message = Some b64 -> truthy b64 = true ->
         outputContextRef st = Some ctx ->
         base64ToUint8Array b64 = Some bytes ->
         tasks = [MessageAwaitDecode ctx
                    (decodeAudioData bytes ctx AUDIO_OUTPUT_SAMPLE_RATE)].
Proof.
  assert (Same : set_pending (pending st ++ []) st = st)
    by (rewrite app_nil_r; destruct st; reflexivity).
  unfold handleAudioOutput, bind. cbn.
  destruct (base64Audio message) as [b64|].
  2:{ exists (Ok tt), []. rewrite Same.
      split; [reflexivity|]. intros; discriminate. }
  destruct (outputContextRef st) as [ctx|] eqn:E.
  2:{ exists (Ok tt), []. rewrite Same.
      split; [reflexivity|]. intros; discriminate. }
  destruct (truthy b64) eqn:T.
  2:{ exists (Ok tt), []. rewrite Same.
      split; [reflexivity|]. intros ? ? ? H H'; inversion H; subst; congruence. }
  destruct (base64ToUint8Array b64) as [bytes|] eqn:B.
  2:{ exists Thrown, []. rewrite Same.
      split; [reflexivity|]. intros ? ? ? H; inversion H; subst; congruence. }
  exists (Ok tt),
    [MessageAwaitDecode ctx (decodeAudioData bytes ctx AUDIO_OUTPUT_SAMPLE_RATE)].
  split; [cbn; reflexivity|].
  intros ? ? ? H1 _ H2 H3. inversion H1; inversion H2; subst.
  rewrite B in H3. inversion H3; subst. reflexivity.
Qed.

(** One message: what the handler leaves in the transcript cells and in
    the chat list, and that it starts nothing and writes no status. *)
Lemma onmessage_step message dates st :
  let st' := step (OnMessage message dates) st in
  let accIn := currentInputTransRef st ++ fragment (inputTxt message) in
  let accOut := currentOutputTransRef st ++ fragment (outputTxt message) in
  (if isTurnComplete message then
     messages st'
     = messages st
       ++ (if truthy (trim accIn) || truthy (trim accOut)
           then turnMessages (trim accIn) (trim accOut) dates else [])
     /\ currentInputTransRef st' = [] /\ currentOutputTransRef st' = []
   else
     messages st' = messages st
     /\ currentInputTransRef st' = accIn
     /\ currentOutputTransRef st' = accOut)
  /\ nextStartTimeRef st' = nextStartTimeRef st
  /\ forallb (fun e => negb (isPlayback e)) (emitted (OnMessage message dates) st)
     = true
  /\ forall b64 ctx bytes,
       base64Audio message = Some b64 -> truthy b64 = true ->
       outputContextRef st = Some ctx ->
       base64ToUint8Array b64 = Some bytes ->
       exists before,
         pending st'
         = before ++ [MessageAwaitDecode ctx
                        (decodeAudioData bytes ctx AUDIO_OUTPUT_SAMPLE_RATE)].
Proof.
  cbv zeta.
  rewrite (step_field messages), (step_field currentInputTransRef),
    (step_field currentOutputTransRef), (step_field nextStartTimeRef),
    (step_field pending) by (intros ?; reflexivity).
  unfold emitted, effectsOf, stateAfter, handle, onmessage.
  destruct (handleToolCalls_run message st) as (dl & t1 & o1 & H1 & P1).
  rewrite (bind_run _ _ H1).
  destruct (handleTranscriptions_run message dates
              (set_pending (pending st ++ t1) (set_detectedLanguage dl st)))
    as (st2 & o2 & H2 & T & Hp & Hc & Hn & _ & P2).
  rewrite (bind_run _ _ H2).
  destruct (handleAudioOutput_run message st2) as (r & t3 & H3 & A3).
  rewrite H3. cbn [fst snd].
  assert (F1 : messages (set_pending (pending st ++ t1) (set_detectedLanguage dl st))
               = messages st) by (destruct st; reflexivity).
  assert (F2 : currentInputTransRef
                 (set_pending (pending st ++ t1) (set_detectedLanguage dl st))
               = currentInputTransRef st) by (destruct st; reflexivity).
  assert (F3 : currentOutputTransRef
                 (set_pending (pending st ++ t1) (set_detectedLanguage dl st))
               = currentOutputTransRef st) by (destruct st; reflexivity).
  assert (F4 : nextStartTimeRef
                 (set_pending (pending st ++ t1) (set_detectedLanguage dl st))
               = nextStartTimeRef st) by (destruct st; reflexivity).
  assert (F5 : outputContextRef
                 (set_pending (pending st ++ t1) (set_detectedLanguage dl st))
               = outputContextRef st) by (destruct st; reflexivity).
  rewrite F1, F2, F3 in T. rewrite F4 in Hn. rewrite F5 in Hc.
  split; [|split; [|split]].
  - destruct st2; exact T.
  - destruct st2; exact Hn.
  - rewrite app_nil_r, forallb_app. apply andb_true_iff. split.
    + eapply forallb_forall. intros x Hx.
      pose proof (proj1 (forallb_forall _ _) P1 x Hx) as Q.
      apply andb_true_iff in Q. destruct Q as [Q _].
      apply andb_true_iff in Q. apply Q.
    + eapply forallb_forall. intros x Hx.
      pose proof (proj1 (forallb_forall _ _) P2 x Hx) as Q.
      apply andb_true_iff in Q. apply Q.
  - intros b64 ctx bytes B1 B2 B3 B4. rewrite <- Hc in B3.
    rewrite (A3 b64 ctx bytes B1 B2 B3 B4).
    exists (pending st2). destruct st2; reflexivity.
Qed.

Lemma run_cons e es st : run (e :: es) st = run es (step e st).
Proof. reflexivity. Qed.

Lemma accumulated ms : forall st,
  Forall (fun md => isTurnComplete (fst md) = false) ms ->
  currentInputTransRef (run (messageEvents ms) st)
    = currentInputTransRef st ++ inputFragments ms
  /\ currentOutputTransRef (run (messageEvents ms) st)
     = currentOutputTransRef st ++ outputFragments ms
  /\ messages (run (messageEvents ms) st) = messages st.
Proof.
  induction ms as [|[m d] ms IH]; intros st H.
  - cbn. rewrite !app_nil_r. repeat split; reflexivity.
  - inversion H as [|x l Hm Hms]; subst. cbn [fst] in Hm.
    change (messageEvents ((m, d) :: ms))
      with (OnMessage m d :: messageEvents ms).
    rewrite run_cons.
    destruct (IH (step (OnMessage m d) st) Hms) as (I1 & I2 & I3).
    destruct (onmessage_step m d st) as (T & _). cbv zeta in T.
    rewrite Hm in T. destruct T as (T1 & T2 & T3).
    rewrite I1, I2, I3, T1, T2, T3. unfold inputFragments, outputFragments.
    cbn [map concat fst]. rewrite <- !app_assoc. repeat split; reflexivity.
Qed.

(** C4.  Transcription fragments are appended to the two buffers in the
    order the messages arrive; the message that completes the turn has
    its own fragments appended first, then, if the trimmed input or the
    trimmed output is non-empty, a 'user' message with the trimmed input
    and after it a 'model' message with the trimmed output are appended
    to the chat list, and nothing otherwise; either way both buffers are
    emptied. *)
Theorem transcript_assembly :
  forall st ms message dates,
    Forall (fun md => isTurnComplete (fst md) = false) ms ->
    isTurnComplete message = true ->
    let st1 := run (messageEvents ms) st in
    let st2 := step (OnMessage message dates) st1 in
    let userText :=
      trim (currentInputTransRef st ++ inputFragments ms
            ++ fragment (inputTxt message)) in
    let modelText :=
      trim (currentOutputTransRef st ++ outputFragments ms
            ++ fragment (outputTxt message)) in
    (currentInputTransRef st1 = currentInputTransRef st ++ inputFragments ms
     /\ currentOutputTransRef st1 = currentOutputTransRef st ++ outputFragments ms
     /\ messages st1 = messages st)
    /\ messages st2
       = messages st
         ++ (if truthy userText || truthy modelText then
               [ {| id := toString (userId dates); text := userText;
                    sender := user; timestamp := userStamp dates;
                    language := None; isTranslating := None |};
                 {| id := toString (modelId dates + 1); text := modelText;
                    sender := model; timestamp := modelStamp dates;
                    language := None; isTranslating := None |} ]
             else [])
    /\ currentInputTransRef st2 = []
    /\ currentOutputTransRef st2 = [].
Proof.
  intros st ms message dates Hms Hm. cbv zeta.
  destruct (accumulated st Hms) as (A1 & A2 & A3).
  split; [repeat split; assumption|].
  destruct (onmessage_step message dates (run (messageEvents ms) st)) as (T & _).
  cbv zeta in T. rewrite Hm in T. destruct T as (T1 & T2 & T3).
  rewrite T1, T2, T3, A1, A2, A3, <- !app_assoc. repeat split; reflexivity.
Qed.

(** *** The chat list *)

Lemma handle_preserves_messages e :
  match e with OnMessage _ _ => False | _ => True end ->
  preserves messages (handle e).
Proof. destruct e; intros H; try contradiction; open_hook; frame. Qed.

Lemma step_messages e st :
  messages (step e st) = messages st
  \/ exists u m d, messages (step e st) = messages st ++ turnMessages u m d.
Proof.
  destruct e as [props throwAt| |i ok t|t|m d| | |n b|n];
    try (left; rewrite (step_field messages) by (intros ?; reflexivity);
         apply handle_preserves_messages; exact I).
  destruct (onmessage_step m d st) as (T & _). cbv zeta in T.
  destruct (isTurnComplete m); [|left; apply T].
  destruct T as (T & _).
  destruct (truthy _ || truthy _).
  - right. eexists; eexists; eexists. exact T.
  - left. rewrite T. apply app_nil_r.
Qed.

Lemma userModelPairs_app l u m d :
  userModelPairs l = true -> userModelPairs (l ++ turnMessages u m d) = true.
Proof.
  revert l. fix IH 1. intros [|a [|b l]] H; try discriminate.
  - reflexivity.
  - cbn in H |- *. destruct (sender a), (sender b); try discriminate.
    apply IH. exact H.
Qed.

Lemma reachable_pairs st : reachable st -> userModelPairs (messages st) = true.
Proof.
  induction 1 as [|e st Hr IH]; [reflexivity|].
  destruct (step_messages e st) as [H|(u & m & d & H)]; rewrite H.
  - exact IH.
  - apply userModelPairs_app. exact IH.
Qed.

Lemma pairs_alternate l :
  userModelPairs l = true ->
  Nat.even (length l) = true
  /\ forall i m, nth_error l i = Some m ->
       sender m = if Nat.even i then user else model.
Proof.
  revert l. fix IH 1. intros [|a [|b l]] H; try discriminate.
  - split; [reflexivity|]. intros [|i] m Hm; discriminate.
  - cbn in H. destruct (sender a) eqn:Sa; [|discriminate].
    destruct (sender b) eqn:Sb; [discriminate|].
    destruct (IH l H) as [He Hi]. split; [exact He|].
    intros [|[|i]] m Hm.
    + inversion Hm; subst. exact Sa.
    + inversion Hm; subst. exact Sb.
    + exact (Hi i m Hm).
Qed.

(** C9.  In every reachable state the chat list is made of user/model
    pairs: its length is even, a message at an even index is a 'user'
    message and a message at an odd index is a 'model' message.  A step
    either leaves the list as it is or appends one 'user' message
    followed by one 'model' message. *)
Theorem chat_list_is_user_model_pairs :
  (forall st, reachable st ->
     Nat.even (length (messages st)) = true
     /\ forall i m, nth_error (messages st) i = Some m ->
          sender m = if Nat.even i then user else model)
  /\ forall e st,
       messages (step e st) = messages st
       \/ exists u m,
            messages (step e st) = messages st ++ [u; m]
            /\ sender u = user /\ sender m = model.
Proof.
  split.
  - intros st Hr. apply pairs_alternate, reachable_pairs, Hr.
  - intros e st. destruct (step_messages e st) as [H|(u & m & d & H)];
      [left; exact H|right].
    unfold turnMessages in H. eexists; eexists.
    split; [exact H|split; reflexivity].
Qed.

(** *** Playback *)

Lemma ltb_true a b : ltb a b = true -> a < b.
Proof.
  unfold ltb. intros H. apply negb_true_iff in H.
  apply Qnot_le_lt. intros L. apply Qle_bool_iff in L. congruence.
Qed.

Lemma ltb_false a b : ltb a b = false -> b <= a.
Proof.
  unfold ltb. intros H. apply negb_false_iff in H.
  apply Qle_bool_iff. exact H.
Qed.

(** *** Rounding *)











(** The continuation of the handler, when the buffer was decoded. *)
Lemma onmessage_resume_run ctx buffer now st :
  let start :=
    if ltb (nextStartTimeRef st) now then plus64 now (binary64 (1 # 20))
    else nextStartTimeRef st in
  exists st' out,
    onmessage_resume ctx (Some buffer) now st = (Ok tt, st', out)
    /\ playbackSchedule out = [(nextHandle st, start)]
    /\ startTimes out = [start]
    /\ bufferDurations out = [duration buffer]
    /\ nextStartTimeRef st' = plus64 start (duration buffer).
Proof.
  cbv zeta. unfold onmessage_resume.
  destruct st as [cs dl ms ic oc ia oa pr sr str sp nst sch ci co pe nh lg].
  cbn [nextStartTimeRef nextHandle].
  destruct oa; destruct (ltb nst now) eqn:L; unfold bind; cbn; rewrite L; cbn;
    eexists; eexists; repeat split; reflexivity.
Qed.

Lemma settle_decoded i ok now st ctx buffer :
  nth_error (pending st) i = Some (MessageAwaitDecode ctx (Some buffer)) ->
  let start :=
    if ltb (nextStartTimeRef st) now then plus64 now (binary64 (1 # 20))
    else nextStartTimeRef st in
  playbackSchedule (emitted (Settle i ok now) st) = [(nextHandle st, start)]
  /\ startTimes (emitted (Settle i ok now) st) = [start]
  /\ bufferDurations (emitted (Settle i ok now) st) = [duration buffer]
  /\ nextStartTimeRef (step (Settle i ok now) st)
     = plus64 start (duration buffer).
Proof.
  intros E. cbv zeta.
  rewrite (step_field nextStartTimeRef) by (intros ?; reflexivity).
  unfold emitted, effectsOf, stateAfter.
  rewrite (@handle_settle i ok now st _ E). cbn [resume].
  destruct (onmessage_resume_run ctx buffer now
              (set_pending (removeNth i (pending st)) st))
    as (st' & out & H & H1 & H2 & H3 & H4).
  rewrite H. cbn [fst snd].
  replace (nextStartTimeRef (set_pending (removeNth i (pending st)) st))
    with (nextStartTimeRef st) in * by (destruct st; reflexivity).
  replace (nextHandle (set_pending (removeNth i (pending st)) st))
    with (nextHandle st) in * by (destruct st; reflexivity).
  repeat split; assumption.
Qed.

Lemma no_playback l :
  forallb (fun e => negb (isPlayback e)) l = true ->
  startTimes l = [] /\ bufferDurations l = [].
Proof.
  induction l as [|a l IH]; cbn; [split; reflexivity|].
  intros H. apply andb_true_iff in H. destruct H as [Ha Hl].
  specialize (IH Hl). unfold startTimes, bufferDurations in *.
  destruct a; cbn in *; try exact IH; discriminate.
Qed.









Lemma chained_weaken lo lo' l : lo' <= lo -> chained lo l -> chained lo' l.
Proof.
  destruct l as [|s l]; [trivial|]. intros L (H1 & H2 & H3).
  split; [|split; assumption]. eapply Qle_trans; eassumption.
Qed.







(** *** Capture *)

Lemma skipn_app_exact A (a b : list A) : skipn (length a) (a ++ b) = b.
Proof. induction a as [|x a IH]; [reflexivity|exact IH]. Qed.

Lemma handle_processors e : emitsOnly processorAsConfigured (handle e).
Proof. destruct e; open_hook; quiet. Qed.

Lemma reachable_processors st :
  reachable st -> forallb processorAsConfigured (log st) = true.
Proof.
  induction 1 as [|e st Hr IH]; [reflexivity|].
  rewrite log_step, forallb_app, IH. apply handle_processors.
Qed.

Lemma processors_configured l node cfg :
  forallb processorAsConfigured l = true ->
  In (node, cfg) (processorsCreated l) -> cfg = (4096, 1, 1)%Z.
Proof.
  induction l as [|a l IH]; [intros _ []|].
  intros H. cbn in H. apply andb_true_iff in H. destruct H as [Ha Hl].
  unfold processorsCreated in *. cbn [flat_map]. intros Hin.
  apply in_app_or in Hin. destruct Hin as [Hin|Hin]; [|exact (IH Hl Hin)].
  destruct a; try contradiction. cbn in Ha, Hin.
  destruct Hin as [Hin|[]]. inversion Hin; subst.
  apply andb_true_iff in Ha. destruct Ha as [Ha H3].
  apply andb_true_iff in Ha. destruct Ha as [H1 H2].
  apply Z.eqb_eq in H1, H2, H3. subst. reflexivity.
Qed.

Lemma onaudioprocess_step node inputBuffer channel st :
  hasHandler (SetOnAudioProcess node) (log st) = true ->
  nth_error inputBuffer 0 = Some channel ->
  emitted (OnAudioProcess node inputBuffer) st = []
  /\ registered (OnAudioProcess node inputBuffer) st
     = match sessionPromiseRef st with
       | Some p =>
           [ThenSendRealtimeInput p
              (createPcmBlob channel AUDIO_INPUT_SAMPLE_RATE)]
       | None => []
       end.
Proof.
  intros Hh Hc. unfold registered.
  destruct inputBuffer as [|c rest]; [discriminate|].
  cbn in Hc. inversion Hc; subst.
  rewrite (step_field pending) by (intros ?; reflexivity).
  unfold emitted, effectsOf, stateAfter, handle, onaudioprocess, bind.
  cbn. rewrite Hh. cbn.
  destruct (sessionPromiseRef st); cbn.
  - split; [reflexivity|]. destruct st; cbn. apply skipn_app_exact.
  - split; [reflexivity|]. rewrite <- (app_nil_r (pending st)) at 2.
    apply skipn_app_exact.
Qed.

Lemma settle_send i ok t st p media :
  nth_error (pending st) i = Some (ThenSendRealtimeInput p media) ->
  emitted (Settle i ok t) st = if ok then [SendRealtimeInput p media] else [].
Proof.
  intros E. unfold emitted, effectsOf.
  rewrite (@handle_settle i ok t st _ E). cbn [resume].
  destruct ok; reflexivity.
Qed.

(** C3, as the code has it.  Every script processor the hook creates is
    created for blocks of 4096 frames with one input and one output
    channel, so a buffer delivered to the handler has one channel of
    4096 samples.  For each delivered buffer the handler reads channel 0
    and encodes it as a PCM blob, making no call of its own; if a session
    promise is held it leaves exactly one [sendRealtimeInput] of that
    blob waiting on the promise, which is made when the promise is
    fulfilled and dropped when it is rejected; if no session promise is
    held the chunk is dropped. *)
Theorem chunk_forwarded_while_session_held :
  forall st node inputBuffer,
    reachable st ->
    hasHandler (SetOnAudioProcess node) (log st) = true ->
    deliveredAsConfigured (log st) node inputBuffer ->
    exists channel,
      inputBuffer = [channel] /\ length channel = 4096%nat
      /\ emitted (OnAudioProcess node inputBuffer) st = []
      /\ registered (OnAudioProcess node inputBuffer) st
         = match sessionPromiseRef st with
           | Some p =>
               [ThenSendRealtimeInput p
                  (createPcmBlob channel AUDIO_INPUT_SAMPLE_RATE)]
           | None => []
           end
      /\ forall st2 i p media fulfilled t,
           nth_error (pending st2) i = Some (ThenSendRealtimeInput p media) ->
           emitted (Settle i fulfilled t) st2
           = if fulfilled then [SendRealtimeInput p media] else [].
Proof.
  intros st node inputBuffer Hr Hh (size & nIn & nOut & Hin & Hn & Hs).
  pose proof (processors_configured _ _ _ (reachable_processors Hr) Hin) as C.
  injection C as C1 C2 C3. rewrite C2 in Hn. rewrite C1 in Hs.
  destruct inputBuffer as [|channel [|c2 rest]]; cbn [length] in Hn; try lia.
  exists channel. inversion Hs as [|x l Hc Hl]; subst x l.
  split; [reflexivity|]. split; [lia|].
  destruct (@onaudioprocess_step node [channel] channel st Hh eq_refl) as [E1 E2].
  split; [exact E1|]. split; [exact E2|].
  intros st2 i p media ok t E. apply settle_send. exact E.
Qed.

Lemma reachable_run es : forall st, reachable st -> reachable (run es st).
Proof.
  induction es as [|e es IH]; intros st H; [exact H|].
  apply IH. constructor. exact H.
Qed.

(** *** The visualizers *)

Lemma hook_withCanvas side l app : hook (withCanvas side l app) = hook app.
Proof. destruct side; reflexivity. Qed.

Lemma canvasOf_withCanvas side l app : canvasOf side (withCanvas side l app) = l.
Proof. destruct side; reflexivity. Qed.

Lemma withCanvas_twice side l l' app :
  withCanvas side l' (withCanvas side l app) = withCanvas side l' app.
Proof. destruct side; reflexivity. Qed.

Lemma withCanvas_same side app : withCanvas side (canvasOf side app) app = app.
Proof. destruct side, app; reflexivity. Qed.

Lemma canvasOf_other side other l app :
  other <> side -> canvasOf other (withCanvas side l app) = canvasOf other app.
Proof. destruct side, other; intros H; try reflexivity; contradiction. Qed.

Lemma rbind_run A B (m : Render A) (k : A -> Render B) app a app' :
  m app = (a, app') -> rbind m k app = k a app'.
Proof. intros H. unfold rbind. rewrite H. reflexivity. Qed.

Arguments rbind_run {A B} m k {app a app'} _.

Lemma onCanvas_run side c app :
  onCanvas side c app = (tt, withCanvas side (canvasOf side app ++ [c]) app).
Proof. reflexivity. Qed.

Lemma fromHook_run A (f : State -> A) app : fromHook f app = (f (hook app), app).
Proof. reflexivity. Qed.

(** The loop run in the application makes the calls of [drawLoop] on the
    canvas of its side, and nothing else. *)
Lemma drawLoopOn_run side dataArray : forall i x sliceWidth height app,
  drawLoopOn side dataArray i x sliceWidth height app
  = (tt, withCanvas side
           (canvasOf side app ++ drawLoop dataArray i x sliceWidth height)
           app).
Proof.
  induction dataArray as [|d rest IH]; intros i x sliceWidth height app.
  - cbn [drawLoopOn drawLoop]. rewrite app_nil_r, withCanvas_same.
    reflexivity.
  - cbn [drawLoopOn drawLoop].
    rewrite (rbind_run _ _ (onCanvas_run side _ app)).
    rewrite IH, withCanvas_twice, canvasOf_withCanvas, <- app_assoc.
    reflexivity.
Qed.

(** So does [draw]. *)
Lemma drawOn_run side a reading app :
  drawOn side a reading app
  = (tt, withCanvas side
           (canvasOf side app
            ++ draw (frequencyBinCount a (log (hook app))) reading
                 (colorProp side) 300 60)
           app).
Proof.
  unfold drawOn, draw.
  rewrite (rbind_run _ _ (fromHook_run _ app)). cbv zeta.
  repeat rewrite (rbind_run _ _ (onCanvas_run side _ _)).
  rewrite (rbind_run _ _ (drawLoopOn_run side _ _ _ _ _ _)).
  rewrite (rbind_run _ _ (onCanvas_run side _ _)), onCanvas_run.
  rewrite ?withCanvas_twice, ?canvasOf_withCanvas.
  rewrite <- !app_assoc. reflexivity.
Qed.

Lemma animationFrame_run side reading app :
  animationFrame side reading app
  = (tt, withCanvas side (canvasOf side app ++ frame side reading (hook app))
           app).
Proof.
  unfold animationFrame, frame.
  rewrite (rbind_run _ _ (fromHook_run _ app)).
  rewrite (rbind_run _ _ (fromHook_run _ app)). unfold rret.
  destruct (analyserProp side (hook app)) as [a|].
  - destruct (isActive (hook app)).
    + apply drawOn_run.
    + rewrite app_nil_r, withCanvas_same. reflexivity.
  - rewrite app_nil_r, withCanvas_same. reflexivity.
Qed.

Lemma frame_leaves_hook side reading app :
  hook (appStep (AnimationFrame side reading) app) = hook app.
Proof.
  cbn [appStep]. rewrite animationFrame_run. apply hook_withCanvas.
Qed.

(** What the analyser holds reaches the ordinates only. *)
Lemma drawLoop_withoutOrdinate d1 : forall d2 i x sliceWidth height,
  length d1 = length d2 ->
  map withoutOrdinate (drawLoop d1 i x sliceWidth height)
  = map withoutOrdinate (drawLoop d2 i x sliceWidth height).
Proof.
  induction d1 as [|a d1 IH]; intros [|b d2] i x sliceWidth height H;
    try discriminate; [reflexivity|].
  cbn [drawLoop map]. rewrite (IH d2) by (injection H as H; exact H).
  destruct (Nat.eqb i 0); reflexivity.
Qed.

Lemma draw_withoutOrdinate n r1 r2 color width height :
  map withoutOrdinate (draw n r1 color width height)
  = map withoutOrdinate (draw n r2 color width height).
Proof.
  unfold draw. rewrite !map_app.
  rewrite (@drawLoop_withoutOrdinate (getByteTimeDomainData n r1)
             (getByteTimeDomainData n r2)); [reflexivity|].
  unfold getByteTimeDomainData.
  rewrite !length_firstn, !length_app, !repeat_length. lia.
Qed.

Lemma frame_withoutOrdinate side r1 r2 st :
  map withoutOrdinate (frame side r1 st)
  = map withoutOrdinate (frame side r2 st).
Proof.
  unfold frame. destruct (analyserProp side st); [|reflexivity].
  destruct (isActive st); [|reflexivity]. apply draw_withoutOrdinate.
Qed.

Lemma drawLoop_ordinateOf dataArray : forall i x sliceWidth height,
  ordinates (drawLoop dataArray i x sliceWidth height)
  = map (ordinateOf height) dataArray.
Proof.
  induction dataArray as [|d rest IH]; intros i x sliceWidth height;
    [reflexivity|].
  cbn [drawLoop map]. unfold ordinates in *. cbn [flat_map].
  rewrite IH. destruct (Nat.eqb i 0); reflexivity.
Qed.

Lemma draw_ordinateOf n reading color width height :
  ordinates (draw n reading color width height)
  = map (ordinateOf height) (getByteTimeDomainData n reading) ++ [height / 2].
Proof.
  unfold draw.
  assert (O : forall l l', ordinates (l ++ l') = ordinates l ++ ordinates l')
    by (intros; apply flat_map_app).
  rewrite !O, drawLoop_ordinateOf. reflexivity.
Qed.

Lemma appStep_sameButOrdinates e1 e2 app1 app2 :
  sameButReading e1 e2 -> sameButOrdinates app1 app2 ->
  sameButOrdinates (appStep e1 app1) (appStep e2 app2).
Proof.
  intros S [H C]. destruct S as [e|side r1 r2].
  - split; [cbn; rewrite H; reflexivity|].
    intros side. specialize (C side). destruct side; exact C.
  - cbn [appStep]. rewrite !animationFrame_run. cbn [snd].
    split; [rewrite !hook_withCanvas; exact H|].
    intros other. destruct (Side_eq_dec other side) as [->|N].
    + rewrite !canvasOf_withCanvas, !map_app, C, H.
      rewrite (frame_withoutOrdinate side r1 r2). reflexivity.
    + rewrite !canvasOf_other by exact N. apply C.
Qed.

Lemma appRun_sameButOrdinates es1 es2 :
  Forall2 sameButReading es1 es2 ->
  forall app1 app2, sameButOrdinates app1 app2 ->
    sameButOrdinates (appRun es1 app1) (appRun es2 app2).
Proof.
  induction 1 as [|e1 e2 es1 es2 S _ IH]; intros app1 app2 H; [exact H|].
  cbn. apply IH. apply appStep_sameButOrdinates; assumption.
Qed.

(** C6.  What the analysers hold reaches the canvases only, and there
    the ordinates only.  An animation frame, run in the application,
    leaves the hook as it is and makes the calls of [draw] on the canvas
    of its visualizer; of these calls only the ordinates of the points
    depend on what the analyser holds, each sample giving the ordinate of
    one point.  Two runs of the application that are the same but for
    the analyser readings end with the same hook state, hence with the
    same chunks sent to the session, the same chat messages and the same
    playback schedule, and with canvases that are the same but for the
    ordinates. *)
Theorem analyser_readings_do_not_interfere :
  (forall side reading app,
     let app' := appStep (AnimationFrame side reading) app in
     hook app' = hook app
     /\ canvasOf side app' = canvasOf side app ++ frame side reading (hook app)
     /\ forall other, other <> side ->
          canvasOf other app' = canvasOf other app)
  /\ (forall side r1 r2 st,
        map withoutOrdinate (frame side r1 st)
        = map withoutOrdinate (frame side r2 st))
  /\ (forall side reading st a,
        analyserProp side st = Some a -> isActive st = true ->
        ordinates (frame side reading st)
        = map (ordinateOf 60)
            (getByteTimeDomainData (frequencyBinCount a (log st)) reading)
          ++ [60 / 2])
  /\ forall es1 es2 app,
       Forall2 sameButReading es1 es2 ->
       let h1 := hook (appRun es1 app) in
       let h2 := hook (appRun es2 app) in
       h1 = h2
       /\ sentChunks (log h1) = sentChunks (log h2)
       /\ messages h1 = messages h2
       /\ playbackSchedule (log h1) = playbackSchedule (log h2)
       /\ forall side,
            map withoutOrdinate (canvasOf side (appRun es1 app))
            = map withoutOrdinate (canvasOf side (appRun es2 app)).
Proof.
  split; [|split; [exact frame_withoutOrdinate|split]].
  - intros side reading app. cbv zeta. cbn [appStep].
    rewrite animationFrame_run. cbn [snd].
    split; [apply hook_withCanvas|].
    split; [apply canvasOf_withCanvas|].
    intros other N. apply canvasOf_other. exact N.
  - intros side reading st a Ha Hi. unfold frame. rewrite Ha, Hi.
    apply draw_ordinateOf.
  - intros es1 es2 app S. cbv zeta.
    destruct (@appRun_sameButOrdinates es1 es2 S app app) as [H C].
    { split; reflexivity. }
    rewrite H. repeat split; try reflexivity. exact C.
Qed.

(* ------------------------------------------------------------------ *)
(** ** Further properties of the hook *)

(** *** Settling the task that was suspended last *)

Lemma nth_error_snoc A (l : list A) x : nth_error (l ++ [x]) (length l) = Some x.
Proof. induction l as [|a l IH]; [reflexivity|exact IH]. Qed.

Lemma removeNth_snoc A (l : list A) x : removeNth (length l) (l ++ [x]) = l.
Proof.
  unfold removeNth. induction l as [|a l IH]; [reflexivity|].
  cbn [length app firstn skipn] in *. rewrite IH. reflexivity.
Qed.

Lemma handle_settle_last l task ok t st :
  pending st = l ++ [task] ->
  handle (Settle (length l) ok t) st = resume task ok t (set_pending l st).
Proof.
  intros H.
  rewrite (@handle_settle (length l) ok t st task)
    by (rewrite H; apply nth_error_snoc).
  rewrite H, removeNth_snoc. reflexivity.
Qed.

(** *** [connect] at its edges *)

Lemma connect_without_key props throwAt st :
  truthy (apiKey props) = false ->
  handle (CallConnect props throwAt) st
  = (Ok tt, st, [Alert (lit "Please provide a valid API Key.")]).
Proof. intros H. unfold handle, connect. rewrite H. reflexivity. Qed.

Lemma apiKeyOf_falsy env : truthyOpt env = false -> truthy (apiKeyOf env) = false.
Proof.
  destruct env as [k|]; cbn; [|reflexivity].
  intros H. rewrite H. reflexivity.
Qed.

(** X1.  Without an API key in the environment the button, pressed while
    the hook is idle (DISCONNECTED or ERROR), shows the alert and does
    nothing else: the state is as it was, no audio context is created,
    the microphone is not asked for. *)
Theorem toggle_without_api_key_only_alerts :
  forall languages env targetLangCode throwAt st,
    truthyOpt env = false ->
    connectionState st = DISCONNECTED \/ connectionState st = ERROR ->
    let e := toggleConnection (appProps languages env targetLangCode)
               throwAt st in
    emitted e st = [Alert (lit "Please provide a valid API Key.")]
    /\ step e st
       = set_log (log st ++ [Alert (lit "Please provide a valid API Key.")]) st.
Proof.
  intros languages env targetLangCode throwAt st He Hs. cbv zeta.
  assert (E : toggleConnection (appProps languages env targetLangCode) throwAt st
              = CallConnect (appProps languages env targetLangCode) throwAt).
  { unfold toggleConnection. destruct Hs as [-> | ->]; reflexivity. }
  rewrite E. unfold step, exec, emitted, effectsOf.
  rewrite connect_without_key by (apply apiKeyOf_falsy; exact He).
  split; reflexivity.
Qed.

(** The first part of [connect], when nothing throws. *)
Lemma connect_first_part props st :
  truthy (apiKey props) = true ->
  let n := nextHandle st in
  let out :=
    [SetConnectionState CONNECTING; NewGoogleGenAI (apiKey props);
     NewAudioContext n AUDIO_INPUT_SAMPLE_RATE;
     NewAudioContext (S n) AUDIO_OUTPUT_SAMPLE_RATE;
     CreateAnalyser n (S (S n)); CreateAnalyser (S n) (S (S (S n)));
     SetFftSize (S (S n)) 256; SetFftSize (S (S (S n))) 256; GetUserMedia] in
  handle (CallConnect props None) st
  = (Ok tt,
     set_pending (pending st ++ [ConnectAwaitUserMedia props])
       (set_nextHandle (S (S (S (S n))))
         (set_outputAnalyserRef (Some (S (S (S n))))
           (set_inputAnalyserRef (Some (S (S n)))
             (set_outputContextRef (Some (S n))
               (set_inputContextRef (Some n)
                 (set_connectionState CONNECTING st)))))),
     out).
Proof.
  intros H. cbv zeta. unfold handle, connect.
  rewrite H. destruct st. reflexivity.
Qed.

(** X2.  When the microphone is refused, [connect] ends in ERROR and
    releases nothing: the two audio contexts it has just created stay
    referenced and open, no session is asked for. *)
Theorem refused_microphone_leaves_contexts_open :
  forall props st t,
    truthy (apiKey props) = true ->
    let st1 := step (CallConnect props None) st in
    let st2 := step (Settle (length (pending st)) false t) st1 in
    connectionState st2 = ERROR
    /\ inputContextRef st2 = Some (nextHandle st)
    /\ outputContextRef st2 = Some (S (nextHandle st))
    /\ streamRef st2 = streamRef st
    /\ sessionPromiseRef st2 = sessionPromiseRef st
    /\ emitted (Settle (length (pending st)) false t) st1
       = [ConsoleError (lit "Connection failed:"); SetConnectionState ERROR]
    /\ forallb (fun e => negb (isTeardown e))
         (emitted (CallConnect props None) st
          ++ emitted (Settle (length (pending st)) false t) st1) = true.
Proof.
  intros props st t H. cbv zeta.
  pose proof (connect_first_part props st H) as E. cbv zeta in E.
  unfold step, exec, emitted, effectsOf. rewrite E. cbn [fst snd].
  rewrite (@handle_settle_last (pending st) (ConnectAwaitUserMedia props))
    by (destruct st; reflexivity).
  destruct st; cbn. repeat split; reflexivity.
Qed.

(** X3.  If [disconnect] has cleared the input context while the
    microphone was being asked for, the continuation of [connect]
    stores the stream it is given and then throws: the status is ERROR,
    the stream stays referenced, and nothing stops its tracks; no
    session is asked for. *)
Theorem late_microphone_is_left_running :
  forall st i props t,
    nth_error (pending st) i = Some (ConnectAwaitUserMedia props) ->
    inputContextRef st = None ->
    let st' := step (Settle i true t) st in
    connectionState st' = ERROR
    /\ streamRef st' = Some (nextHandle st)
    /\ sessionPromiseRef st' = sessionPromiseRef st
    /\ emitted (Settle i true t) st
       = [ConsoleError (lit "Connection failed:"); SetConnectionState ERROR].
Proof.
  intros st i props t E Hc. cbv zeta.
  unfold step, exec, emitted, effectsOf.
  rewrite (@handle_settle i true t st _ E). cbn [resume].
  destruct st; cbn in *. subst. repeat split; reflexivity.
Qed.

(** *** Steps as equations *)

Lemma step_of_run e st r st' out :
  handle e st = (r, st', out) ->
  step e st = set_log (log st' ++ out) st' /\ emitted e st = out.
Proof.
  intros H. unfold step, exec, emitted, effectsOf. rewrite H.
  split; reflexivity.
Qed.

Lemma step_connect props st :
  truthy (apiKey props) = true ->
  let n := nextHandle st in
  let out :=
    [SetConnectionState CONNECTING; NewGoogleGenAI (apiKey props);
     NewAudioContext n AUDIO_INPUT_SAMPLE_RATE;
     NewAudioContext (S n) AUDIO_OUTPUT_SAMPLE_RATE;
     CreateAnalyser n (S (S n)); CreateAnalyser (S n) (S (S (S n)));
     SetFftSize (S (S n)) 256; SetFftSize (S (S (S n))) 256; GetUserMedia] in
  step (CallConnect props None) st
  = set_log (log st ++ out)
      (set_pending (pending st ++ [ConnectAwaitUserMedia props])
        (set_nextHandle (S (S (S (S n))))
          (set_outputAnalyserRef (Some (S (S (S n))))
            (set_inputAnalyserRef (Some (S (S n)))
              (set_outputContextRef (Some (S n))
                (set_inputContextRef (Some n)
                  (set_connectionState CONNECTING st)))))))
  /\ emitted (CallConnect props None) st = out.
Proof.
  intros H. cbv zeta.
  destruct (@step_of_run (CallConnect props None) st _ _ _
              (connect_first_part props st H)) as [S1 O1].
  cbv zeta in S1, O1. rewrite S1, O1. split; [|reflexivity].
  destruct st; reflexivity.
Qed.

(** The continuation of [connect], when the microphone is granted and
    the references it needs are set. *)
Lemma connect_second_part props st c a :
  inputContextRef st = Some c ->
  inputAnalyserRef st = Some a ->
  let n := nextHandle st in
  connect_resume props true st
  = (Ok tt,
     set_sessionPromiseRef (Some (3 + n)%nat)
       (set_nextHandle (4 + n)%nat
         (set_processorRef (Some (2 + n)%nat)
           (set_sourceRef (Some (1 + n)%nat)
             (set_streamRef (Some n) st)))),
     [CreateMediaStreamSource c n (1 + n);
      CreateScriptProcessor c (2 + n) 4096 1 1;
      Connect (1 + n) (Node a); Connect a (Node (2 + n));
      Connect (2 + n) (Destination c);
      LiveConnect (3 + n) GEMINI_MODEL (targetLanguage props)]).
Proof.
  intros Hc Ha. cbv zeta. unfold connect_resume.
  destruct st; cbn in Hc, Ha; subst. reflexivity.
Qed.

Lemma step_granted l props c a t st :
  pending st = l ++ [ConnectAwaitUserMedia props] ->
  inputContextRef st = Some c ->
  inputAnalyserRef st = Some a ->
  let n := nextHandle st in
  let out :=
    [CreateMediaStreamSource c n (1 + n);
     CreateScriptProcessor c (2 + n) 4096 1 1;
     Connect (1 + n) (Node a); Connect a (Node (2 + n));
     Connect (2 + n) (Destination c);
     LiveConnect (3 + n) GEMINI_MODEL (targetLanguage props)] in
  step (Settle (length l) true t) st
  = set_log (log st ++ out)
      (set_sessionPromiseRef (Some (3 + n)%nat)
        (set_nextHandle (4 + n)%nat
          (set_processorRef (Some (2 + n)%nat)
            (set_sourceRef (Some (1 + n)%nat)
              (set_streamRef (Some n) (set_pending l st))))))
  /\ emitted (Settle (length l) true t) st = out.
Proof.
  intros Hp Hc Ha. cbv zeta.
  assert (Hc' : inputContextRef (set_pending l st) = Some c)
    by (destruct st; assumption).
  assert (Ha' : inputAnalyserRef (set_pending l st) = Some a)
    by (destruct st; assumption).
  pose proof (@connect_second_part props (set_pending l st) c a Hc' Ha') as R.
  cbv zeta in R.
  pose proof (@handle_settle_last l (ConnectAwaitUserMedia props) true t st Hp)
    as HS.
  cbn [resume] in HS. rewrite R in HS.
  destruct (@step_of_run _ _ _ _ _ HS) as [S1 O1].
  rewrite S1, O1. split; [|destruct st; reflexivity].
  destruct st; reflexivity.
Qed.

Lemma onopen_run t st :
  onopen t st
  = (Ok tt,
     set_nextStartTimeRef
       (match outputContextRef st with
        | Some _ => orElse t 0
        | None => 0
        end) (set_connectionState CONNECTED st),
     SetConnectionState CONNECTED :: optEffect (processorRef st) SetOnAudioProcess).
Proof.
  unfold onopen.
  destruct st as [cs dl ms ic oc ia oa pr sr str sp nst sch ci co pe nh lg].
  destruct pr; reflexivity.
Qed.

Lemma step_onopen t st :
  step (OnOpen t) st
  = set_log (log st ++ SetConnectionState CONNECTED
                         :: optEffect (processorRef st) SetOnAudioProcess)
      (set_nextStartTimeRef
         (match outputContextRef st with
          | Some _ => orElse t 0
          | None => 0
          end) (set_connectionState CONNECTED st))
  /\ emitted (OnOpen t) st
     = SetConnectionState CONNECTED
         :: optEffect (processorRef st) SetOnAudioProcess.
Proof.
  destruct (@step_of_run (OnOpen t) st _ _ _ (onopen_run t st)) as [S1 O1].
  rewrite S1, O1. split; [|reflexivity]. destruct st; reflexivity.
Qed.

(** X4.  From any state, a [connect] with a key, the microphone granted
    and the session opened give a working capture path: the status goes
    through CONNECTING to CONNECTED, the microphone source feeds the
    input analyser, the analyser the processor, the processor the
    destination; the new processor carries the handler, and a block it
    delivers leaves exactly one [sendRealtimeInput] of its encoding
    waiting on the new session promise. *)
Theorem connect_then_open_forwards_blocks :
  forall props st t t' channel,
    truthy (apiKey props) = true ->
    let n := nextHandle st in
    let st1 := step (CallConnect props None) st in
    let st2 := step (Settle (length (pending st)) true t) st1 in
    let st3 := step (OnOpen t') st2 in
    connectionState st1 = CONNECTING
    /\ connectionState st2 = CONNECTING
    /\ connectionState st3 = CONNECTED
    /\ emitted (Settle (length (pending st)) true t) st1
       = [CreateMediaStreamSource n (4 + n) (5 + n);
          CreateScriptProcessor n (6 + n) 4096 1 1;
          Connect (5 + n) (Node (2 + n)); Connect (2 + n) (Node (6 + n));
          Connect (6 + n) (Destination n);
          LiveConnect (7 + n) GEMINI_MODEL (targetLanguage props)]
    /\ resources st3
       = (Some (4 + n), Some (6 + n), Some (5 + n), Some n, Some (1 + n),
          scheduledSourcesRef st)%nat
    /\ sessionPromiseRef st3 = Some (7 + n)%nat
    /\ hasHandler (SetOnAudioProcess (6 + n)) (log st3) = true
    /\ registered (OnAudioProcess (6 + n) [channel]) st3
       = [ThenSendRealtimeInput (7 + n)
            (createPcmBlob channel AUDIO_INPUT_SAMPLE_RATE)].
Proof.
  intros props st t t' channel H. cbv zeta.
  destruct (step_connect props st H) as [S1 _]. cbv zeta in S1.
  rewrite S1.
  match goal with
  | |- context [step (Settle _ true t) ?s] =>
      destruct (@step_granted (pending st) props (nextHandle st)
                  (2 + nextHandle st)%nat t s) as [S2 O2];
        [destruct st; reflexivity ..|]
  end.
  cbv zeta in S2, O2. rewrite S2, O2.
  match goal with
  | |- context [step (OnOpen t') ?s] =>
      destruct (step_onopen t' s) as [S3 _]
  end.
  rewrite S3.
  match goal with
  | |- context [hasHandler ?h (log ?s)] =>
      assert (Hh : hasHandler h (log s) = true)
  end.
  { destruct st. unfold hasHandler. cbn [log set_log]. rewrite existsb_app.
    apply orb_true_iff. right. cbn. rewrite Nat.eqb_refl. reflexivity. }
  rewrite Hh.
  match goal with
  | |- context [registered (OnAudioProcess ?p [channel]) ?s] =>
      destruct (@onaudioprocess_step p [channel] channel s Hh eq_refl)
        as [_ R]
  end.
  rewrite R. clear R Hh S1 S2 S3 O2.
  destruct st. repeat split; reflexivity.
Qed.

(** *** [onopen] *)

Lemma orElse_zero t : orElse t 0 == t.
Proof.
  unfold orElse. destruct (Qeq_bool t 0) eqn:E; [|reflexivity].
  apply Qeq_bool_iff in E. symmetry. exact E.
Qed.

(** X5.  [onopen] sets the playback clock to the time of the output
    context ([|| 0] changes nothing for a number), or to 0 when no output
    context is held; it installs the capture handler on the processor
    that is held and on nothing when none is held. *)
Theorem onopen_resets_playback_clock :
  forall st t,
    let st' := step (OnOpen t) st in
    (match outputContextRef st with
     | Some _ => nextStartTimeRef st' == t
     | None => nextStartTimeRef st' = 0
     end)
    /\ emitted (OnOpen t) st
       = SetConnectionState CONNECTED
           :: optEffect (processorRef st) SetOnAudioProcess
    /\ resources st' = resources st
    /\ scheduledSourcesRef st' = scheduledSourcesRef st.
Proof.
  intros st t. cbv zeta. unfold step, exec, emitted, effectsOf, handle, onopen.
  destruct st as [cs dl ms ic oc ia oa pr sr str sp nst sch ci co pe nh lg].
  destruct oc, pr; cbn; repeat split; try reflexivity; apply orElse_zero.
Qed.

Lemma step_disconnect st :
  step CallDisconnect st
  = match sessionPromiseRef st with
    | Some p =>
        set_log (log st ++ [SetConnectionState DISCONNECTED])
          (set_pending (pending st ++ [DisconnectAwaitSession p])
             (set_connectionState DISCONNECTED st))
    | None =>
        set_log (log st ++ SetConnectionState DISCONNECTED :: releaseEffects st)
          (releasedState (set_connectionState DISCONNECTED st))
    end.
Proof.
  unfold step, exec, handle. rewrite disconnect_run.
  destruct (sessionPromiseRef st); destruct st; reflexivity.
Qed.

Lemma step_release i p ok t st :
  nth_error (pending st) i = Some (DisconnectAwaitSession p) ->
  step (Settle i ok t) st
  = set_log (log st
             ++ (if ok then SessionClose p
                 else ConsoleError (lit "Error closing session"))
                :: releaseEffects st)
      (releasedState
         (set_sessionPromiseRef None
            (set_pending (removeNth i (pending st)) st))).
Proof.
  intros E. unfold step, exec.
  rewrite (@handle_settle i ok t st _ E). cbn [resume].
  rewrite disconnect_resume_run. destruct st; reflexivity.
Qed.

(** X6.  The continuation of [disconnect] does not write the status: if
    [onopen] comes while [disconnect] waits for the session promise, the
    hook ends CONNECTED, and is shown as live, with every resource
    released. *)
Theorem open_during_disconnect_ends_connected :
  forall st p t fulfilled t',
    sessionPromiseRef st = Some p ->
    let st1 := step CallDisconnect st in
    let st2 := step (OnOpen t) st1 in
    let st3 := step (Settle (length (pending st)) fulfilled t') st2 in
    connectionState st1 = DISCONNECTED
    /\ connectionState st3 = CONNECTED
    /\ resources st3 = noResources
    /\ sessionPromiseRef st3 = None
    /\ getStatusText (connectionState st3) = lit "Live".
Proof.
  intros st p t ok t' H. cbv zeta.
  rewrite step_disconnect, H.
  match goal with
  | |- context [step (OnOpen t) ?s] => destruct (step_onopen t s) as [S2 _]
  end.
  rewrite S2.
  match goal with
  | |- context [step (Settle ?i ok t') ?s] =>
      rewrite (@step_release i p ok t' s)
        by (destruct st; apply nth_error_snoc)
  end.
  destruct st. repeat split; reflexivity.
Qed.

(** *** Tool calls and audio of a message *)

Lemma last_cons_default A (a : A) l d : last (a :: l) d = last l a.
Proof.
  destruct l as [|b l]; [reflexivity|].
  change (last (b :: l) d = last (b :: l) a). apply last_nonempty_default.
Qed.

Lemma forEach_toolCalls fcs : forall st,
  let reported :=
    filter (fun fc =>
      match fc_name fc with
      | Some n => strictEq n (lit "report_language")
      | None => false
      end) fcs in
  forEach fcs (fun fc =>
    match fc_name fc with
    | Some name =>
        if strictEq name (lit "report_language") then
          setDetectedLanguage (fc_args_language fc) ;;
          promise <- read sessionPromiseRef ;;
          whenSome promise (fun p =>
            suspend (ThenSendToolResponse p (fc_id fc) (fc_name fc)))
        else ret tt
    | None => ret tt
    end) st
  = (Ok tt,
     set_pending
       (pending st
        ++ match sessionPromiseRef st with
           | Some p =>
               map (fun fc => ThenSendToolResponse p (fc_id fc) (fc_name fc))
                 reported
           | None => []
           end)
       (set_detectedLanguage
          (last (map fc_args_language reported) (detectedLanguage st)) st),
     map (fun fc => SetDetectedLanguage (fc_args_language fc)) reported).
Proof.
  induction fcs as [|fc fcs IH]; intro st; cbv zeta.
  - cbn. destruct (sessionPromiseRef st); rewrite app_nil_r;
      destruct st; reflexivity.
  - cbn [forEach filter]. unfold bind at 1.
    destruct (fc_name fc) as [nm|] eqn:En.
    2:{ cbn. rewrite (IH st). cbv zeta. reflexivity. }
    destruct (strictEq nm (lit "report_language")) eqn:Es.
    2:{ cbn. rewrite (IH st). cbv zeta. reflexivity. }
    cbn [map]. rewrite last_cons_default.
    destruct st as [cs dl ms ic oc ia oa pr sr str sp nst sch ci co pe nh lg].
    destruct sp as [p|]; unfold bind; cbn;
      rewrite IH; cbv zeta; cbn; rewrite <- ?app_assoc, ?app_nil_r, ?En;
      reflexivity.
Qed.

Lemma handleToolCalls_exact message st :
  handleToolCalls message st
  = (Ok tt,
     set_pending (pending st ++ toolResponses (sessionPromiseRef st) message)
       (set_detectedLanguage
          (last (map fc_args_language (reportedCalls message))
             (detectedLanguage st)) st),
     map (fun fc => SetDetectedLanguage (fc_args_language fc))
       (reportedCalls message)).
Proof.
  unfold handleToolCalls, toolResponses, reportedCalls, whenSome.
  destruct (toolCall message) as [tc|].
  - apply forEach_toolCalls.
  - cbn. destruct (sessionPromiseRef st); rewrite app_nil_r;
      destruct st; reflexivity.
Qed.

Lemma handleAudioOutput_tasks message st :
  exists r tasks,
    handleAudioOutput message st
    = (r, set_pending (pending st ++ tasks) st, [])
    /\ forallb isDecodeTask tasks = true
    /\ (outputContextRef st = None -> tasks = [])
    /\ (truthyOpt (base64Audio message) = false -> tasks = []).
Proof.
  assert (Same : set_pending (pending st ++ []) st = st)
    by (rewrite app_nil_r; destruct st; reflexivity).
  unfold handleAudioOutput, bind. cbn.
  destruct (base64Audio message) as [b64|].
  2:{ exists (Ok tt), []. rewrite Same. repeat split; reflexivity. }
  destruct (outputContextRef st) as [ctx|] eqn:E.
  2:{ exists (Ok tt), []. rewrite Same. repeat split; reflexivity. }
  cbn [truthyOpt]. destruct (truthy b64) eqn:T.
  2:{ exists (Ok tt), []. rewrite Same. repeat split; reflexivity. }
  destruct (base64ToUint8Array b64) as [bytes|] eqn:B.
  2:{ exists Thrown, []. rewrite Same. repeat split; reflexivity. }
  exists (Ok tt),
    [MessageAwaitDecode ctx (decodeAudioData bytes ctx AUDIO_OUTPUT_SAMPLE_RATE)].
  split; [cbn; reflexivity|]. split; [reflexivity|].
  split; intros; discriminate.
Qed.

(** What a message leaves waiting and what it does to the detected
    language. *)
Lemma onmessage_tasks message dates st :
  exists audio,
    pending (step (OnMessage message dates) st)
    = pending st ++ toolResponses (sessionPromiseRef st) message ++ audio
    /\ forallb isDecodeTask audio = true
    /\ (outputContextRef st = None -> audio = [])
    /\ (truthyOpt (base64Audio message) = false -> audio = [])
    /\ detectedLanguage (step (OnMessage message dates) st)
       = last (map fc_args_language (reportedCalls message))
           (detectedLanguage st).
Proof.
  rewrite (step_field pending), (step_field detectedLanguage)
    by (intros ?; reflexivity).
  unfold stateAfter, handle, onmessage.
  rewrite (bind_run _ _ (handleToolCalls_exact message st)).
  set (st1 := set_pending _ (set_detectedLanguage _ st)).
  destruct (handleTranscriptions_run message dates st1)
    as (st2 & o2 & H2 & _ & Hp & Hc & _).
  assert (Hd : detectedLanguage st2 = detectedLanguage st1).
  { assert (P : preserves detectedLanguage (handleTranscriptions message dates))
      by (unfold handleTranscriptions; frame).
    specialize (P st1). unfold stateAfter in P. rewrite H2 in P. exact P. }
  rewrite (bind_run _ _ H2).
  destruct (handleAudioOutput_tasks message st2) as (r & audio & H3 & A1 & A2 & A3).
  rewrite H3. cbn [fst snd]. exists audio.
  assert (Hp1 : pending st1
                = pending st ++ toolResponses (sessionPromiseRef st) message)
    by (subst st1; destruct st; reflexivity).
  assert (Hc1 : outputContextRef st1 = outputContextRef st)
    by (subst st1; destruct st; reflexivity).
  assert (Hd1 : detectedLanguage st1
                = last (map fc_args_language (reportedCalls message))
                    (detectedLanguage st))
    by (subst st1; destruct st; reflexivity).
  split; [|split; [exact A1|split; [|split; [exact A3|]]]].
  - replace (pending (set_pending (pending st2 ++ audio) st2))
      with (pending st2 ++ audio) by (destruct st2; reflexivity).
    rewrite Hp, Hp1, <- app_assoc. reflexivity.
  - intros Hn. apply A2. rewrite Hc, Hc1. exact Hn.
  - replace (detectedLanguage (set_pending (pending st2 ++ audio) st2))
      with (detectedLanguage st2) by (destruct st2; reflexivity).
    rewrite Hd, Hd1. reflexivity.
Qed.

Lemma registered_of_pending e st tasks :
  pending (step e st) = pending st ++ tasks -> registered e st = tasks.
Proof. intros H. unfold registered. rewrite H. apply skipn_app_exact. Qed.

Arguments registered_of_pending {e st tasks} _.

Lemma filter_all A (p : A -> bool) l : forallb p l = true -> filter p l = l.
Proof.
  induction l as [|a l IH]; [reflexivity|]. cbn. intros H.
  apply andb_true_iff in H. destruct H as [Ha Hl].
  rewrite Ha, (IH Hl). reflexivity.
Qed.

Lemma filter_none A (p q : A -> bool) l :
  forallb q l = true -> (forall a, q a = true -> p a = false) ->
  filter p l = [].
Proof.
  intros H K. induction l as [|a l IH]; [reflexivity|]. cbn in *.
  apply andb_true_iff in H. destruct H as [Ha Hl].
  rewrite (K a Ha). exact (IH Hl).
Qed.

(** X7.  A message sets the detected language to the language of its
    last [report_language] call and keeps it when it has none; it leaves
    one tool response waiting for each [report_language] call, in order,
    when a session promise is held, and none otherwise; calls of any
    other name are not answered. *)
Theorem tool_calls_set_language_and_are_answered :
  forall st message dates,
    let st' := step (OnMessage message dates) st in
    detectedLanguage st'
      = last (map fc_args_language (reportedCalls message))
          (detectedLanguage st)
    /\ filter isToolResponseTask (registered (OnMessage message dates) st)
       = match sessionPromiseRef st with
         | Some p =>
             map (fun fc => ThenSendToolResponse p (fc_id fc) (fc_name fc))
               (reportedCalls message)
         | None => []
         end
    /\ Forall (fun fc => fc_name fc = Some (lit "report_language"))
         (reportedCalls message).
Proof.
  intros st message dates. cbv zeta.
  destruct (onmessage_tasks message dates st) as (audio & Hp & Ha & _ & _ & Hd).
  split; [exact Hd|]. split.
  - rewrite (registered_of_pending Hp), filter_app.
    rewrite (@filter_none _ isToolResponseTask isDecodeTask audio Ha)
      by (intros [] ?; try discriminate; reflexivity).
    rewrite app_nil_r. unfold toolResponses.
    destruct (sessionPromiseRef st); [|reflexivity].
    apply filter_all. rewrite forallb_forall. intros x Hx.
    apply in_map_iff in Hx. destruct Hx as (fc & <- & _). reflexivity.
  - unfold reportedCalls. destruct (toolCall message) as [tc|]; [|constructor].
    apply Forall_forall. intros fc Hf. apply filter_In in Hf.
    destruct Hf as [_ Hf]. destruct (fc_name fc) as [n|]; [|discriminate].
    unfold strictEq in Hf.
    destruct (JsString_eq_dec n (lit "report_language")); [subst|discriminate].
    reflexivity.
Qed.

(** X8.  Audio that arrives when no output context is held (after
    [disconnect]) is dropped: the message leaves no decoding waiting and
    starts nothing, while its transcription fragments are taken as those
    of any message: both are added to their buffers, and a completed
    turn is appended to the chat and empties the buffers. *)
Theorem audio_without_output_context_is_dropped :
  forall st message dates,
    outputContextRef st = None ->
    let st' := step (OnMessage message dates) st in
    let accIn := currentInputTransRef st ++ fragment (inputTxt message) in
    let accOut := currentOutputTransRef st ++ fragment (outputTxt message) in
    filter isDecodeTask (registered (OnMessage message dates) st) = []
    /\ startTimes (emitted (OnMessage message dates) st) = []
    /\ scheduledSourcesRef st' = scheduledSourcesRef st
    /\ nextStartTimeRef st' = nextStartTimeRef st
    /\ (if isTurnComplete message then
          messages st'
          = messages st
            ++ (if truthy (trim accIn) || truthy (trim accOut)
                then turnMessages (trim accIn) (trim accOut) dates else [])
          /\ currentInputTransRef st' = []
          /\ currentOutputTransRef st' = []
        else
          messages st' = messages st
          /\ currentInputTransRef st' = accIn
          /\ currentOutputTransRef st' = accOut).
Proof.
  intros st message dates Hn. cbv zeta.
  destruct (onmessage_tasks message dates st) as (audio & Hp & _ & Ha & _).
  rewrite (Ha Hn), app_nil_r in Hp.
  destruct (onmessage_step message dates st) as (T & Hs & Hq & _).
  cbv zeta in T, Hs.
  split; [|split; [exact (proj1 (no_playback _ Hq))
                  |split; [|split; [exact Hs|exact T]]]].
  - rewrite (registered_of_pending Hp). unfold toolResponses.
    destruct (sessionPromiseRef st); [|reflexivity].
    induction (reportedCalls message); [reflexivity|assumption].
  - rewrite (step_field scheduledSourcesRef) by (intros ?; reflexivity).
    assert (P : preserves scheduledSourcesRef (handle (OnMessage message dates)))
      by (open_hook; frame).
    apply P.
Qed.

(** X9.  A buffer that could not be decoded is skipped: its continuation
    makes no call, starts nothing, and changes nothing but the list of
    suspended tasks. *)
Theorem undecodable_audio_is_skipped :
  forall st i ctx fulfilled t,
    nth_error (pending st) i = Some (MessageAwaitDecode ctx None) ->
    emitted (Settle i fulfilled t) st = []
    /\ step (Settle i fulfilled t) st
       = set_pending (removeNth i (pending st)) st.
Proof.
  intros st i ctx ok t E. unfold step, exec, emitted, effectsOf.
  rewrite (@handle_settle i ok t st _ E). cbn [resume].
  unfold onmessage_resume, bind. cbn. rewrite app_nil_r.
  split; [reflexivity|]. destruct st; reflexivity.
Qed.

(** *** The transcript across sessions *)

Lemma handle_preserves_transcripts e :
  isOnMessage e = false ->
  preserves currentInputTransRef (handle e)
  /\ preserves currentOutputTransRef (handle e).
Proof.
  destruct e; intros H; try discriminate; split; open_hook; frame.
Qed.

Lemma run_without_messages es : forall st,
  forallb (fun e => negb (isOnMessage e)) es = true ->
  currentInputTransRef (run es st) = currentInputTransRef st
  /\ currentOutputTransRef (run es st) = currentOutputTransRef st
  /\ messages (run es st) = messages st.
Proof.
  induction es as [|e es IH]; intros st H; [repeat split; reflexivity|].
  cbn in H. apply andb_true_iff in H. destruct H as [He Hes].
  apply negb_true_iff in He. rewrite run_cons.
  destruct (IH (step e st) Hes) as (I1 & I2 & I3). rewrite I1, I2, I3.
  destruct (handle_preserves_transcripts e He) as [P1 P2].
  rewrite !(step_field currentInputTransRef),
    !(step_field currentOutputTransRef), !(step_field messages)
    by (intros ?; reflexivity).
  split; [apply P1|]. split; [apply P2|].
  apply handle_preserves_messages. destruct e; try exact I; discriminate.
Qed.

(** X10.  Only the message handler touches the transcription buffers:
    whatever happens between two messages ([disconnect], a new
    [connect], [onopen], errors) leaves them as they are, so fragments
    received before a disconnection are part of the first turn completed
    afterwards. *)
Theorem fragments_survive_reconnection :
  forall es st message dates,
    forallb (fun e => negb (isOnMessage e)) es = true ->
    isTurnComplete message = true ->
    let st1 := run es st in
    let st2 := step (OnMessage message dates) st1 in
    let userText :=
      trim (currentInputTransRef st ++ fragment (inputTxt message)) in
    let modelText :=
      trim (currentOutputTransRef st ++ fragment (outputTxt message)) in
    currentInputTransRef st1 = currentInputTransRef st
    /\ currentOutputTransRef st1 = currentOutputTransRef st
    /\ messages st2
       = messages st
         ++ (if truthy userText || truthy modelText
             then turnMessages userText modelText dates else []).
Proof.
  intros es st message dates Hes Hm. cbv zeta.
  destruct (run_without_messages es st Hes) as (I1 & I2 & I3).
  split; [exact I1|]. split; [exact I2|].
  destruct (onmessage_step message dates (run es st)) as (T & _).
  cbv zeta in T. rewrite Hm in T. destruct T as (T1 & _).
  rewrite T1, I1, I2, I3. reflexivity.
Qed.

(** *** Turns of whitespace *)

Lemma trimStart_whitespace s : forallb isWhiteSpace s = true -> trimStart s = [].
Proof.
  induction s as [|c s IH]; [reflexivity|]. cbn [forallb trimStart].
  intros H. apply andb_true_iff in H. destruct H as [Hc Hs].
  rewrite Hc. exact (IH Hs).
Qed.

Lemma trimStart_text s :
  forallb isWhiteSpace s = false ->
  exists c rest, trimStart s = c :: rest /\ isWhiteSpace c = false.
Proof.
  induction s as [|c s IH]; [discriminate|]. cbn [forallb trimStart].
  destruct (isWhiteSpace c) eqn:Hc.
  - cbn. exact IH.
  - intros _. exists c, s. split; [reflexivity|exact Hc].
Qed.

Lemma trimStart_snoc_text l c :
  isWhiteSpace c = false -> trimStart (l ++ [c]) <> [].
Proof.
  intros Hc. induction l as [|a l IH]; cbn [app trimStart].
  - rewrite Hc. discriminate.
  - destruct (isWhiteSpace a); [exact IH|discriminate].
Qed.

(** A trimmed string is non-empty exactly when the string has a
    character that is not whitespace. *)
Lemma trim_truthy s : truthy (trim s) = negb (forallb isWhiteSpace s).
Proof.
  unfold trim, trimEnd.
  destruct (forallb isWhiteSpace s) eqn:H.
  - rewrite (trimStart_whitespace s H). reflexivity.
  - destruct (trimStart_text s H) as (c & rest & E & Hc). rewrite E.
    cbn [rev negb].
    pose proof (@trimStart_snoc_text (rev rest) c Hc) as N.
    destruct (trimStart (rev rest ++ [c])) as [|x y] eqn:T; [contradiction|].
    cbn [rev]. destruct (rev y); reflexivity.
Qed.

(** X11.  A completed turn adds its pair of messages exactly when the
    accumulated input or the accumulated output has a character that is
    not whitespace; a turn of whitespace only adds nothing, and empties
    the buffers. *)
Theorem turn_is_appended_iff_it_has_text :
  forall st message dates,
    isTurnComplete message = true ->
    let st' := step (OnMessage message dates) st in
    let accIn := currentInputTransRef st ++ fragment (inputTxt message) in
    let accOut := currentOutputTransRef st ++ fragment (outputTxt message) in
    messages st'
    = messages st
      ++ (if forallb isWhiteSpace accIn && forallb isWhiteSpace accOut
          then []
          else turnMessages (trim accIn) (trim accOut) dates)
    /\ currentInputTransRef st' = []
    /\ currentOutputTransRef st' = [].
Proof.
  intros st message dates Hm. cbv zeta.
  destruct (onmessage_step message dates st) as (T & _).
  cbv zeta in T. rewrite Hm in T. destruct T as (T1 & T2 & T3).
  split; [|split; assumption].
  rewrite T1, !trim_truthy.
  destruct (forallb isWhiteSpace _), (forallb isWhiteSpace _); reflexivity.
Qed.

(** *** Release, again *)

Lemma sourcesStopped_release st :
  sourcesStopped (releaseEffects st) = scheduledSourcesRef st.
Proof.
  unfold releaseEffects, sourcesStopped. rewrite !flat_map_app.
  destruct (streamRef st), (processorRef st), (sourceRef st),
    (inputContextRef st), (outputContextRef st); cbn;
    rewrite ?app_nil_r;
    induction (scheduledSourcesRef st) as [|s l IH]; cbn; congruence.
Qed.

(** X12.  The continuation of [disconnect] stops every tracked source,
    each once and in the order they were scheduled; a [disconnect] that
    follows finds nothing to release: it only writes the status and
    resets the detected language, stopping and closing nothing a second
    time. *)
Theorem release_stops_tracked_sources_once :
  forall st i p fulfilled t,
    nth_error (pending st) i = Some (DisconnectAwaitSession p) ->
    let st1 := step (Settle i fulfilled t) st in
    sourcesStopped (emitted (Settle i fulfilled t) st)
      = scheduledSourcesRef st
    /\ emitted CallDisconnect st1
       = [SetConnectionState DISCONNECTED;
          SetDetectedLanguage (lit "Waiting for speech...")]
    /\ resources (step CallDisconnect st1) = noResources
    /\ pending (step CallDisconnect st1) = removeNth i (pending st).
Proof.
  intros st i p ok t E. cbv zeta.
  destruct (@settle_disconnect i p ok t st E) as (H1 & _).
  rewrite H1. split.
  { destruct ok; unfold sourcesStopped; cbn [flat_map app];
      apply sourcesStopped_release. }
  rewrite (@step_release i p ok t st E), step_disconnect.
  unfold emitted, effectsOf, handle. rewrite disconnect_run.
  destruct st. repeat split; reflexivity.
Qed.

(** *** The scheduled sources *)

Lemma onmessage_resume_sources ctx buffer now st :
  exists st' out,
    onmessage_resume ctx (Some buffer) now st = (Ok tt, st', out)
    /\ scheduledSourcesRef st'
       = setAdd (nextHandle st) (scheduledSourcesRef st)
    /\ started (nextHandle st) out = true
    /\ hasHandler (SetOnEnded (nextHandle st)) out = true.
Proof.
  unfold onmessage_resume.
  destruct st as [cs dl ms ic oc ia oa pr sr str sp nst sch ci co pe nh lg].
  cbn [nextStartTimeRef nextHandle scheduledSourcesRef].
  destruct oa; destruct (ltb nst now) eqn:L; unfold bind; cbn; rewrite L; cbn;
    do 2 eexists; (split; [reflexivity|]); (split; [reflexivity|]);
    unfold started, hasHandler; cbn; rewrite ?Nat.eqb_refl, ?orb_true_r;
    split; reflexivity.
Qed.

Lemma handle_preserves_sources e :
  match e with
  | CallConnect _ _ | OnOpen _ | OnMessage _ _ | OnClose
  | OnAudioProcess _ _ => True
  | _ => False
  end ->
  preserves scheduledSourcesRef (handle e).
Proof. destruct e; intros H; try contradiction; open_hook; frame. Qed.

(** What a step does to the set of tracked sources: nothing; or it
    empties it; or it removes a source; or it adds one, which it has
    started and given the [onended] handler. *)
Lemma step_sources e st :
  scheduledSourcesRef (step e st) = scheduledSourcesRef st
  \/ scheduledSourcesRef (step e st) = []
  \/ (exists s, scheduledSourcesRef (step e st)
                = setDelete s (scheduledSourcesRef st))
  \/ exists s,
       scheduledSourcesRef (step e st) = setAdd s (scheduledSourcesRef st)
       /\ started s (emitted e st) = true
       /\ hasHandler (SetOnEnded s) (emitted e st) = true.
Proof.
  destruct e as [props throwAt| |i ok t|t|m d| | |n b|n];
    try (left; rewrite (step_field scheduledSourcesRef)
           by (intros ?; reflexivity);
         apply handle_preserves_sources; exact I).
  - rewrite step_disconnect.
    destruct (sessionPromiseRef st);
      [left|right; left]; destruct st; reflexivity.
  - rewrite (step_field scheduledSourcesRef) by (intros ?; reflexivity).
    unfold emitted, effectsOf, stateAfter.
    destruct (nth_error (pending st) i) as [task|] eqn:E.
    2:{ left. rewrite (@handle_settle_none i ok t st E). reflexivity. }
    rewrite (@handle_settle i ok t st task E).
    destruct task as [props|p|p m|p a b|ctx [buffer|]]; cbn [resume].
    + left.
      assert (P : preserves scheduledSourcesRef (connect_resume props ok))
        by (open_hook; frame).
      unfold preserves, stateAfter in P. rewrite P. destruct st; reflexivity.
    + right; left. rewrite disconnect_resume_run. destruct st; reflexivity.
    + left. destruct ok; destruct st; reflexivity.
    + left. destruct ok; destruct st; reflexivity.
    + right; right; right.
      destruct (onmessage_resume_sources ctx buffer t
                  (set_pending (removeNth i (pending st)) st))
        as (st' & out & H & H1 & H2 & H3).
      rewrite H. cbn [fst snd]. exists (nextHandle st).
      replace (nextHandle (set_pending (removeNth i (pending st)) st))
        with (nextHandle st) in * by (destruct st; reflexivity).
      replace (scheduledSourcesRef (set_pending (removeNth i (pending st)) st))
        with (scheduledSourcesRef st) in * by (destruct st; reflexivity).
      repeat split; assumption.
    + left. destruct st; reflexivity.
  - rewrite (step_field scheduledSourcesRef) by (intros ?; reflexivity).
    unfold stateAfter, handle. rewrite onerror_run.
    destruct (sessionPromiseRef st);
      [left|right; left]; destruct st; reflexivity.
  - rewrite (step_field scheduledSourcesRef) by (intros ?; reflexivity).
    unfold stateAfter, handle, bind. cbn.
    destruct (hasHandler (SetOnEnded n) (log st)).
    + right; right; left. exists n. destruct st; reflexivity.
    + left. reflexivity.
Qed.

Lemma started_app s a b : started s (a ++ b) = started s a || started s b.
Proof. apply existsb_app. Qed.

Lemma hasHandler_app e a b : hasHandler e (a ++ b) = hasHandler e a || hasHandler e b.
Proof. apply existsb_app. Qed.

Lemma in_setDelete x s l : In x (setDelete s l) -> In x l.
Proof.
  unfold setDelete. induction l as [|a l IH]; cbn; [trivial|].
  destruct (Nat.eq_dec s a); [right; auto|].
  intros [H|H]; [left; exact H|right; auto].
Qed.

Lemma NoDup_setDelete s l : NoDup l -> NoDup (setDelete s l).
Proof.
  unfold setDelete. induction 1 as [|a l Hn Hl IH]; cbn; [constructor|].
  destruct (Nat.eq_dec s a); [exact IH|].
  constructor; [|exact IH]. intros H. apply Hn. exact (in_setDelete _ _ _ H).
Qed.

Lemma not_in_setDelete s l : ~ In s (setDelete s l).
Proof. unfold setDelete. apply remove_In. Qed.

Lemma NoDup_setAdd s l : NoDup l -> NoDup (setAdd s l).
Proof.
  unfold setAdd. intros H. destruct (in_dec Nat.eq_dec s l) as [Hi|Hi];
    [exact H|].
  apply NoDup_app; [exact H|constructor; [intros []|constructor]|].
  intros x Hx [<-|[]]. exact (Hi Hx).
Qed.

Lemma in_setAdd x s l : In x (setAdd s l) -> x = s \/ In x l.
Proof.
  unfold setAdd. destruct (in_dec Nat.eq_dec s l); [right; assumption|].
  intros H. apply in_app_or in H. destruct H as [H|[H|[]]]; auto.
Qed.

Lemma reachable_tracked st :
  reachable st ->
  NoDup (scheduledSourcesRef st)
  /\ forall s, In s (scheduledSourcesRef st) ->
       started s (log st) = true
       /\ hasHandler (SetOnEnded s) (log st) = true.
Proof.
  induction 1 as [|e st Hr [IH1 IH2]]; [split; [constructor|intros s []]|].
  rewrite log_step.
  assert (Old : forall s, In s (scheduledSourcesRef st) ->
            started s (log st ++ emitted e st) = true
            /\ hasHandler (SetOnEnded s) (log st ++ emitted e st) = true).
  { intros s Hs. destruct (IH2 s Hs) as [A B].
    rewrite started_app, hasHandler_app, A, B. split; reflexivity. }
  destruct (step_sources e st) as [H|[H|[(s & H)|(s & H & A & B)]]]; rewrite H.
  - split; assumption.
  - split; [constructor|intros s []].
  - split; [apply NoDup_setDelete; exact IH1|].
    intros x Hx. apply Old. exact (in_setDelete _ _ _ Hx).
  - split; [apply NoDup_setAdd; exact IH1|].
    intros x Hx. apply in_setAdd in Hx. destruct Hx as [->|Hx]; [|auto].
    rewrite started_app, hasHandler_app, A, B, !orb_true_r.
    split; reflexivity.
Qed.

(** X13.  In every reachable state the tracked sources are distinct,
    each has been started and each carries the [onended] handler; so
    when a tracked source ends it is removed from the set, and the
    others stay. *)
Theorem tracked_sources_are_started_and_untrack_on_end :
  forall st, reachable st ->
    NoDup (scheduledSourcesRef st)
    /\ forall s, In s (scheduledSourcesRef st) ->
         started s (log st) = true
         /\ hasHandler (SetOnEnded s) (log st) = true
         /\ ~ In s (scheduledSourcesRef (step (OnEnded s) st))
         /\ forall s', s' <> s ->
              (In s' (scheduledSourcesRef (step (OnEnded s) st))
               <-> In s' (scheduledSourcesRef st)).
Proof.
  intros st Hr. destruct (reachable_tracked Hr) as [N T].
  split; [exact N|]. intros s Hs. destruct (T s Hs) as [A B].
  split; [exact A|]. split; [exact B|].
  assert (E : scheduledSourcesRef (step (OnEnded s) st)
              = setDelete s (scheduledSourcesRef st)).
  { rewrite (step_field scheduledSourcesRef) by (intros ?; reflexivity).
    unfold stateAfter, handle, bind. cbn. rewrite B.
    destruct st; reflexivity. }
  rewrite E. split; [apply not_in_setDelete|].
  intros s' Hn. split; [apply in_setDelete|].
  intros Hi. unfold setDelete. apply in_in_remove; assumption.
Qed.

(** *** The analysers and the frames drawn from them *)

Lemma handle_fftSize e : emitsOnly fftSizeAsSet (handle e).
Proof. destruct e; open_hook; quiet. Qed.

Lemma fftSizeOf_fold a l :
  forallb fftSizeAsSet l = true ->
  forall acc,
    acc = 256%Z \/ fftSizeAssigned a l = true ->
    fold_left (fun acc e =>
      match e with
      | SetFftSize b n => if Nat.eqb a b then n else acc
      | _ => acc
      end) l acc = 256%Z.
Proof.
  induction l as [|e l IH]; cbn [forallb fold_left]; intros Hl acc H.
  - destruct H as [H|H]; [exact H|discriminate].
  - apply andb_true_iff in Hl. destruct Hl as [He Hl].
    apply (IH Hl). unfold fftSizeAssigned in H. cbn [existsb] in H.
    destruct e; try (destruct H as [H|H]; [left; exact H|right; exact H]).
    cbn in He. apply Z.eqb_eq in He. subst.
    match goal with
    | |- context [Nat.eqb a ?b] => destruct (Nat.eqb a b)
    end; [left; reflexivity|].
    destruct H as [H|H]; [left; exact H|right; exact H].
Qed.

(** What [connect] does to the analysers: it leaves both, or replaces
    both by analysers it has given an FFT size. *)
Lemma connect_analysers props throwAt st :
  (inputAnalyserRef (step (CallConnect props throwAt) st) = inputAnalyserRef st
   /\ outputAnalyserRef (step (CallConnect props throwAt) st)
      = outputAnalyserRef st)
  \/ exists a b,
       inputAnalyserRef (step (CallConnect props throwAt) st) = Some a
       /\ outputAnalyserRef (step (CallConnect props throwAt) st) = Some b
       /\ fftSizeAssigned a (emitted (CallConnect props throwAt) st) = true
       /\ fftSizeAssigned b (emitted (CallConnect props throwAt) st) = true.
Proof.
  rewrite (step_field inputAnalyserRef), (step_field outputAnalyserRef)
    by (intros ?; reflexivity).
  unfold emitted, effectsOf, stateAfter, handle, connect.
  destruct (truthy (apiKey props)); cbn [negb];
    [|left; split; reflexivity].
  destruct throwAt as [[]|]; destruct st; unfold fftSizeAssigned; cbn;
    rewrite ?Nat.eqb_refl, ?orb_true_r;
    first [left; split; reflexivity
          |right; do 2 eexists;
           (split; [reflexivity|]); (split; [reflexivity|]);
           cbn; rewrite ?Nat.eqb_refl, ?orb_true_r; split; reflexivity].
Qed.

Lemma handle_preserves_analysers e :
  (forall props throwAt, e <> CallConnect props throwAt) ->
  preserves inputAnalyserRef (handle e)
  /\ preserves outputAnalyserRef (handle e).
Proof.
  intros H. destruct e; try (exfalso; eapply H; reflexivity);
    split; open_hook; frame.
Qed.

Lemma fftSizeAssigned_app a l1 l2 :
  fftSizeAssigned a (l1 ++ l2) = fftSizeAssigned a l1 || fftSizeAssigned a l2.
Proof. apply existsb_app. Qed.

Lemma reachable_analysers st :
  reachable st ->
  forallb fftSizeAsSet (log st) = true
  /\ forall side a, analyserProp side st = Some a ->
       fftSizeAssigned a (log st) = true.
Proof.
  induction 1 as [|e st Hr [IH1 IH2]].
  - split; [reflexivity|]. intros [] a H; discriminate H.
  - rewrite log_step. split.
    { rewrite forallb_app, IH1. exact (handle_fftSize e st). }
    assert (Old : forall side a, analyserProp side st = Some a ->
              fftSizeAssigned a (log st ++ emitted e st) = true).
    { intros side a H. rewrite fftSizeAssigned_app, (IH2 side a H).
      reflexivity. }
    assert (C : (forall props throwAt, e <> CallConnect props throwAt)
                \/ exists props throwAt, e = CallConnect props throwAt).
    { destruct e; try (left; intros ? ?; discriminate).
      right. eexists; eexists; reflexivity. }
    destruct C as [C|(props & throwAt & ->)].
    + destruct (handle_preserves_analysers C) as [Pi Po].
      intros side a H. apply (Old side).
      destruct side; cbn [analyserProp] in *;
        [rewrite (step_field inputAnalyserRef) in H
           by (intros ?; reflexivity); rewrite Pi in H
        |rewrite (step_field outputAnalyserRef) in H
           by (intros ?; reflexivity); rewrite Po in H]; exact H.
    + destruct (connect_analysers props throwAt st)
        as [[Ei Eo]|(a & b & Ei & Eo & Ha & Hb)];
        intros side c H; destruct side; cbn [analyserProp] in *.
      * apply (Old InputSide). rewrite Ei in H. exact H.
      * apply (Old OutputSide). rewrite Eo in H. exact H.
      * rewrite Ei in H. injection H as <-.
        rewrite fftSizeAssigned_app, Ha. apply orb_true_r.
      * rewrite Eo in H. injection H as <-.
        rewrite fftSizeAssigned_app, Hb. apply orb_true_r.
Qed.

(** X14.  Whatever has happened, the analyser a visualizer is given has
    an FFT size of 256, so that the visualizer reads 128 samples from
    it. *)
Theorem visualizer_reads_128_samples :
  forall st side a,
    reachable st ->
    analyserProp side st = Some a ->
    fftSizeOf a (log st) = 256%Z
    /\ frequencyBinCount a (log st) = 128%nat
    /\ forall reading,
         length (getByteTimeDomainData (frequencyBinCount a (log st)) reading)
         = 128%nat.
Proof.
  intros st side a Hr Ha. destruct (reachable_analysers Hr) as [H1 H2].
  assert (F : fftSizeOf a (log st) = 256%Z).
  { unfold fftSizeOf. apply fftSizeOf_fold; [exact H1|].
    right. exact (H2 side a Ha). }
  assert (B : frequencyBinCount a (log st) = 128%nat).
  { unfold frequencyBinCount. rewrite F. reflexivity. }
  split; [exact F|]. split; [exact B|].
  intros reading. rewrite B. unfold getByteTimeDomainData.
  rewrite length_firstn, length_app, repeat_length. lia.
Qed.

Lemma drawLoop_length data : forall i x sliceWidth height,
  length (drawLoop data i x sliceWidth height) = length data.
Proof.
  induction data as [|d data IH]; intros; cbn [drawLoop length];
    [reflexivity|]. rewrite IH. reflexivity.
Qed.

Lemma getByteTimeDomainData_length n reading :
  length (getByteTimeDomainData n reading) = n.
Proof.
  unfold getByteTimeDomainData.
  rewrite length_firstn, length_app, repeat_length. lia.
Qed.

Lemma Forall_firstn_of A (P : A -> Prop) (l : list A) :
  Forall P l -> forall n, Forall P (firstn n l).
Proof.
  induction 1 as [|a l Ha Hl IH]; intros [|n]; cbn [firstn];
    constructor; auto.
Qed.

Lemma getByteTimeDomainData_bytes n reading :
  Forall (fun d => (d < 256)%N) reading ->
  Forall (fun d => (d < 256)%N) (getByteTimeDomainData n reading).
Proof.
  intros H. unfold getByteTimeDomainData. apply Forall_firstn_of.
  apply Forall_app. split; [exact H|].
  apply Forall_forall. intros d Hd. apply repeat_spec in Hd. subst.
  reflexivity.
Qed.

Lemma sample_ordinate (d : N) (h : Q) :
  (d < 256)%N -> (0 < h)%Q ->
  (0 <= inject_Z (Z.of_N d) / 128 * h / 2
   /\ inject_Z (Z.of_N d) / 128 * h / 2 < h)%Q.
Proof.
  intros Hd Hh.
  assert (B1 : (0 <= inject_Z (Z.of_N d))%Q).
  { change 0%Q with (inject_Z 0). rewrite <- Zle_Qle. lia. }
  assert (B2 : (inject_Z (Z.of_N d) <= 255)%Q).
  { change 255%Q with (inject_Z 255). rewrite <- Zle_Qle. lia. }
  set (q := inject_Z (Z.of_N d)) in *. clearbody q.
  assert (E : (q / 128 * h / 2 == (q / 256) * h)%Q) by (field; lra).
  rewrite E.
  assert (R0 : (0 <= q / 256)%Q) by (apply Qle_shift_div_l; lra).
  assert (R1 : (q / 256 < 1)%Q) by (apply Qlt_shift_div_r; lra).
  set (r := (q / 256)%Q) in *. clearbody r.
  split.
  - apply Qmult_le_0_compat; lra.
  - assert (H : (0 < (1 - r) * h)%Q) by (apply Qmult_lt_0_compat; lra).
    lra.
Qed.

Lemma drawLoop_ordinates data (height : Q) :
  Forall (fun d => (d < 256)%N) data -> (0 < height)%Q ->
  forall i x sliceWidth,
    Forall (fun y => (0 <= y /\ y < height)%Q)
      (ordinates (drawLoop data i x sliceWidth height)).
Proof.
  intros Hd Hh. induction Hd as [|d data Hb Hd IH]; intros i x sliceWidth.
  - constructor.
  - cbn [drawLoop]. unfold ordinates. cbn [flat_map].
    replace (match (if Nat.eqb i 0
                    then MoveTo x (inject_Z (Z.of_N d) / 128 * height / 2)
                    else LineTo x (inject_Z (Z.of_N d) / 128 * height / 2))
             with
             | MoveTo _ y | LineTo _ y => [y]
             | _ => []
             end)
      with [(inject_Z (Z.of_N d) / 128 * height / 2)%Q]
      by (destruct (Nat.eqb i 0); reflexivity).
    constructor; [exact (sample_ordinate Hb Hh)|]. apply IH.
Qed.

Lemma drawLoop_abscissas data (sliceWidth height : Q) :
  forall i x,
    (x == inject_Z (Z.of_nat i) * sliceWidth)%Q ->
    Forall (fun a => exists k,
              (k < i + length data)%nat
              /\ (a == inject_Z (Z.of_nat k) * sliceWidth)%Q)
      (abscissas (drawLoop data i x sliceWidth height)).
Proof.
  induction data as [|d data IH]; intros i x Hx.
  - constructor.
  - cbn [drawLoop]. unfold abscissas. cbn [flat_map].
    replace (match (if Nat.eqb i 0
                    then MoveTo x (inject_Z (Z.of_N d) / 128 * height / 2)
                    else LineTo x (inject_Z (Z.of_N d) / 128 * height / 2))
             with
             | MoveTo a _ | LineTo a _ => [a]
             | _ => []
             end)
      with [x] by (destruct (Nat.eqb i 0); reflexivity).
    constructor.
    + exists i. split; [cbn [length]; lia|exact Hx].
    + assert (Hx' : (x + sliceWidth
                     == inject_Z (Z.of_nat (S i)) * sliceWidth)%Q).
      { rewrite Hx, Nat2Z.inj_succ. unfold Z.succ. rewrite inject_Z_plus.
        ring. }
      specialize (IH (S i) (x + sliceWidth)%Q Hx').
      eapply Forall_impl; [|exact IH].
      intros a (k & Hk & Ha). exists k. split; [cbn [length]; lia|exact Ha].
Qed.

Lemma slice_abscissa (k n : nat) (w : Q) :
  (k < n)%nat -> (0 <= w)%Q ->
  (0 <= inject_Z (Z.of_nat k) * (w * 1 / inject_Z (Z.of_nat n))
   /\ inject_Z (Z.of_nat k) * (w * 1 / inject_Z (Z.of_nat n)) <= w)%Q.
Proof.
  intros Hk Hw.
  assert (B1 : (0 <= inject_Z (Z.of_nat k))%Q).
  { change 0%Q with (inject_Z 0). rewrite <- Zle_Qle. lia. }
  assert (B2 : (inject_Z (Z.of_nat k) <= inject_Z (Z.of_nat n))%Q).
  { rewrite <- Zle_Qle. lia. }
  assert (B3 : (0 < inject_Z (Z.of_nat n))%Q).
  { change 0%Q with (inject_Z 0). rewrite <- Zlt_Qlt. lia. }
  set (q := inject_Z (Z.of_nat k)) in *.
  set (m := inject_Z (Z.of_nat n)) in *. clearbody q m.
  assert (E : (q * (w * 1 / m) == (q / m) * w)%Q) by (field; lra).
  rewrite E.
  assert (R1 : (q / m <= 1)%Q) by (apply Qle_shift_div_r; lra).
  assert (R0 : (0 <= q / m)%Q) by (apply Qle_shift_div_l; lra).
  set (r := (q / m)%Q) in *. clearbody r.
  split.
  - apply Qmult_le_0_compat; lra.
  - assert (H : (0 <= (1 - r) * w)%Q) by (apply Qmult_le_0_compat; lra).
    lra.
Qed.

(** One frame of [draw]: it makes [bufferLength + 6] calls, and all the
    points of its path are on the canvas. *)
Lemma draw_on_canvas bufferLength reading color (width height : Q) :
  Forall (fun d => (d < 256)%N) reading ->
  (0 <= width)%Q -> (0 < height)%Q ->
  length (draw bufferLength reading color width height)
  = (bufferLength + 6)%nat
  /\ length (ordinates (draw bufferLength reading color width height))
     = S bufferLength
  /\ Forall (fun x => (0 <= x /\ x <= width)%Q)
       (abscissas (draw bufferLength reading color width height))
  /\ Forall (fun y => (0 <= y /\ y < height)%Q)
       (ordinates (draw bufferLength reading color width height)).
Proof.
  intros Hr Hw Hh. unfold draw.
  set (data := getByteTimeDomainData bufferLength reading).
  set (sliceWidth := (width * 1 / inject_Z (Z.of_nat bufferLength))%Q).
  assert (L : length data = bufferLength)
    by apply getByteTimeDomainData_length.
  assert (O : forall l l', ordinates (l ++ l') = ordinates l ++ ordinates l')
    by (intros; apply flat_map_app).
  assert (A : forall l l', abscissas (l ++ l') = abscissas l ++ abscissas l')
    by (intros; apply flat_map_app).
  assert (OL : forall d i x,
             length (ordinates (drawLoop d i x sliceWidth height)) = length d).
  { induction d as [|s d IH]; intros i x; [reflexivity|].
    cbn [drawLoop]. unfold ordinates. cbn [flat_map].
    rewrite length_app. fold (ordinates (drawLoop d (S i) (x + sliceWidth)
                                           sliceWidth height)).
    rewrite IH. destruct (Nat.eqb i 0); reflexivity. }
  split; [|split; [|split]].
  - rewrite !length_app, drawLoop_length, L. cbn [length]. lia.
  - rewrite !O, !length_app, OL, L. cbn. lia.
  - rewrite !A. apply Forall_app. split; [constructor|].
    apply Forall_app. split.
    + eapply Forall_impl;
        [|apply (@drawLoop_abscissas data sliceWidth height 0%nat 0%Q);
          cbn; ring].
      intros a (k & Hk & Ha). rewrite Ha. rewrite L in Hk.
      apply slice_abscissa; [exact Hk|exact Hw].
    + cbn. constructor; [|constructor]. split; lra.
  - rewrite !O. apply Forall_app. split; [constructor|].
    apply Forall_app. split.
    + apply drawLoop_ordinates;
        [apply getByteTimeDomainData_bytes; exact Hr|exact Hh].
    + cbn. constructor; [|constructor].
      split; [apply Qle_shift_div_l; lra|apply Qlt_shift_div_r; lra].
Qed.

(** X15.  While the status is CONNECTED, a frame of a visualizer that
    has its analyser makes 134 canvas calls: it clears the canvas and
    strokes one path of 129 points, all of them on the 300 by 60
    canvas. *)
Theorem active_frame_stays_on_canvas :
  forall st side reading,
    reachable st ->
    isActive st = true ->
    analyserProp side st <> None ->
    Forall (fun d => (d < 256)%N) reading ->
    length (frame side reading st) = 134%nat
    /\ hd Stroke (frame side reading st) = ClearRect 0 0 300 60
    /\ last (frame side reading st) BeginPath = Stroke
    /\ length (ordinates (frame side reading st)) = 129%nat
    /\ Forall (fun x => (0 <= x /\ x <= 300)%Q)
         (abscissas (frame side reading st))
    /\ Forall (fun y => (0 <= y /\ y < 60)%Q)
         (ordinates (frame side reading st)).
Proof.
  intros st side reading Hr Ha Hs Hb. unfold frame.
  destruct (analyserProp side st) as [a|] eqn:E; [|contradiction].
  rewrite Ha.
  assert (B : frequencyBinCount a (log st) = 128%nat).
  { destruct (reachable_analysers Hr) as [H1 H2].
    unfold frequencyBinCount, fftSizeOf.
    rewrite (@fftSizeOf_fold a (log st) H1 2048%Z
               (or_intror (H2 side a E))).
    reflexivity. }
  rewrite B.
  destruct (@draw_on_canvas 128 reading (colorProp side) 300 60 Hb)
    as (H1 & H2 & H3 & H4); [lra|lra|].
  split; [exact H1|]. split; [reflexivity|].
  split; [|split; [exact H2|split; [exact H3|exact H4]]].
  unfold draw.
  change [LineTo 300 (60 / 2); Stroke]
    with ([LineTo 300 (60 / 2)] ++ [Stroke]).
  rewrite !app_assoc. apply last_last.
Qed.

(** *** A close by the server *)

Lemma step_onclose st :
  step OnClose st
  = set_log (log st ++ [SetConnectionState DISCONNECTED])
      (set_connectionState DISCONNECTED st).
Proof. destruct st; reflexivity. Qed.

(** The tasks a block of microphone samples leaves suspended. *)
Lemma registered_onaudioprocess node inputBuffer st :
  registered (OnAudioProcess node inputBuffer) st
  = if hasHandler (SetOnAudioProcess node) (log st) then
      match nth_error inputBuffer 0, sessionPromiseRef st with
      | Some channel, Some p =>
          [ThenSendRealtimeInput p
             (createPcmBlob channel AUDIO_INPUT_SAMPLE_RATE)]
      | _, _ => []
      end
    else [].
Proof.
  unfold registered.
  rewrite (step_field pending) by (intros ?; reflexivity).
  unfold stateAfter, handle, onaudioprocess, bind. cbn.
  destruct (hasHandler (SetOnAudioProcess node) (log st)); cbn.
  2:{ rewrite <- (app_nil_r (pending st)) at 2. apply skipn_app_exact. }
  destruct inputBuffer as [|channel rest]; cbn.
  { rewrite <- (app_nil_r (pending st)) at 2. apply skipn_app_exact. }
  destruct (sessionPromiseRef st); cbn.
  - destruct st; cbn. apply skipn_app_exact.
  - rewrite <- (app_nil_r (pending st)) at 2. apply skipn_app_exact.
Qed.

Lemma connect_no_teardown props throwAt :
  emitsOnly (fun e => negb (isTeardown e)) (connect props throwAt).
Proof. open_hook; quiet. Qed.

(** X16.  When the server closes the session, the hook only writes
    DISCONNECTED: the microphone, the audio graph, the contexts and the
    session promise stay as they were, blocks of samples are still
    forwarded, and the button, which now starts a new connection,
    releases none of them either. *)
Theorem close_by_server_releases_nothing :
  forall st props throwAt node inputBuffer,
    connectionState (step OnClose st) = DISCONNECTED
    /\ emitted OnClose st = [SetConnectionState DISCONNECTED]
    /\ resources (step OnClose st) = resources st
    /\ sessionPromiseRef (step OnClose st) = sessionPromiseRef st
    /\ registered (OnAudioProcess node inputBuffer) (step OnClose st)
       = registered (OnAudioProcess node inputBuffer) st
    /\ toggleConnection props throwAt (step OnClose st)
       = CallConnect props throwAt
    /\ forallb (fun e => negb (isTeardown e))
         (emitted (toggleConnection props throwAt (step OnClose st))
            (step OnClose st)) = true.
Proof.
  intros st props throwAt node inputBuffer.
  assert (T : toggleConnection props throwAt (step OnClose st)
              = CallConnect props throwAt).
  { rewrite step_onclose. destruct st; reflexivity. }
  rewrite T.
  split; [rewrite step_onclose; destruct st; reflexivity|].
  split; [reflexivity|].
  split; [rewrite step_onclose; destruct st; reflexivity|].
  split; [rewrite step_onclose; destruct st; reflexivity|].
  split; [|split; [reflexivity|]].
  - rewrite !registered_onaudioprocess, step_onclose.
    replace (log (set_log (log st ++ [SetConnectionState DISCONNECTED])
                    (set_connectionState DISCONNECTED st)))
      with (log st ++ [SetConnectionState DISCONNECTED])
      by (destruct st; reflexivity).
    replace (sessionPromiseRef
               (set_log (log st ++ [SetConnectionState DISCONNECTED])
                  (set_connectionState DISCONNECTED st)))
      with (sessionPromiseRef st) by (destruct st; reflexivity).
    rewrite hasHandler_app. cbn. rewrite orb_false_r. reflexivity.
  - exact (connect_no_teardown props throwAt (step OnClose st)).
Qed.

(** *** What [App] hands to the hook *)

(** X17.  The target language [App] gives to the hook is never the empty
    string: it is the name found for the selected code when that name
    is not empty, and Spanish otherwise. *)
Theorem target_language_is_never_empty :
  forall SUPPORTED_LANGUAGES targetLangCode,
    truthy (targetLanguageOf SUPPORTED_LANGUAGES targetLangCode) = true
    /\ (forall l,
          find (fun l => strictEq (code l) targetLangCode) SUPPORTED_LANGUAGES
          = Some l ->
          code l = targetLangCode
          /\ targetLanguageOf SUPPORTED_LANGUAGES targetLangCode
             = if truthy (name l) then name l else lit "Spanish")
    /\ ((forall l, In l SUPPORTED_LANGUAGES -> code l <> targetLangCode) ->
        targetLanguageOf SUPPORTED_LANGUAGES targetLangCode = lit "Spanish").
Proof.
  intros table c. unfold targetLanguageOf.
  split; [|split].
  - destruct (find _ table) as [l|]; cbn [chain]; [|reflexivity].
    destruct (truthy (name l)) eqn:T; [exact T|reflexivity].
  - intros l H. rewrite H. cbn [chain]. split; [|reflexivity].
    apply find_some in H. destruct H as [_ H]. unfold strictEq in H.
    destruct (JsString_eq_dec (code l) c); [assumption|discriminate].
  - intros H.
    destruct (find (fun l => strictEq (code l) c) table) as [l|] eqn:F;
      [|reflexivity].
    apply find_some in F. destruct F as [Hi He]. unfold strictEq in He.
    destruct (JsString_eq_dec (code l) c) as [E|E]; [|discriminate].
    exfalso. exact (H l Hi E).
Qed.

(** *** The ids of the chat messages *)

Lemma lit_injective s1 s2 : lit s1 = lit s2 -> s1 = s2.
Proof.
  unfold lit. intros H.
  rewrite <- (String.string_of_list_ascii_of_string s1),
          <- (String.string_of_list_ascii_of_string s2).
  f_equal.
  apply (f_equal (map Ascii.ascii_of_N)) in H.
  rewrite !map_map in H.
  rewrite !(map_ext _ (fun a => a) Ascii.ascii_N_embedding), !map_id in H.
  exact H.
Qed.

Lemma toString_injective a b : toString a = toString b -> a = b.
Proof.
  unfold toString. intros H. apply lit_injective in H.
  assert (N : forall z, Z.to_int z <> Decimal.Pos Decimal.Nil
                        /\ Z.to_int z <> Decimal.Neg Decimal.Nil).
  { intros [|p|p]; cbn; split; try discriminate;
      intros E; injection E as E;
      exact (DecimalPos.Unsigned.to_uint_nonnil p E). }
  assert (I : Some (Z.to_int a) = Some (Z.to_int b)).
  { rewrite <- (NilZero.isi (Z.to_int a)), <- (NilZero.isi (Z.to_int b));
      try apply N. rewrite H. reflexivity. }
  injection I as I.
  rewrite <- (DecimalZ.of_to a), <- (DecimalZ.of_to b), I. reflexivity.
Qed.

(** X18.  If the clock does not go back between the two readings that
    make the ids, the messages a server message adds to the chat have
    distinct ids; they have one and the same id exactly when the second
    reading is one millisecond before the first. *)
Theorem ids_of_a_turn_are_distinct :
  forall st message dates,
    (userId dates <= modelId dates)%Z ->
    NoDup (map id (skipn (length (messages st))
                     (messages (step (OnMessage message dates) st))))
    /\ forall userText modelText,
         NoDup (map id (turnMessages userText modelText dates))
         <-> (modelId dates + 1 <> userId dates)%Z.
Proof.
  intros st message dates Hd.
  assert (P : forall u m, NoDup (map id (turnMessages u m dates))
                          <-> (modelId dates + 1 <> userId dates)%Z).
  { intros u m. unfold turnMessages. cbn [map id]. split.
    - intros H E. inversion H as [|x l Hn _]; subst. apply Hn.
      left. rewrite E. reflexivity.
    - intros H. constructor; [|constructor; [intros []|constructor]].
      intros [E|[]]. apply toString_injective in E. exact (H E). }
  split; [|exact P].
  destruct (onmessage_step message dates st) as (T & _). cbv zeta in T.
  destruct (isTurnComplete message).
  - destruct T as (T & _). rewrite T, skipn_app_exact.
    destruct (truthy _ || truthy _); [|constructor].
    apply P. lia.
  - destruct T as (T & _). rewrite T.
    rewrite <- (app_nil_r (messages st)) at 2. rewrite skipn_app_exact.
    constructor.
Qed.

(** *** Audio, from the message to the start of its source *)

(** What a message with audio leaves waiting when an output context is
    held: the responses to its tool calls, then the decoding of its
    audio. *)
Lemma onmessage_held message dates st b64 ctx bytes :
  base64Audio message = Some b64 -> truthy b64 = true ->
  outputContextRef st = Some ctx ->
  base64ToUint8Array b64 = Some bytes ->
  pending (step (OnMessage message dates) st)
  = pending st ++ toolResponses (sessionPromiseRef st) message
    ++ [MessageAwaitDecode ctx
          (decodeAudioData bytes ctx AUDIO_OUTPUT_SAMPLE_RATE)].
Proof.
  intros B1 B2 B3 B4.
  rewrite (step_field pending) by (intros ?; reflexivity).
  unfold stateAfter, handle, onmessage.
  rewrite (bind_run _ _ (handleToolCalls_exact message st)).
  set (st1 := set_pending _ (set_detectedLanguage _ st)).
  destruct (handleTranscriptions_run message dates st1)
    as (st2 & o2 & H2 & _ & Hp & Hc & _).
  rewrite (bind_run _ _ H2).
  destruct (handleAudioOutput_run message st2) as (r & audio & H3 & A).
  rewrite H3. cbn [fst snd].
  assert (Hc1 : outputContextRef st1 = outputContextRef st)
    by (subst st1; destruct st; reflexivity).
  rewrite (A b64 ctx bytes B1 B2 (eq_trans Hc (eq_trans Hc1 B3)) B4).
  replace (pending (set_pending (pending st2 ++ [MessageAwaitDecode ctx
             (decodeAudioData bytes ctx AUDIO_OUTPUT_SAMPLE_RATE)]) st2))
    with (pending st2 ++ [MessageAwaitDecode ctx
            (decodeAudioData bytes ctx AUDIO_OUTPUT_SAMPLE_RATE)])
    by (destruct st2; reflexivity).
  rewrite Hp. subst st1.
  replace (pending (set_pending
             (pending st ++ toolResponses (sessionPromiseRef st) message)
             (set_detectedLanguage
                (last (map fc_args_language (reportedCalls message))
                   (detectedLanguage st)) st)))
    with (pending st ++ toolResponses (sessionPromiseRef st) message)
    by (destruct st; reflexivity).
  rewrite <- app_assoc. reflexivity.
Qed.

Lemma toolResponses_no_decode promise message :
  filter isDecodeTask (toolResponses promise message) = [].
Proof.
  unfold toolResponses. destruct promise; [|reflexivity].
  induction (reportedCalls message); [reflexivity|assumption].
Qed.

(** C1.  A message that carries audio leaves the decoding of that audio
    waiting when an output context is held, and only then: with no
    output context it leaves no decoding waiting, starts nothing and
    leaves the tracked next start time as it is.  When a decoding has
    settled with a buffer, one source is started with that buffer, at
    the tracked next start time, or at the clock's time plus 0.05 if the
    tracked time was behind the clock; the tracked time is then that
    start time plus the duration of the buffer.  Both sums are sums of
    doubles. *)
Theorem audio_scheduled_at_next_start_time :
  forall st message dates b64,
    base64Audio message = Some b64 -> truthy b64 = true ->
    (outputContextRef st = None ->
       filter isDecodeTask (registered (OnMessage message dates) st) = []
       /\ startTimes (emitted (OnMessage message dates) st) = []
       /\ nextStartTimeRef (step (OnMessage message dates) st)
          = nextStartTimeRef st)
    /\ (forall ctx bytes,
          outputContextRef st = Some ctx ->
          base64ToUint8Array b64 = Some bytes ->
          filter isDecodeTask (registered (OnMessage message dates) st)
          = [MessageAwaitDecode ctx
               (decodeAudioData bytes ctx AUDIO_OUTPUT_SAMPLE_RATE)]
          /\ startTimes (emitted (OnMessage message dates) st) = [])
    /\ forall st2 i fulfilled now ctx buffer,
         nth_error (pending st2) i
           = Some (MessageAwaitDecode ctx (Some buffer)) ->
         let start :=
           if ltb (nextStartTimeRef st2) now
           then plus64 now (binary64 (1 # 20))
           else nextStartTimeRef st2 in
         playbackSchedule (emitted (Settle i fulfilled now) st2)
           = [(nextHandle st2, start)]
         /\ bufferDurations (emitted (Settle i fulfilled now) st2)
            = [duration buffer]
         /\ (nextStartTimeRef st2 < now ->
             start = plus64 now (binary64 (1 # 20)))
         /\ (now <= nextStartTimeRef st2 -> start = nextStartTimeRef st2)
         /\ nextStartTimeRef (step (Settle i fulfilled now) st2)
            = plus64 start (duration buffer).
Proof.
  intros st message dates b64 B1 B2.
  destruct (onmessage_step message dates st) as (_ & Hs & Hq & _).
  cbv zeta in Hs. pose proof (proj1 (no_playback _ Hq)) as Hn.
  split; [|split].
  - intros Hc.
    destruct (onmessage_tasks message dates st) as (audio & Hp & _ & Ha & _).
    rewrite (Ha Hc), app_nil_r in Hp.
    rewrite (registered_of_pending Hp), toolResponses_no_decode.
    split; [reflexivity|]. split; [exact Hn|exact Hs].
  - intros ctx bytes B3 B4. split; [|exact Hn].
    rewrite (registered_of_pending
               (onmessage_held message dates st B1 B2 B3 B4)).
    rewrite filter_app, toolResponses_no_decode. reflexivity.
  - intros st2 i ok now ctx buffer E. cbv zeta.
    destruct (@settle_decoded i ok now st2 ctx buffer E)
      as (H1 & _ & H3 & H4).
    cbv zeta in H1, H4.
    split; [exact H1|]. split; [exact H3|]. split; [|split; [|exact H4]].
    + intros L. destruct (ltb (nextStartTimeRef st2) now) eqn:T; [reflexivity|].
      apply ltb_false in T. exfalso. eapply Qlt_not_le; eassumption.
    + intros L. destruct (ltb (nextStartTimeRef st2) now) eqn:T; [|reflexivity].
      apply ltb_true in T. exfalso. eapply Qlt_not_le; eassumption.
Qed.

End HookFacts.

(* ------------------------------------------------------------------ *)
(** ** The properties on the sample runs *)

#[local] Existing Instance sampleUtils.

Example trim_strips_both_ends :
  trim [32; 9; 104; 32; 105; 160; 10]%N = [104; 32; 105]%N.
Proof. reflexivity. Qed.

Example toString_of_a_date : toString 1700000000001 = lit "1700000000001".
Proof. reflexivity. Qed.

Example sampleOpening_state :
  let st := run sampleOpening initialState in
  connectionState st = CONNECTED
  /\ resources st
     = (Some 4%nat, Some 6%nat, Some 5%nat, Some 0%nat, Some 1%nat, [])
  /\ sessionPromiseRef st = Some 7%nat
  /\ processorsCreated (log st) = [(6%nat, (4096, 1, 1)%Z)]
  /\ hasHandler (SetOnAudioProcess 6) (log st) = true.
Proof. cbv zeta. repeat split; reflexivity. Qed.

Example binary64_of_a_literal :
  binary64 (1 # 20) = 3602879701896397 # 72057594037927936
  /\ isClockValue (binary64 (1 # 20)) = true
  /\ isClockValue (1 # 20) = false.
Proof. repeat split; vm_compute; reflexivity. Qed.


Example frame_needs_a_connected_hook :
  frame InputSide [128]%N initialState = []
  /\ length (frame InputSide [128]%N (run sampleOpening initialState))
     = 134%nat.
Proof. split; reflexivity. Qed.

(** C1 as stated fails.  The user stops while the microphone is asked
    for and connects again; both requests are granted, two sessions are
    asked for, and the user closes the one the hook holds.  The other
    session is still open, no output context is held, and the audio it
    sends is not scheduled: the message leaves nothing waiting and no
    source is started.  And where a buffer is scheduled, the tracked
    next start time does not advance by the duration exactly: the sum is
    rounded, here downwards. *)
Lemma audio_dropped_without_output_context :
  let st := run sampleLeaked initialState in
  let message := audioMessage (lit "abcd") in
  let st' := step (OnMessage message sampleDates) st in
  let held := run sampleOpening initialState in
  let held' := run [OnMessage message sampleDates; Settle 0 true (1 # 2)] held in
  (filter isLiveConnect (log st)
   = [LiveConnect 11 GEMINI_MODEL (lit "Spanish");
      LiveConnect 15 GEMINI_MODEL (lit "Spanish")]
   /\ filter isSessionClose (log st) = [SessionClose 15]
   /\ outputContextRef st = None
   /\ base64Audio message = Some (lit "abcd")
   /\ registered (OnMessage message sampleDates) st = []
   /\ pending st' = []
   /\ startTimes (log st') = [])
  /\ startTimes (log held') = [plus64 (1 # 2) (binary64 (1 # 20))]
  /\ bufferDurations (log held') = [duration sampleBuffer]
  /\ nextStartTimeRef held'
     < plus64 (1 # 2) (binary64 (1 # 20)) + duration sampleBuffer.
Proof. cbv zeta. repeat split; vm_compute; reflexivity. Qed.

Lemma audio_scheduled_at_next_start_time_witness :
  let st := run sampleOpening initialState in
  let message := audioMessage (lit "abcd") in
  let st2 := step (OnMessage message sampleDates) st in
  (base64Audio message = Some (lit "abcd")
   /\ truthy (lit "abcd") = true
   /\ outputContextRef st = Some 1%nat
   /\ base64ToUint8Array (lit "abcd") = Some (lit "abcd")
   /\ nth_error (pending st2) 0
      = Some (MessageAwaitDecode 1%nat (Some sampleBuffer)))
  /\ filter isDecodeTask (registered (OnMessage message sampleDates) st)
     = [MessageAwaitDecode 1%nat
          (decodeAudioData (lit "abcd") 1%nat AUDIO_OUTPUT_SAMPLE_RATE)]
  /\ playbackSchedule (emitted (Settle 0 true (1 # 2)) st2)
     = [(8%nat, plus64 (1 # 2) (binary64 (1 # 20)))]
  /\ nextStartTimeRef (step (Settle 0 true (1 # 2)) st2)
     = plus64 (plus64 (1 # 2) (binary64 (1 # 20))) (duration sampleBuffer)
  /\ (outputContextRef (run sampleLeaked initialState) = None
      /\ filter isDecodeTask
           (registered (OnMessage message sampleDates)
              (run sampleLeaked initialState)) = []
      /\ startTimes (emitted (OnMessage message sampleDates)
                       (run sampleLeaked initialState)) = []).
Proof.
  cbv zeta.
  assert (N : outputContextRef (run sampleLeaked initialState) = None)
    by (vm_compute; reflexivity).
  assert (E : nth_error
                (pending (step (OnMessage (audioMessage (lit "abcd"))
                                  sampleDates)
                            (run sampleOpening initialState))) 0
              = Some (MessageAwaitDecode 1%nat (Some sampleBuffer)))
    by (vm_compute; reflexivity).
  split; [repeat split; try reflexivity; exact E|].
  destruct (@audio_scheduled_at_next_start_time sampleUtils
              (run sampleOpening initialState) (audioMessage (lit "abcd"))
              sampleDates (lit "abcd") eq_refl eq_refl) as (_ & H & K).
  destruct (H 1%nat (lit "abcd") eq_refl eq_refl) as [H1 _].
  destruct (K _ 0%nat true (1 # 2) 1%nat sampleBuffer E)
    as (K1 & _ & _ & _ & K5).
  split; [exact H1|]. split; [exact K1|]. split; [exact K5|].
  destruct (@audio_scheduled_at_next_start_time sampleUtils
              (run sampleLeaked initialState) (audioMessage (lit "abcd"))
              sampleDates (lit "abcd") eq_refl eq_refl) as (D & _).
  destruct (D N) as (D1 & D2 & _).
  split; [exact N|]. split; [exact D1|exact D2].
Defined.



(** C3 as stated fails: once the user has closed the session no session
    promise is held, and a block delivered to the processor's handler,
    which is still installed, is neither sent nor left waiting. *)
Lemma chunk_dropped_without_session :
  let st := run sampleClosing initialState in
  hasHandler (SetOnAudioProcess 6) (log st) = true
  /\ processorsCreated (log st) = [(6%nat, (4096, 1, 1)%Z)]
  /\ length silence = 4096%nat
  /\ sessionPromiseRef st = None
  /\ emitted (OnAudioProcess 6 [silence]) st = []
  /\ registered (OnAudioProcess 6 [silence]) st = []
  /\ pending (step (OnAudioProcess 6 [silence]) st) = []
  /\ sentChunks (log (step (OnAudioProcess 6 [silence]) st)) = [].
Proof. cbv zeta. repeat split; vm_compute; reflexivity. Qed.

Lemma chunk_forwarded_while_session_held_witness :
  let st := run sampleOpening initialState in
  (reachable st
   /\ hasHandler (SetOnAudioProcess 6) (log st) = true
   /\ deliveredAsConfigured (log st) 6 [silence]
   /\ nth_error (pending (step (OnAudioProcess 6 [silence]) st)) 0
      = Some (ThenSendRealtimeInput 7
                (createPcmBlob silence AUDIO_INPUT_SAMPLE_RATE)))
  /\ registered (OnAudioProcess 6 [silence]) st
     = [ThenSendRealtimeInput 7 (createPcmBlob silence AUDIO_INPUT_SAMPLE_RATE)]
  /\ emitted (Settle 0 true 0) (step (OnAudioProcess 6 [silence]) st)
     = [SendRealtimeInput 7 (createPcmBlob silence AUDIO_INPUT_SAMPLE_RATE)].
Proof.
  cbv zeta.
  assert (R : reachable (run sampleOpening initialState)).
  { unfold sampleOpening, run. cbn [fold_left].
    apply reachable_step, reachable_step, reachable_step, reachable_initial. }
  assert (D : deliveredAsConfigured (log (run sampleOpening initialState))
                6 [silence]).
  { exists 4096%Z, 1%Z, 1%Z. split; [vm_compute; left; reflexivity|].
    split; [reflexivity|]. constructor; [reflexivity|constructor]. }
  assert (N : nth_error
                (pending (step (OnAudioProcess 6 [silence])
                            (run sampleOpening initialState))) 0
              = Some (ThenSendRealtimeInput 7
                        (createPcmBlob silence AUDIO_INPUT_SAMPLE_RATE)))
    by reflexivity.
  split; [repeat split; try assumption; reflexivity|].
  destruct (chunk_forwarded_while_session_held (utils := sampleUtils)
              (node := 6%nat) (inputBuffer := [silence]) R eq_refl D)
    as (channel & E & _ & _ & H4 & H5).
  injection E as E. subst channel.
  split; [exact H4|]. exact (H5 _ _ _ _ true 0 N).
Defined.

Lemma transcript_assembly_witness :
  let st := run sampleOpening initialState in
  (Forall (fun md => isTurnComplete (fst md) = false) sampleTurn
   /\ isTurnComplete sampleTurnEnd = true)
  /\ messages (step (OnMessage sampleTurnEnd sampleDates)
                 (run (messageEvents sampleTurn) st))
     = turnMessages (lit "hola que tal") (lit "hello") sampleDates
  /\ currentInputTransRef (step (OnMessage sampleTurnEnd sampleDates)
                             (run (messageEvents sampleTurn) st)) = []
  /\ currentOutputTransRef (step (OnMessage sampleTurnEnd sampleDates)
                              (run (messageEvents sampleTurn) st)) = [].
Proof.
  cbv zeta.
  assert (F : Forall (fun md => isTurnComplete (fst md) = false) sampleTurn)
    by (constructor; [reflexivity|constructor]).
  split; [split; [exact F|reflexivity]|].
  destruct (@transcript_assembly sampleUtils
              (run sampleOpening initialState) sampleTurn sampleTurnEnd
              sampleDates F eq_refl)
    as (_ & H2 & H3 & H4).
  split; [exact H2|]. split; [exact H3|exact H4].
Defined.

Lemma connection_status_state_machine_witness :
  let st := run sampleOpening initialState in
  reachable st
  /\ In (connectionState st) [DISCONNECTED; CONNECTING; CONNECTED; ERROR]
  /\ connectionState st = last (connectionWrites (log st)) DISCONNECTED.
Proof.
  cbv zeta.
  assert (R : reachable (run sampleOpening initialState)).
  { unfold sampleOpening, run. cbn [fold_left].
    apply reachable_step, reachable_step, reachable_step, reachable_initial. }
  split; [exact R|].
  exact (proj1 (connection_status_state_machine (utils := sampleUtils)) _ R).
Defined.

Lemma analyser_readings_do_not_interfere_witness :
  let es1 := sampleFrames [128; 130; 126]%N [128]%N in
  let es2 := sampleFrames [0; 255]%N [] in
  let st := run sampleOpening initialState in
  (Forall2 sameButReading es1 es2
   /\ analyserProp InputSide st = Some 2%nat
   /\ isActive st = true)
  /\ (hook (appRun es1 initialApp) = hook (appRun es2 initialApp)
      /\ sentChunks (log (hook (appRun es1 initialApp)))
         = sentChunks (log (hook (appRun es2 initialApp)))
      /\ messages (hook (appRun es1 initialApp))
         = messages (hook (appRun es2 initialApp))
      /\ playbackSchedule (log (hook (appRun es1 initialApp)))
         = playbackSchedule (log (hook (appRun es2 initialApp)))
      /\ forall side,
           map withoutOrdinate (canvasOf side (appRun es1 initialApp))
           = map withoutOrdinate (canvasOf side (appRun es2 initialApp)))
  /\ ordinates (frame InputSide [128; 130; 126]%N st)
     = map (ordinateOf 60)
         (getByteTimeDomainData (frequencyBinCount 2 (log st))
            [128; 130; 126]%N)
       ++ [60 / 2].
Proof.
  cbv zeta.
  assert (S : Forall2 sameButReading
                (sampleFrames [128; 130; 126]%N [128]%N)
                (sampleFrames [0; 255]%N [])).
  { unfold sampleFrames, sampleOpening. cbn [map app].
    repeat (constructor; [constructor|]). constructor. }
  assert (A : analyserProp InputSide (run sampleOpening initialState)
              = Some 2%nat) by (vm_compute; reflexivity).
  assert (I : isActive (run sampleOpening initialState) = true)
    by (vm_compute; reflexivity).
  split; [split; [exact S|split; [exact A|exact I]]|].
  destruct (analyser_readings_do_not_interfere (utils := sampleUtils))
    as (_ & _ & O & R).
  split; [exact (R _ _ initialApp S)|].
  exact (O InputSide [128; 130; 126]%N _ 2%nat A I).
Defined.

(** C7 as stated fails.  With a session open and two buffers scheduled,
    a session error leaves the [disconnect] it calls waiting for the
    session promise, and when that has settled the stream, the nodes,
    both contexts and the scheduled sources are released.  With no
    session promise held (a late error of a closed session, while the
    user connects again) the error step itself closes the new contexts. *)
Lemma session_error_releases_resources :
  let st := run samplePlayback initialState in
  let st' := run sampleReconnecting initialState in
  resources st
    = (Some 4%nat, Some 6%nat, Some 5%nat, Some 0%nat, Some 1%nat, [8; 9]%nat)
  /\ pending (step OnError st) = [DisconnectAwaitSession 7]
  /\ emitted (Settle 0 true 0) (step OnError st)
     = [SessionClose 7; TracksStop 4; Disconnect 6; Disconnect 5;
        ContextClose 0; SourceStop 8; SourceStop 9; ContextClose 1;
        SetDetectedLanguage (lit "Waiting for speech...")]
  /\ resources (run [OnError; Settle 0 true 0] st) = noResources
  /\ resources (run [OnError; Settle 0 true 0] st) <> resources st
  /\ resources st' = (None, None, None, Some 8%nat, Some 9%nat, [])
  /\ sessionPromiseRef st' = None
  /\ emitted OnError st'
     = [ConsoleError (lit "Session error:"); SetConnectionState ERROR;
        SetConnectionState DISCONNECTED; ContextClose 8; ContextClose 9;
        SetDetectedLanguage (lit "Waiting for speech...")]
  /\ resources (step OnError st') = noResources
  /\ resources (step OnError st') <> resources st'.
Proof.
  cbv zeta. repeat split; try (vm_compute; reflexivity);
    vm_compute; discriminate.
Qed.

Lemma session_error_runs_cleanup_witness :
  let st := step OnError (run samplePlayback initialState) in
  nth_error (pending st) 0 = Some (DisconnectAwaitSession 7)
  /\ emitted (Settle 0 false 0) st
     = ConsoleError (lit "Error closing session") :: releaseEffects st
  /\ resources (step (Settle 0 false 0) st) = noResources.
Proof.
  cbv zeta.
  assert (N : nth_error
                (pending (step OnError (run samplePlayback initialState))) 0
              = Some (DisconnectAwaitSession 7)) by reflexivity.
  split; [exact N|].
  destruct (session_error_runs_cleanup (utils := sampleUtils)
              (step OnError (run samplePlayback initialState)))
    as (_ & _ & _ & H).
  exact (H 0%nat 7%nat false 0 N).
Defined.

Lemma session_error_ends_disconnected_witness :
  let st := run sampleClosing initialState in
  let failing := CallConnect sampleProps (Some AtGetUserMedia) in
  (connectThrows failing st = true
   /\ connectionState (step failing st) = ERROR
   /\ nth_error (pending (step OnError (run sampleOpening initialState))) 0
      = Some (DisconnectAwaitSession 7))
  /\ connectionState (step OnError (run sampleOpening initialState))
     = DISCONNECTED
  /\ connectionState
       (step (Settle 0 true 0) (step OnError (run sampleOpening initialState)))
     = DISCONNECTED
  /\ forallb (fun x => negb (isLiveConnect x)) (emitted failing st) = true
  /\ (connectionState st = ERROR \/ connectThrows failing st = true).
Proof.
  cbv zeta.
  destruct (session_error_ends_disconnected (utils := sampleUtils))
    as (H1 & H2 & H3 & H4).
  split; [repeat split; reflexivity|].
  split; [exact (proj1 (H1 (run sampleOpening initialState)))|].
  split.
  - rewrite (H2 (step OnError (run sampleOpening initialState))
               0%nat 7%nat true 0 eq_refl).
    exact (proj1 (H1 (run sampleOpening initialState))).
  - split.
    + exact (proj1 (proj2 (H3 (CallConnect sampleProps (Some AtGetUserMedia))
                             (run sampleClosing initialState) eq_refl))).
    + exact (H4 (CallConnect sampleProps (Some AtGetUserMedia))
               (run sampleClosing initialState) eq_refl).
Defined.

Lemma chat_list_is_user_model_pairs_witness :
  let st := run (sampleOpening ++ messageEvents sampleTurn
                 ++ [OnMessage sampleTurnEnd sampleDates]) initialState in
  (reachable st /\ nth_error (messages st) 1 <> None)
  /\ Nat.even (length (messages st)) = true
  /\ forall m, nth_error (messages st) 1 = Some m -> sender m = model.
Proof.
  cbv zeta.
  assert (R : reachable
                (run (sampleOpening ++ messageEvents sampleTurn
                      ++ [OnMessage sampleTurnEnd sampleDates]) initialState)).
  { unfold sampleOpening, sampleTurn, messageEvents, run.
    cbn [map app fold_left fst snd].
    repeat apply reachable_step. apply reachable_initial. }
  split; [split; [exact R|vm_compute; discriminate]|].
  destruct (proj1 (chat_list_is_user_model_pairs (utils := sampleUtils)) _ R)
    as [H1 H2].
  split; [exact H1|]. intros m Hm. exact (H2 1%nat m Hm).
Defined.

Lemma disconnect_preserves_messages_witness :
  let st := step CallDisconnect
              (run (sampleOpening ++ messageEvents sampleTurn
                    ++ [OnMessage sampleTurnEnd sampleDates]) initialState) in
  nth_error (pending st) 0 = Some (DisconnectAwaitSession 7)
  /\ messages (step (Settle 0 true 0) st) = messages st
  /\ messages st = turnMessages (lit "hola que tal") (lit "hello") sampleDates
  /\ resources (step (Settle 0 true 0) st) = noResources.
Proof.
  cbv zeta.
  split; [reflexivity|].
  destruct (disconnect_preserves_messages (utils := sampleUtils)
              (step CallDisconnect
                 (run (sampleOpening ++ messageEvents sampleTurn
                       ++ [OnMessage sampleTurnEnd sampleDates]) initialState)))
    as (_ & _ & _ & H).
  specialize (H 0%nat 7%nat true 0). cbv zeta in H.
  destruct H as (H1 & H2 & _); [reflexivity|].
  split; [exact H1|]. split; [reflexivity|exact H2].
Defined.

(* ------------------------------------------------------------------ *)
(** ** The further properties on the sample runs *)

Example sampleInterrupted_turn :
  messages (run (sampleInterrupted ++ [OnMessage sampleTurnEnd sampleDates])
              initialState)
  = turnMessages (lit "buenos que tal") [] sampleDates.
Proof. reflexivity. Qed.

Example sampleHasty_then_stopped :
  let st := step CallDisconnect sampleHasty in
  connectionState st = DISCONNECTED
  /\ inputContextRef st = None
  /\ pending st = [ConnectAwaitUserMedia sampleProps].
Proof. cbv zeta. repeat split; reflexivity. Qed.

Lemma toggle_without_api_key_only_alerts_witness :
  (truthyOpt None = false
   /\ (connectionState initialState = DISCONNECTED
       \/ connectionState initialState = ERROR))
  /\ let e := toggleConnection (appProps sampleLanguages None (lit "es"))
                None initialState in
     emitted e initialState = [Alert (lit "Please provide a valid API Key.")]
     /\ step e initialState
        = set_log (log initialState
                   ++ [Alert (lit "Please provide a valid API Key.")])
            initialState.
Proof.
  assert (H1 : truthyOpt None = false) by reflexivity.
  assert (H2 : connectionState initialState = DISCONNECTED
               \/ connectionState initialState = ERROR)
    by (left; reflexivity).
  split; [split; [exact H1|exact H2]|].
  apply (toggle_without_api_key_only_alerts (utils := sampleUtils)
           sampleLanguages None (lit "es") None initialState H1 H2).
Defined.

Lemma refused_microphone_leaves_contexts_open_witness :
  truthy (apiKey sampleProps) = true
  /\ let st1 := step (CallConnect sampleProps None) initialState in
     let st2 := step (Settle (length (pending initialState)) false 0) st1 in
     connectionState st2 = ERROR
     /\ inputContextRef st2 = Some (nextHandle initialState)
     /\ outputContextRef st2 = Some (S (nextHandle initialState))
     /\ streamRef st2 = streamRef initialState
     /\ sessionPromiseRef st2 = sessionPromiseRef initialState
     /\ emitted (Settle (length (pending initialState)) false 0) st1
        = [ConsoleError (lit "Connection failed:"); SetConnectionState ERROR]
     /\ forallb (fun e => negb (isTeardown e))
          (emitted (CallConnect sampleProps None) initialState
           ++ emitted (Settle (length (pending initialState)) false 0) st1)
        = true.
Proof.
  assert (H : truthy (apiKey sampleProps) = true) by reflexivity.
  split; [exact H|].
  apply (refused_microphone_leaves_contexts_open (utils := sampleUtils)
           sampleProps initialState 0 H).
Defined.

Lemma late_microphone_is_left_running_witness :
  let st := step CallDisconnect sampleHasty in
  (nth_error (pending st) 0 = Some (ConnectAwaitUserMedia sampleProps)
   /\ inputContextRef st = None)
  /\ let st' := step (Settle 0 true 0) st in
     connectionState st' = ERROR
     /\ streamRef st' = Some (nextHandle st)
     /\ sessionPromiseRef st' = sessionPromiseRef st
     /\ emitted (Settle 0 true 0) st
        = [ConsoleError (lit "Connection failed:"); SetConnectionState ERROR].
Proof.
  cbv zeta.
  assert (H1 : nth_error (pending (step CallDisconnect sampleHasty)) 0
               = Some (ConnectAwaitUserMedia sampleProps))
    by (vm_compute; reflexivity).
  assert (H2 : inputContextRef (step CallDisconnect sampleHasty) = None)
    by (vm_compute; reflexivity).
  split; [split; [exact H1|exact H2]|].
  apply (late_microphone_is_left_running (utils := sampleUtils)
           (step CallDisconnect sampleHasty) 0 0 H1 H2).
Defined.

Lemma connect_then_open_forwards_blocks_witness :
  truthy (apiKey sampleProps) = true
  /\ let n := nextHandle initialState in
     let st1 := step (CallConnect sampleProps None) initialState in
     let st2 := step (Settle (length (pending initialState)) true 0) st1 in
     let st3 := step (OnOpen 0) st2 in
     connectionState st1 = CONNECTING
     /\ connectionState st2 = CONNECTING
     /\ connectionState st3 = CONNECTED
     /\ emitted (Settle (length (pending initialState)) true 0) st1
        = [CreateMediaStreamSource n (4 + n) (5 + n);
           CreateScriptProcessor n (6 + n) 4096 1 1;
           Connect (5 + n) (Node (2 + n)); Connect (2 + n) (Node (6 + n));
           Connect (6 + n) (Destination n);
           LiveConnect (7 + n) GEMINI_MODEL (targetLanguage sampleProps)]
     /\ resources st3
        = (Some (4 + n), Some (6 + n), Some (5 + n), Some n, Some (1 + n),
           scheduledSourcesRef initialState)%nat
     /\ sessionPromiseRef st3 = Some (7 + n)%nat
     /\ hasHandler (SetOnAudioProcess (6 + n)) (log st3) = true
     /\ registered (OnAudioProcess (6 + n) [silence]) st3
        = [ThenSendRealtimeInput (7 + n)
             (createPcmBlob silence AUDIO_INPUT_SAMPLE_RATE)].
Proof.
  assert (H : truthy (apiKey sampleProps) = true) by reflexivity.
  split; [exact H|].
  apply (connect_then_open_forwards_blocks (utils := sampleUtils)
           sampleProps initialState 0 0 silence H).
Defined.

Lemma open_during_disconnect_ends_connected_witness :
  let st := run sampleOpening initialState in
  sessionPromiseRef st = Some 7%nat
  /\ let st1 := step CallDisconnect st in
     let st2 := step (OnOpen 0) st1 in
     let st3 := step (Settle (length (pending st)) true 0) st2 in
     connectionState st1 = DISCONNECTED
     /\ connectionState st3 = CONNECTED
     /\ resources st3 = noResources
     /\ sessionPromiseRef st3 = None
     /\ getStatusText (connectionState st3) = lit "Live".
Proof.
  cbv zeta.
  assert (H : sessionPromiseRef (run sampleOpening initialState) = Some 7%nat)
    by (vm_compute; reflexivity).
  split; [exact H|].
  apply (open_during_disconnect_ends_connected (utils := sampleUtils)
           (run sampleOpening initialState) 0 true 0 H).
Defined.

Example sampleSpoken_after_closing :
  let st := run sampleClosing initialState in
  let st' := step (OnMessage sampleSpoken sampleDates) st in
  base64Audio sampleSpoken = Some (lit "abcd")
  /\ currentInputTransRef st' = lit "hola"
  /\ currentOutputTransRef st' = lit "hello"
  /\ pending st' = []
  /\ startTimes (log st') = [].
Proof. cbv zeta. repeat split; vm_compute; reflexivity. Qed.

Lemma audio_without_output_context_is_dropped_witness :
  let st := run sampleClosing initialState in
  let message := sampleSpoken in
  outputContextRef st = None
  /\ let st' := step (OnMessage message sampleDates) st in
     let accIn := currentInputTransRef st ++ fragment (inputTxt message) in
     let accOut := currentOutputTransRef st ++ fragment (outputTxt message) in
     filter isDecodeTask (registered (OnMessage message sampleDates) st) = []
     /\ startTimes (emitted (OnMessage message sampleDates) st) = []
     /\ scheduledSourcesRef st' = scheduledSourcesRef st
     /\ nextStartTimeRef st' = nextStartTimeRef st
     /\ (if isTurnComplete message then
           messages st'
           = messages st
             ++ (if truthy (trim accIn) || truthy (trim accOut)
                 then turnMessages (trim accIn) (trim accOut) sampleDates
                 else [])
           /\ currentInputTransRef st' = []
           /\ currentOutputTransRef st' = []
         else
           messages st' = messages st
           /\ currentInputTransRef st' = accIn
           /\ currentOutputTransRef st' = accOut).
Proof.
  cbv zeta.
  assert (H : outputContextRef (run sampleClosing initialState) = None)
    by (vm_compute; reflexivity).
  split; [exact H|].
  apply (audio_without_output_context_is_dropped (utils := sampleUtils)
           (run sampleClosing initialState) sampleSpoken sampleDates H).
Defined.

Lemma undecodable_audio_is_skipped_witness :
  let st := set_pending [MessageAwaitDecode 1 None]
              (run sampleOpening initialState) in
  nth_error (pending st) 0 = Some (MessageAwaitDecode 1 None)
  /\ emitted (Settle 0 true (1 # 2)) st = []
  /\ step (Settle 0 true (1 # 2)) st
     = set_pending (removeNth 0 (pending st)) st.
Proof.
  cbv zeta.
  assert (H : nth_error
                (pending (set_pending [MessageAwaitDecode 1 None]
                            (run sampleOpening initialState))) 0
              = Some (MessageAwaitDecode 1 None))
    by (vm_compute; reflexivity).
  split; [exact H|].
  apply (undecodable_audio_is_skipped (utils := sampleUtils)
           (set_pending [MessageAwaitDecode 1 None]
              (run sampleOpening initialState)) 0 true (1 # 2) H).
Defined.

Lemma fragments_survive_reconnection_witness :
  let es := [CallDisconnect; Settle 0 true 0;
             CallConnect sampleProps None; Settle 0 true 0; OnOpen 0] in
  let st := step (OnMessage (textMessage (Some (lit "buenos ")) None false)
                    sampleDates) (run sampleOpening initialState) in
  (forallb (fun e => negb (isOnMessage e)) es = true
   /\ isTurnComplete sampleTurnEnd = true)
  /\ let st1 := run es st in
     let st2 := step (OnMessage sampleTurnEnd sampleDates) st1 in
     let userText :=
       trim (currentInputTransRef st ++ fragment (inputTxt sampleTurnEnd)) in
     let modelText :=
       trim (currentOutputTransRef st ++ fragment (outputTxt sampleTurnEnd)) in
     currentInputTransRef st1 = currentInputTransRef st
     /\ currentOutputTransRef st1 = currentOutputTransRef st
     /\ messages st2
        = messages st
          ++ (if truthy userText || truthy modelText
              then turnMessages userText modelText sampleDates else []).
Proof.
  cbv zeta.
  assert (H1 : forallb (fun e => negb (isOnMessage e))
                 [CallDisconnect; Settle 0 true 0;
                  CallConnect sampleProps None; Settle 0 true 0; OnOpen 0]
               = true) by reflexivity.
  assert (H2 : isTurnComplete sampleTurnEnd = true) by reflexivity.
  split; [split; [exact H1|exact H2]|].
  apply (fragments_survive_reconnection (utils := sampleUtils)
           [CallDisconnect; Settle 0 true 0;
            CallConnect sampleProps None; Settle 0 true 0; OnOpen 0]
           (step (OnMessage (textMessage (Some (lit "buenos ")) None false)
                    sampleDates) (run sampleOpening initialState))
           sampleTurnEnd sampleDates H1 H2).
Defined.

Lemma turn_is_appended_iff_it_has_text_witness :
  isTurnComplete sampleTurnEnd = true
  /\ let st' := step (OnMessage sampleTurnEnd sampleDates) initialState in
     let accIn :=
       currentInputTransRef initialState ++ fragment (inputTxt sampleTurnEnd) in
     let accOut :=
       currentOutputTransRef initialState
       ++ fragment (outputTxt sampleTurnEnd) in
     messages st'
     = messages initialState
       ++ (if forallb isWhiteSpace accIn && forallb isWhiteSpace accOut
           then []
           else turnMessages (trim accIn) (trim accOut) sampleDates)
     /\ currentInputTransRef st' = []
     /\ currentOutputTransRef st' = [].
Proof.
  assert (H : isTurnComplete sampleTurnEnd = true) by reflexivity.
  split; [exact H|].
  apply (turn_is_appended_iff_it_has_text (utils := sampleUtils)
           initialState sampleTurnEnd sampleDates H).
Defined.

Lemma release_stops_tracked_sources_once_witness :
  let st := step CallDisconnect (run samplePlayback initialState) in
  nth_error (pending st) 0 = Some (DisconnectAwaitSession 7)
  /\ let st1 := step (Settle 0 true 1) st in
     sourcesStopped (emitted (Settle 0 true 1) st) = scheduledSourcesRef st
     /\ emitted CallDisconnect st1
        = [SetConnectionState DISCONNECTED;
           SetDetectedLanguage (lit "Waiting for speech...")]
     /\ resources (step CallDisconnect st1) = noResources
     /\ pending (step CallDisconnect st1) = removeNth 0 (pending st).
Proof.
  cbv zeta.
  assert (H : nth_error
                (pending (step CallDisconnect
                            (run samplePlayback initialState))) 0
              = Some (DisconnectAwaitSession 7))
    by (vm_compute; reflexivity).
  split; [exact H|].
  apply (release_stops_tracked_sources_once (utils := sampleUtils)
           (step CallDisconnect (run samplePlayback initialState))
           0 true 1 H).
Defined.

Lemma tracked_sources_are_started_and_untrack_on_end_witness :
  let st := run samplePlayback initialState in
  (reachable st /\ scheduledSourcesRef st = [8; 9]%nat)
  /\ NoDup (scheduledSourcesRef st)
  /\ forall s, In s (scheduledSourcesRef st) ->
       started s (log st) = true
       /\ hasHandler (SetOnEnded s) (log st) = true
       /\ ~ In s (scheduledSourcesRef (step (OnEnded s) st))
       /\ forall s', s' <> s ->
            (In s' (scheduledSourcesRef (step (OnEnded s) st))
             <-> In s' (scheduledSourcesRef st)).
Proof.
  cbv zeta.
  assert (R : reachable (run samplePlayback initialState))
    by (apply reachable_run; constructor).
  split; [split; [exact R|vm_compute; reflexivity]|].
  apply (tracked_sources_are_started_and_untrack_on_end
           (utils := sampleUtils) R).
Defined.

Lemma visualizer_reads_128_samples_witness :
  let st := run sampleOpening initialState in
  (reachable st /\ analyserProp InputSide st = Some 2%nat)
  /\ fftSizeOf 2 (log st) = 256%Z
  /\ frequencyBinCount 2 (log st) = 128%nat
  /\ forall reading,
       length (getByteTimeDomainData (frequencyBinCount 2 (log st)) reading)
       = 128%nat.
Proof.
  cbv zeta.
  assert (R : reachable (run sampleOpening initialState))
    by (apply reachable_run; constructor).
  assert (H : analyserProp InputSide (run sampleOpening initialState)
              = Some 2%nat) by (vm_compute; reflexivity).
  split; [split; [exact R|exact H]|].
  apply (@visualizer_reads_128_samples sampleUtils
           (run sampleOpening initialState) InputSide 2%nat R H).
Defined.

Lemma active_frame_stays_on_canvas_witness :
  let st := run sampleOpening initialState in
  let reading := [128; 255; 0]%N in
  (reachable st
   /\ isActive st = true
   /\ analyserProp OutputSide st <> None
   /\ Forall (fun d => (d < 256)%N) reading)
  /\ length (frame OutputSide reading st) = 134%nat
  /\ hd Stroke (frame OutputSide reading st) = ClearRect 0 0 300 60
  /\ last (frame OutputSide reading st) BeginPath = Stroke
  /\ length (ordinates (frame OutputSide reading st)) = 129%nat
  /\ Forall (fun x => (0 <= x /\ x <= 300)%Q)
       (abscissas (frame OutputSide reading st))
  /\ Forall (fun y => (0 <= y /\ y < 60)%Q)
       (ordinates (frame OutputSide reading st)).
Proof.
  cbv zeta.
  assert (R : reachable (run sampleOpening initialState))
    by (apply reachable_run; constructor).
  assert (A : isActive (run sampleOpening initialState) = true)
    by (vm_compute; reflexivity).
  assert (N : analyserProp OutputSide (run sampleOpening initialState)
              <> None) by (vm_compute; discriminate).
  assert (B : Forall (fun d => (d < 256)%N) [128; 255; 0]%N)
    by (repeat constructor).
  split; [repeat split; assumption|].
  apply (@active_frame_stays_on_canvas sampleUtils
           (run sampleOpening initialState) OutputSide [128; 255; 0]%N
           R A N B).
Defined.

Lemma target_language_is_never_empty_witness :
  (find (fun l => strictEq (code l) (lit "fr")) sampleLanguages
   = Some {| code := lit "fr"; name := lit "French"; flag := lit "FR" |}
   /\ forall l, In l sampleLanguages -> code l <> lit "de")
  /\ truthy (targetLanguageOf sampleLanguages (lit "fr")) = true
  /\ targetLanguageOf sampleLanguages (lit "fr") = lit "French"
  /\ targetLanguageOf sampleLanguages (lit "de") = lit "Spanish".
Proof.
  assert (H1 : find (fun l => strictEq (code l) (lit "fr")) sampleLanguages
               = Some {| code := lit "fr"; name := lit "French";
                         flag := lit "FR" |}) by reflexivity.
  assert (H2 : forall l, In l sampleLanguages -> code l <> lit "de").
  { intros l [<-|[<-|[]]]; discriminate. }
  split; [split; [exact H1|exact H2]|].
  destruct (target_language_is_never_empty sampleLanguages (lit "fr"))
    as (T1 & T2 & _).
  destruct (target_language_is_never_empty sampleLanguages (lit "de"))
    as (_ & _ & T3).
  split; [exact T1|]. split; [exact (proj2 (T2 _ H1))|exact (T3 H2)].
Defined.

Lemma ids_of_a_turn_are_distinct_witness :
  (userId sampleDates <= modelId sampleDates)%Z
  /\ NoDup (map id (skipn (length (messages initialState))
                      (messages (step (OnMessage sampleTurnEnd sampleDates)
                                   initialState))))
  /\ forall userText modelText,
       NoDup (map id (turnMessages userText modelText sampleDates))
       <-> (modelId sampleDates + 1 <> userId sampleDates)%Z.
Proof.
  assert (H : (userId sampleDates <= modelId sampleDates)%Z)
    by (vm_compute; discriminate).
  split; [exact H|].
  apply (ids_of_a_turn_are_distinct (utils := sampleUtils)
           initialState sampleTurnEnd sampleDates H).
Defined.
